(** * Zyncoder: rotary encoders, switches and the MIDI bridge of zyncoder.c

    A shallow embedding of [zyncoder.c] (default build: native GPIO pins read
    with [digitalRead], JACK MIDI transport) and the properties of its
    switch debouncer, encoder decoder, dispatcher, transport bridge and
    returned-event ring. *)

From Stdlib Require Import ZArith Lia String.
From stdpp Require Import base list.

Open Scope Z_scope.

(** ** C integer conversions *)

(** [unsigned int]: 32 bits, arithmetic wraps. *)
Definition u32 (x : Z) : Z := x mod 2 ^ 32.

(** [unsigned char]. *)
Definition u8 (x : Z) : Z := x mod 2 ^ 8.

(** Conversion to [int] (two's complement, 32 bits). *)
Definition s32 (x : Z) : Z :=
  let y := x mod 2 ^ 32 in if y <? 2 ^ 31 then y else y - 2 ^ 32.

(** Modelled from the spec: [ZYNCODER_TICKS_PER_RETENT] is declared in
    zyncoder.h, which is not among the sources; the spec fixes it to 4 and
    [update_zyncoder] shifts a four-slot [dtus] array by hand. *)
Definition ZYNCODER_TICKS_PER_RETENT : Z := 4.

(** ** The two structs of zyncoder.h

    The field lists are read off the accesses in zyncoder.c; the integer
    fields are kept as [Z] and every arithmetic operation on them writes out
    its conversion. *)

Module Zynswitch.
Record st : Type := mk {
  enabled : Z;
  pin : Z;
  tsus : Z;      (* time of the last edge to level 0, microseconds *)
  dtus : Z;      (* interval measured at an edge to level 1, cleared when read *)
  status : Z     (* last sampled level *)
}.

Definition set_status (v : Z) (s : st) : st :=
  mk (enabled s) (pin s) (tsus s) (dtus s) v.
Definition set_tsus (v : Z) (s : st) : st :=
  mk (enabled s) (pin s) v (dtus s) (status s).
Definition set_dtus (v : Z) (s : st) : st :=
  mk (enabled s) (pin s) (tsus s) v (status s).

(** A zero-initialised global. *)
Definition zero : st := mk 0 0 0 0 0.
End Zynswitch.

Module Zyncoder.
Record st : Type := mk {
  enabled : Z;
  pin_a : Z;
  pin_b : Z;
  midi_chan : Z;
  midi_ctrl : Z;
  osc_path : string;
  max_value : Z;
  step : Z;
  subvalue : Z;
  value : Z;
  last_encoded : Z;
  tsus : Z;
  dtus : list Z            (* dtus[0..3] *)
}.

Definition set_enabled (v : Z) (e : st) : st :=
  mk v (pin_a e) (pin_b e) (midi_chan e) (midi_ctrl e) (osc_path e)
     (max_value e) (step e) (subvalue e) (value e) (last_encoded e) (tsus e) (dtus e).
Definition set_pins (a b : Z) (e : st) : st :=
  mk (enabled e) a b (midi_chan e) (midi_ctrl e) (osc_path e)
     (max_value e) (step e) (subvalue e) (value e) (last_encoded e) (tsus e) (dtus e).
Definition set_midi (chan ctrl : Z) (e : st) : st :=
  mk (enabled e) (pin_a e) (pin_b e) chan ctrl (osc_path e)
     (max_value e) (step e) (subvalue e) (value e) (last_encoded e) (tsus e) (dtus e).
Definition set_osc_path (p : string) (e : st) : st :=
  mk (enabled e) (pin_a e) (pin_b e) (midi_chan e) (midi_ctrl e) p
     (max_value e) (step e) (subvalue e) (value e) (last_encoded e) (tsus e) (dtus e).
Definition set_max_value (v : Z) (e : st) : st :=
  mk (enabled e) (pin_a e) (pin_b e) (midi_chan e) (midi_ctrl e) (osc_path e)
     v (step e) (subvalue e) (value e) (last_encoded e) (tsus e) (dtus e).
Definition set_step (v : Z) (e : st) : st :=
  mk (enabled e) (pin_a e) (pin_b e) (midi_chan e) (midi_ctrl e) (osc_path e)
     (max_value e) v (subvalue e) (value e) (last_encoded e) (tsus e) (dtus e).
Definition set_subvalue (v : Z) (e : st) : st :=
  mk (enabled e) (pin_a e) (pin_b e) (midi_chan e) (midi_ctrl e) (osc_path e)
     (max_value e) (step e) v (value e) (last_encoded e) (tsus e) (dtus e).
Definition set_value (v : Z) (e : st) : st :=
  mk (enabled e) (pin_a e) (pin_b e) (midi_chan e) (midi_ctrl e) (osc_path e)
     (max_value e) (step e) (subvalue e) v (last_encoded e) (tsus e) (dtus e).
Definition set_last_encoded (v : Z) (e : st) : st :=
  mk (enabled e) (pin_a e) (pin_b e) (midi_chan e) (midi_ctrl e) (osc_path e)
     (max_value e) (step e) (subvalue e) (value e) v (tsus e) (dtus e).
Definition set_tsus (v : Z) (e : st) : st :=
  mk (enabled e) (pin_a e) (pin_b e) (midi_chan e) (midi_ctrl e) (osc_path e)
     (max_value e) (step e) (subvalue e) (value e) (last_encoded e) v (dtus e).
Definition set_dtus (v : list Z) (e : st) : st :=
  mk (enabled e) (pin_a e) (pin_b e) (midi_chan e) (midi_ctrl e) (osc_path e)
     (max_value e) (step e) (subvalue e) (value e) (last_encoded e) (tsus e) v.

(** A zero-initialised global. *)
Definition zero : st :=
  mk 0 0 0 0 0 EmptyString 0 0 0 0 0 0 [0; 0; 0; 0].
End Zyncoder.

(** ** The JACK ring buffer

    [jack_ringbuffer_t] belongs to the JACK library: a byte array whose size
    is rounded up to a power of two, a read and a write index, and one slot
    always kept free. *)

Record jack_ringbuffer : Type := mk_ringbuffer {
  rb_buf : list Z;
  rb_write_ptr : nat;
  rb_read_ptr : nat;
  rb_size : nat
}.

Definition jack_ringbuffer_create (sz : nat) : jack_ringbuffer :=
  let size := (2 ^ Nat.max 1 (Nat.log2_up sz))%nat in
  mk_ringbuffer (replicate size 0) 0 0 size.

Definition jack_ringbuffer_read_space (rb : jack_ringbuffer) : nat :=
  let w := rb_write_ptr rb in
  let r := rb_read_ptr rb in
  if (r <? w)%nat then (w - r)%nat
  else if (w <? r)%nat then (w + rb_size rb - r)%nat
  else 0%nat.

Definition jack_ringbuffer_write_space (rb : jack_ringbuffer) : nat :=
  let w := rb_write_ptr rb in
  let r := rb_read_ptr rb in
  if (r <? w)%nat then (r + rb_size rb - w - 1)%nat
  else if (w <? r)%nat then (r - w - 1)%nat
  else (rb_size rb - 1)%nat.

(** The index after [p], wrapping at the end of the array. *)
Definition rb_next (rb : jack_ringbuffer) (p : nat) : nat :=
  if (S p <? rb_size rb)%nat then S p else 0%nat.

(** Store one byte at the write index and advance it. *)
Definition rb_put (rb : jack_ringbuffer) (b : Z) : jack_ringbuffer :=
  mk_ringbuffer (<[rb_write_ptr rb := b]> (rb_buf rb))
                (rb_next rb (rb_write_ptr rb)) (rb_read_ptr rb) (rb_size rb).

(** [jack_ringbuffer_write rb src cnt]: copies at most [cnt] bytes, as many
    as there is room for, and returns how many were copied. *)
Definition jack_ringbuffer_write (rb : jack_ringbuffer) (src : list Z) (cnt : nat)
  : nat * jack_ringbuffer :=
  let free_cnt := jack_ringbuffer_write_space rb in
  if (free_cnt =? 0)%nat then (0%nat, rb)
  else
    let to_write := if (free_cnt <? cnt)%nat then free_cnt else cnt in
    (to_write, foldl rb_put rb (take to_write src)).

(** The byte at the read index, and the ring with that index advanced. *)
Definition rb_get (rb : jack_ringbuffer) : Z * jack_ringbuffer :=
  (nth (rb_read_ptr rb) (rb_buf rb) 0,
   mk_ringbuffer (rb_buf rb) (rb_write_ptr rb)
                 (rb_next rb (rb_read_ptr rb)) (rb_size rb)).

Fixpoint rb_get_n (n : nat) (rb : jack_ringbuffer) : list Z * jack_ringbuffer :=
  match n with
  | O => ([], rb)
  | S n' =>
      let '(b, rb1) := rb_get rb in
      let '(bs, rb2) := rb_get_n n' rb1 in
      (b :: bs, rb2)
  end.

(** [jack_ringbuffer_read rb cnt]: the bytes copied out (at most [cnt], as
    many as are queued) and the ring after the read. *)
Definition jack_ringbuffer_read (rb : jack_ringbuffer) (cnt : nat)
  : list Z * jack_ringbuffer :=
  let free_cnt := jack_ringbuffer_read_space rb in
  if (free_cnt =? 0)%nat then ([], rb)
  else
    let to_read := if (free_cnt <? cnt)%nat then free_cnt else cnt in
    rb_get_n to_read rb.

(** The queued bytes, oldest first. *)
Definition rb_contents (rb : jack_ringbuffer) : list Z :=
  fst (rb_get_n (jack_ringbuffer_read_space rb) rb).

(** The index [k] places after [r], wrapping at [size]. *)
Definition rb_index (size r k : nat) : nat :=
  if (r + k <? size)%nat then (r + k)%nat else (r + k - size)%nat.

(** A three-byte message as [jack_write_midi_event] reads it. *)
Definition message_bytes (m : Z * Z * Z) : list Z :=
  let '(b0, b1, b2) := m in [b0; b1; b2].

(** Indices inside the array, which has the declared size. *)
Definition rb_wf (rb : jack_ringbuffer) : Prop :=
  (length (rb_buf rb) = rb_size rb /\
   rb_write_ptr rb < rb_size rb /\
   rb_read_ptr rb < rb_size rb)%nat.

(** ** Program state *)

(** The argument list handed to [lo_send] after the path. *)
Inductive osc_args : Type :=
  | OscTrue                (* "T" *)
  | OscFalse               (* "F" *)
  | OscInt (v : Z).        (* "i", value *)

(** Lines written with [printf] and [fprintf(stderr, ...)]. *)
Inductive diagnostic : Type :=
  | MaxSwitchesExceeded
  | MaxZyncodersExceeded
  | RingOutputIncomplete
  | RingOutputFull
  | RingOutputReadError
  | TooManyOutputEvents
  | RingInputIncomplete
  | TooManyInputEvents
  | PollThreadCreated
  | PollThreadNotCreated
  | JackConnectError
  | JackOutputPortError
  | JackInputPortError
  | RingOutputLockError
  | RingInputLockError
  | JackActivateError.

(** The globals of zyncoder.c, the OSC messages sent so far and the
    console, the latest entry last. *)
Record state : Type := mk_state {
  zynswitches : list Zynswitch.st;
  zyncoders : list Zyncoder.st;
  zynmidi_buffer : list Z;
  zynmidi_buffer_read : nat;
  zynmidi_buffer_write : nat;
  osc_lo_addr : option Z;                     (* None is NULL *)
  jack_ring_output_buffer : jack_ringbuffer;
  jack_ring_input_buffer : jack_ringbuffer;
  jack_midi_data : list Z;                    (* unsigned char [3*256] *)
  jack_midi_output_port : list (list Z);      (* events reserved this period *)
  lo_sent : list (string * osc_args);
  console : list diagnostic
}.

Definition set_zynswitches (v : list Zynswitch.st) (s : state) : state :=
  mk_state v (zyncoders s) (zynmidi_buffer s) (zynmidi_buffer_read s)
    (zynmidi_buffer_write s) (osc_lo_addr s) (jack_ring_output_buffer s)
    (jack_ring_input_buffer s) (jack_midi_data s) (jack_midi_output_port s)
    (lo_sent s) (console s).
Definition set_zyncoders (v : list Zyncoder.st) (s : state) : state :=
  mk_state (zynswitches s) v (zynmidi_buffer s) (zynmidi_buffer_read s)
    (zynmidi_buffer_write s) (osc_lo_addr s) (jack_ring_output_buffer s)
    (jack_ring_input_buffer s) (jack_midi_data s) (jack_midi_output_port s)
    (lo_sent s) (console s).
Definition set_zynmidi (b : list Z) (r w : nat) (s : state) : state :=
  mk_state (zynswitches s) (zyncoders s) b r w (osc_lo_addr s)
    (jack_ring_output_buffer s) (jack_ring_input_buffer s) (jack_midi_data s)
    (jack_midi_output_port s) (lo_sent s) (console s).
Definition set_osc_lo_addr (v : option Z) (s : state) : state :=
  mk_state (zynswitches s) (zyncoders s) (zynmidi_buffer s) (zynmidi_buffer_read s)
    (zynmidi_buffer_write s) v (jack_ring_output_buffer s)
    (jack_ring_input_buffer s) (jack_midi_data s) (jack_midi_output_port s)
    (lo_sent s) (console s).
Definition set_ring_output (v : jack_ringbuffer) (s : state) : state :=
  mk_state (zynswitches s) (zyncoders s) (zynmidi_buffer s) (zynmidi_buffer_read s)
    (zynmidi_buffer_write s) (osc_lo_addr s) v
    (jack_ring_input_buffer s) (jack_midi_data s) (jack_midi_output_port s)
    (lo_sent s) (console s).
Definition set_ring_input (v : jack_ringbuffer) (s : state) : state :=
  mk_state (zynswitches s) (zyncoders s) (zynmidi_buffer s) (zynmidi_buffer_read s)
    (zynmidi_buffer_write s) (osc_lo_addr s) (jack_ring_output_buffer s)
    v (jack_midi_data s) (jack_midi_output_port s)
    (lo_sent s) (console s).
Definition set_midi_data (v : list Z) (s : state) : state :=
  mk_state (zynswitches s) (zyncoders s) (zynmidi_buffer s) (zynmidi_buffer_read s)
    (zynmidi_buffer_write s) (osc_lo_addr s) (jack_ring_output_buffer s)
    (jack_ring_input_buffer s) v (jack_midi_output_port s)
    (lo_sent s) (console s).
Definition set_output_port (v : list (list Z)) (s : state) : state :=
  mk_state (zynswitches s) (zyncoders s) (zynmidi_buffer s) (zynmidi_buffer_read s)
    (zynmidi_buffer_write s) (osc_lo_addr s) (jack_ring_output_buffer s)
    (jack_ring_input_buffer s) (jack_midi_data s) v
    (lo_sent s) (console s).
Definition set_lo_sent (v : list (string * osc_args)) (s : state) : state :=
  mk_state (zynswitches s) (zyncoders s) (zynmidi_buffer s) (zynmidi_buffer_read s)
    (zynmidi_buffer_write s) (osc_lo_addr s) (jack_ring_output_buffer s)
    (jack_ring_input_buffer s) (jack_midi_data s) (jack_midi_output_port s)
    v (console s).
Definition set_console (v : list diagnostic) (s : state) : state :=
  mk_state (zynswitches s) (zyncoders s) (zynmidi_buffer s) (zynmidi_buffer_read s)
    (zynmidi_buffer_write s) (osc_lo_addr s) (jack_ring_output_buffer s)
    (jack_ring_input_buffer s) (jack_midi_data s) (jack_midi_output_port s)
    (lo_sent s) v.

(** What the hardware shows at the time of a call: the level of every pin
    and the monotonic clock in microseconds
    ([ts.tv_sec*1000000 + ts.tv_nsec/1000]). *)
Record hardware : Type := mk_hardware {
  digitalRead : Z -> Z;
  clock_tsus : Z
}.

(** One event of the JACK input port: its size and the bytes at its
    [buffer] pointer. *)
Record jack_midi_event : Type := mk_event {
  ev_size : nat;
  ev_buffer : list Z
}.

(** What the operating system and the JACK library answer during
    [init_zyncoder]: whether [pthread_create] returns 0,
    [jack_client_open] and the two [jack_port_register] calls return a
    pointer, the two [jack_ringbuffer_mlock] calls return 0 and
    [jack_activate] returns 0. *)
Record init_environment : Type := mk_init_environment {
  pthread_create_ok : bool;
  jack_client_open_ok : bool;
  output_port_register_ok : bool;
  input_port_register_ok : bool;
  output_mlock_ok : bool;
  input_mlock_ok : bool;
  jack_activate_ok : bool
}.

(** The number of characters [sprintf] writes for ["%d"], the sign
    included and the closing zero not. An [int] has at most ten digits. *)
Fixpoint decimal_digits (fuel : nat) (n : Z) : nat :=
  match fuel with
  | O => 1%nat
  | S fuel' => if n <? 10 then 1%nat else S (decimal_digits fuel' (n / 10))
  end.
Definition sprintf_d_length (n : Z) : nat :=
  if n <? 0 then S (decimal_digits 9 (- n)) else decimal_digits 9 n.

(** ** A state monad with one failure: an access outside an object *)

Inductive outcome (A : Type) : Type :=
  | Done (a : A) (s : state)
  | OutOfBounds.
Arguments Done {A} a s.
Arguments OutOfBounds {A}.

Definition M (A : Type) : Type := state -> outcome A.

Definition ret {A} (a : A) : M A := fun s => Done a s.

Definition bind {A B} (c : M A) (k : A -> M B) : M B :=
  fun s => match c s with
           | Done a s' => k a s'
           | OutOfBounds => OutOfBounds
           end.

Notation "x <- c ;; k" := (bind c (fun x => k))
  (at level 20, c at level 99, k at level 200, only parsing).
Notation "'run' c ;; k" := (bind c (fun _ => k))
  (at level 20, c at level 99, k at level 200, only parsing).

Definition get_state : M state := fun s => Done s s.
Definition modify (f : state -> state) : M unit := fun s => Done tt (f s).
Definition fault {A} : M A := fun _ => OutOfBounds.

(** [printf] and [fprintf(stderr, ...)]. *)
Definition print (d : diagnostic) : M unit :=
  modify (fun s => set_console (console s ++ [d]) s).

(** [zynswitches + i], read and written. *)
Definition load_zynswitch (i : nat) : M Zynswitch.st :=
  fun s => match zynswitches s !! i with
           | Some x => Done x s
           | None => OutOfBounds
           end.
Definition store_zynswitch (i : nat) (x : Zynswitch.st) : M unit :=
  fun s => if (i <? length (zynswitches s))%nat
           then Done tt (set_zynswitches (<[i := x]> (zynswitches s)) s)
           else OutOfBounds.

(** [zyncoders + i], read and written. *)
Definition load_zyncoder (i : nat) : M Zyncoder.st :=
  fun s => match zyncoders s !! i with
           | Some x => Done x s
           | None => OutOfBounds
           end.
Definition store_zyncoder (i : nat) (x : Zyncoder.st) : M unit :=
  fun s => if (i <? length (zyncoders s))%nat
           then Done tt (set_zyncoders (<[i := x]> (zyncoders s)) s)
           else OutOfBounds.

(** [ev.buffer[k]]. *)
Definition ev_byte (ev : jack_midi_event) (k : nat) : M Z :=
  fun s => match ev_buffer ev !! k with
           | Some b => Done b s
           | None => OutOfBounds
           end.

(** ** The functions of zyncoder.c *)

Section Program.

(** The table bounds and the capacity of the returned-event ring are
    macros of zyncoder.h; the functions are modelled for any value of
    them. *)
Variable MAX_NUM_ZYNSWITCHES : nat.
Variable MAX_NUM_ZYNCODERS : nat.
Variable ZYNMIDI_BUFFER_SIZE : nat.

(** The number of [char]s of the array [osc_path] inside
    [struct zyncoder_st], which zyncoder.h declares as well. *)
Variable OSC_PATH_SIZE : nat.

(** *** Jack MIDI processing *)

(** [jack_write_midi_event]: the three bytes at [ctrl_event]. *)
Definition jack_write_midi_event (ctrl_event : list Z) : M Z :=
  s <- get_state ;;
  if (3 <=? jack_ringbuffer_write_space (jack_ring_output_buffer s))%nat then
    let '(n, rb) := jack_ringbuffer_write (jack_ring_output_buffer s) ctrl_event 3 in
    run modify (set_ring_output rb) ;;
    if negb (n =? 3)%nat then
      run print RingOutputIncomplete ;;
      ret (-1)
    else ret 0
  else
    run print RingOutputFull ;;
    ret (-1).

(** The parameters are [unsigned char]. *)
Definition zynmidi_set_control (chan ctrl val : Z) : M Z :=
  let chan := u8 chan in
  let ctrl := u8 ctrl in
  let val := u8 val in
  jack_write_midi_event [u8 (0xB0 + chan); ctrl; val].

Definition zynmidi_set_program (chan prgm : Z) : M Z :=
  let chan := u8 chan in
  let prgm := u8 prgm in
  jack_write_midi_event [u8 (0xC0 + chan); prgm; 0].

(** *** MIDI events to return *)

Definition write_zynmidi (ev : Z) : M Z :=
  s <- get_state ;;
  let nptr := S (zynmidi_buffer_write s) in
  let nptr := if (ZYNMIDI_BUFFER_SIZE <=? nptr)%nat then 0%nat else nptr in
  if (nptr =? zynmidi_buffer_read s)%nat then ret 0
  else if (zynmidi_buffer_write s <? length (zynmidi_buffer s))%nat then
    run modify (set_zynmidi (<[zynmidi_buffer_write s := u32 ev]> (zynmidi_buffer s))
                            (zynmidi_buffer_read s) nptr) ;;
    ret 1
  else fault.

Definition read_zynmidi : M Z :=
  s <- get_state ;;
  if (zynmidi_buffer_read s =? zynmidi_buffer_write s)%nat then ret 0
  else
    match zynmidi_buffer s !! zynmidi_buffer_read s with
    | None => fault
    | Some ev =>
        let r := S (zynmidi_buffer_read s) in
        let r := if (ZYNMIDI_BUFFER_SIZE <=? r)%nat then 0%nat else r in
        run modify (set_zynmidi (zynmidi_buffer s) r (zynmidi_buffer_write s)) ;;
        ret ev
    end.

(** *** GPIO switches *)

(** The part of the switch update that [update_zynswitch] and the loop
    body of [update_expanded_zynswitches] both spell out, from the
    comparison of the sampled level on. The result is the struct as the
    code leaves it and whether the code left through
    [if (dtus<1000) return;]. *)
Definition switch_edge (tsus status : Z) (zynswitch : Zynswitch.st)
  : Zynswitch.st * bool :=
  let zynswitch := Zynswitch.set_status status zynswitch in
  if Zynswitch.status zynswitch =? 1 then
    let dtus := s32 (tsus - Zynswitch.tsus zynswitch) in
    if dtus <? 1000 then (zynswitch, true)
    else if 0 <? Zynswitch.tsus zynswitch
         then (Zynswitch.set_dtus (u32 dtus) zynswitch, false)
         else (zynswitch, false)
  else (Zynswitch.set_tsus tsus zynswitch, false).

(** Update ISR switches (native GPIO). *)
Definition update_zynswitch (hw : hardware) (i : nat) : M unit :=
  if (MAX_NUM_ZYNSWITCHES <=? i)%nat then ret tt else
  zynswitch <- load_zynswitch i ;;
  if Zynswitch.enabled zynswitch =? 0 then ret tt else
  let status := u32 (digitalRead hw (Zynswitch.pin zynswitch)) in
  if status =? Zynswitch.status zynswitch then ret tt else
  store_zynswitch i (fst (switch_edge (clock_tsus hw) status zynswitch)).

(** The [for] loop of [update_expanded_zynswitches] over the indices
    still to visit. *)
Fixpoint update_expanded_zynswitches_loop (hw : hardware) (tsus : Z)
    (indices : list nat) : M unit :=
  match indices with
  | [] => ret tt
  | i :: rest =>
      zynswitch <- load_zynswitch i ;;
      if (Zynswitch.enabled zynswitch =? 0) || (Zynswitch.pin zynswitch <? 100)
      then update_expanded_zynswitches_loop hw tsus rest          (* continue *)
      else
        let status := u32 (digitalRead hw (Zynswitch.pin zynswitch)) in
        if status =? Zynswitch.status zynswitch
        then update_expanded_zynswitches_loop hw tsus rest        (* continue *)
        else
          let '(zynswitch, returned) := switch_edge tsus status zynswitch in
          run store_zynswitch i zynswitch ;;
          if returned then ret tt                                 (* return *)
          else update_expanded_zynswitches_loop hw tsus rest
  end.

(** Update NON-ISR switches (expanded GPIO). *)
Definition update_expanded_zynswitches (hw : hardware) : M unit :=
  update_expanded_zynswitches_loop hw (clock_tsus hw) (seq 0 MAX_NUM_ZYNSWITCHES).

(** [update_zynswitch_funcs[i]] and [update_zyncoder_funcs[i]]: each
    table has the eight entries its initialiser lists. *)
Definition isr_func (i : nat) : M unit :=
  if (i <? 8)%nat then ret tt else fault.

(** The result is the pointer [zynswitches + i], or [None] for NULL.
    [pinMode], [pullUpDnControl] and [wiringPiISR] configure the hardware
    and leave the globals alone; the handler given to [wiringPiISR] is
    read from [update_zynswitch_funcs]. *)
Definition setup_zynswitch (hw : hardware) (i : nat) (pin : Z) : M (option nat) :=
  if (MAX_NUM_ZYNSWITCHES <=? i)%nat then
    run print MaxSwitchesExceeded ;;
    ret None
  else
    run store_zynswitch i (Zynswitch.mk 1 pin 0 0 0) ;;
    run (if (0 <? pin) && (pin <? 100) then
           run isr_func i ;;
           update_zynswitch hw i
         else ret tt) ;;
    ret (Some i).

Definition get_zynswitch_dtus (i : nat) : M Z :=
  if (MAX_NUM_ZYNSWITCHES <=? i)%nat then ret 0 else
  zynswitch <- load_zynswitch i ;;
  run store_zynswitch i (Zynswitch.set_dtus 0 zynswitch) ;;
  ret (Zynswitch.dtus zynswitch).

Definition get_zynswitch (i : nat) : M Z := get_zynswitch_dtus i.

(** *** Generic rotary encoders *)

Definition lo_send (path : string) (args : osc_args) : M unit :=
  modify (fun s => set_lo_sent (lo_sent s ++ [(path, args)]) s).

Definition send_zyncoder (i : nat) : M unit :=
  if (MAX_NUM_ZYNCODERS <=? i)%nat then ret tt else
  zyncoder <- load_zyncoder i ;;
  if Zyncoder.enabled zyncoder =? 0 then ret tt else
  if 0 <? Zyncoder.midi_ctrl zyncoder then
    run zynmidi_set_control (Zyncoder.midi_chan zyncoder)
                            (Zyncoder.midi_ctrl zyncoder)
                            (Zyncoder.value zyncoder) ;;
    ret tt
  else
    s <- get_state ;;
    match osc_lo_addr s, Zyncoder.osc_path zyncoder with
    | Some _, String _ _ =>
        if 8 <=? Zyncoder.step zyncoder then
          if 64 <=? Zyncoder.value zyncoder
          then lo_send (Zyncoder.osc_path zyncoder) OscTrue
          else lo_send (Zyncoder.osc_path zyncoder) OscFalse
        else lo_send (Zyncoder.osc_path zyncoder)
                     (OscInt (s32 (Zyncoder.value zyncoder)))
    | _, _ => ret tt
    end.

(** [dtus_avg]: the new interval and the four recorded ones, summed in
    [unsigned int] and divided by [ZYNCODER_TICKS_PER_RETENT+1]. *)
Definition dtus_average (dtus : Z) (recorded : list Z) : Z :=
  foldl (fun acc d => u32 (acc + d)) dtus
        [nth 0 recorded 0; nth 1 recorded 0; nth 2 recorded 0; nth 3 recorded 0]
  / (ZYNCODER_TICKS_PER_RETENT + 1).

(** [dsval]: the step in sub-ticks chosen from the average interval. *)
Definition step_value (dtus_avg : Z) : Z :=
  if dtus_avg <? 10000 then ZYNCODER_TICKS_PER_RETENT
  else if dtus_avg <? 30000 then ZYNCODER_TICKS_PER_RETENT / 2
  else 1.

(** [up] and [down] from [sum = (last_encoded << 2) | encoded]. *)
Definition quadrature_up (sum : Z) : bool :=
  (sum =? 13 (* 0b1101 *)) || (sum =? 4 (* 0b0100 *))
  || (sum =? 2 (* 0b0010 *)) || (sum =? 11 (* 0b1011 *)).
Definition quadrature_down (sum : Z) : bool :=
  if quadrature_up sum then false
  else (sum =? 14 (* 0b1110 *)) || (sum =? 7 (* 0b0111 *))
       || (sum =? 1 (* 0b0001 *)) || (sum =? 8 (* 0b1000 *)).

(** Continuous mode once the interval [dtus] has passed the 1000 us test:
    the average, the [dtus] fifo, the step, the new [subvalue] and the
    timestamp. The result is the struct and the local [int value], -1 when
    the transition is neither up nor down. *)
Definition zyncoder_tick (tsus dtus : Z) (up down : bool) (zyncoder : Zyncoder.st)
  : Zyncoder.st * Z :=
  let dtus_avg := dtus_average dtus (Zyncoder.dtus zyncoder) in
  let recorded := Zyncoder.dtus zyncoder in
  let zyncoder :=
    Zyncoder.set_dtus [nth 1 recorded 0; nth 2 recorded 0; nth 3 recorded 0; dtus]
                      zyncoder in
  let dsval := step_value dtus_avg in
  let '(zyncoder, value) :=
    if up then
      let zyncoder :=
        if dsval <=? u32 (Zyncoder.max_value zyncoder - Zyncoder.subvalue zyncoder)
        then Zyncoder.set_subvalue (u32 (Zyncoder.subvalue zyncoder + dsval)) zyncoder
        else Zyncoder.set_subvalue (Zyncoder.max_value zyncoder) zyncoder in
      (zyncoder, s32 (Zyncoder.subvalue zyncoder / ZYNCODER_TICKS_PER_RETENT))
    else if down then
      let zyncoder :=
        if dsval <=? Zyncoder.subvalue zyncoder
        then Zyncoder.set_subvalue (u32 (Zyncoder.subvalue zyncoder - dsval)) zyncoder
        else Zyncoder.set_subvalue 0 zyncoder in
      (zyncoder,
       s32 (u32 (Zyncoder.subvalue zyncoder + ZYNCODER_TICKS_PER_RETENT - 1)
            / ZYNCODER_TICKS_PER_RETENT))
    else (zyncoder, -1) in
  (Zyncoder.set_tsus tsus zyncoder, value).

(** Stepped mode: [value] clamped to [max_value], then moved by [step] if
    there is room. *)
Definition zyncoder_step (up down : bool) (zyncoder : Zyncoder.st) : Zyncoder.st :=
  let zyncoder :=
    if Zyncoder.max_value zyncoder <? Zyncoder.value zyncoder
    then Zyncoder.set_value (Zyncoder.max_value zyncoder) zyncoder
    else zyncoder in
  if (Zyncoder.step zyncoder
        <=? u32 (Zyncoder.max_value zyncoder - Zyncoder.value zyncoder)) && up
  then Zyncoder.set_value (u32 (Zyncoder.value zyncoder + Zyncoder.step zyncoder))
                          zyncoder
  else if (Zyncoder.step zyncoder <=? Zyncoder.value zyncoder) && down
  then Zyncoder.set_value (u32 (Zyncoder.value zyncoder - Zyncoder.step zyncoder))
                          zyncoder
  else zyncoder.

Definition update_zyncoder (hw : hardware) (i : nat) : M unit :=
  if (MAX_NUM_ZYNCODERS <=? i)%nat then ret tt else
  zyncoder <- load_zyncoder i ;;
  if Zyncoder.enabled zyncoder =? 0 then ret tt else
  let MSB := u32 (digitalRead hw (Zyncoder.pin_a zyncoder)) in
  let LSB := u32 (digitalRead hw (Zyncoder.pin_b zyncoder)) in
  let encoded := Z.lor (u32 (Z.shiftl MSB 1)) LSB in
  let sum := Z.lor (u32 (Z.shiftl (Zyncoder.last_encoded zyncoder) 2)) encoded in
  let up := quadrature_up sum in
  let down := quadrature_down sum in
  let zyncoder := Zyncoder.set_last_encoded encoded zyncoder in
  if Zyncoder.step zyncoder =? 0 then
    let tsus := clock_tsus hw in
    let dtus := u32 (tsus - Zyncoder.tsus zyncoder) in
    if dtus <? 1000 then store_zyncoder i zyncoder else
    let '(zyncoder, value) := zyncoder_tick tsus dtus up down zyncoder in
    if (0 <=? value) && negb (Zyncoder.value zyncoder =? u32 value) then
      run store_zyncoder i (Zyncoder.set_value (u32 value) zyncoder) ;;
      send_zyncoder i
    else store_zyncoder i zyncoder
  else
    let last_value := Zyncoder.value zyncoder in
    let zyncoder := zyncoder_step up down zyncoder in
    run store_zyncoder i zyncoder ;;
    if negb (last_value =? Zyncoder.value zyncoder) then send_zyncoder i else ret tt.

(** The result is the pointer [zyncoders + i], or [None] for NULL.
    [osc_path] is [None] for a NULL argument; a string is copied with
    [strcpy] into the array of the struct. [pinMode], [pullUpDnControl]
    and [wiringPiISR] configure the hardware and leave the globals alone;
    the handler given to [wiringPiISR] is read from
    [update_zyncoder_funcs]. *)
Definition setup_zyncoder (i : nat) (pin_a pin_b midi_chan midi_ctrl : Z)
    (osc_path : option string) (value max_value step : Z) : M (option nat) :=
  if (MAX_NUM_ZYNCODERS <? i)%nat then
    run print MaxZyncodersExceeded ;;
    ret None
  else
    zyncoder <- load_zyncoder i ;;
    let midi_chan := if 15 <? midi_chan then 0 else midi_chan in
    let midi_ctrl := if 127 <? midi_ctrl then 1 else midi_ctrl in
    let value := if max_value <? value then max_value else value in
    let zyncoder := Zyncoder.set_midi midi_chan midi_ctrl zyncoder in
    zyncoder <-
      match osc_path with
      | Some p =>
          (* strcpy writes the characters and the closing zero *)
          if (String.length p + 1 <=? OSC_PATH_SIZE)%nat
          then ret (Zyncoder.set_osc_path p zyncoder)
          else fault
      | None => ret (Zyncoder.set_osc_path EmptyString zyncoder)
      end ;;
    let zyncoder := Zyncoder.set_step step zyncoder in
    let zyncoder :=
      if 0 <? step then
        Zyncoder.set_max_value max_value
          (Zyncoder.set_subvalue 0 (Zyncoder.set_value value zyncoder))
      else
        Zyncoder.set_max_value (u32 (ZYNCODER_TICKS_PER_RETENT * max_value))
          (Zyncoder.set_subvalue (u32 (ZYNCODER_TICKS_PER_RETENT * value))
             (Zyncoder.set_value value zyncoder)) in
    if (Zyncoder.enabled zyncoder =? 0)
       || negb (Zyncoder.pin_a zyncoder =? pin_a)
       || negb (Zyncoder.pin_b zyncoder =? pin_b)
    then
      let zyncoder :=
        Zyncoder.set_tsus 0
          (Zyncoder.set_last_encoded 0
             (Zyncoder.set_pins pin_a pin_b (Zyncoder.set_enabled 1 zyncoder))) in
      run store_zyncoder i zyncoder ;;
      run (if negb (Zyncoder.pin_a zyncoder =? Zyncoder.pin_b zyncoder)
           then isr_func i          (* update_zyncoder_funcs[i] *)
           else ret tt) ;;
      ret (Some i)
    else
      run store_zyncoder i zyncoder ;;
      ret (Some i).

Definition get_value_zyncoder (i : nat) : M Z :=
  if (MAX_NUM_ZYNCODERS <=? i)%nat then ret 0 else
  zyncoder <- load_zyncoder i ;;
  ret (Zyncoder.value zyncoder).

Definition set_value_zyncoder (i : nat) (v : Z) : M unit :=
  if (MAX_NUM_ZYNCODERS <=? i)%nat then ret tt else
  zyncoder <- load_zyncoder i ;;
  if Zyncoder.enabled zyncoder =? 0 then ret tt else
  let zyncoder :=
    if Zyncoder.step zyncoder =? 0 then
      let v := u32 (v * ZYNCODER_TICKS_PER_RETENT) in
      let zyncoder :=
        if Zyncoder.max_value zyncoder <? v
        then Zyncoder.set_subvalue (Zyncoder.max_value zyncoder) zyncoder
        else Zyncoder.set_subvalue v zyncoder in
      Zyncoder.set_value (Zyncoder.subvalue zyncoder / ZYNCODER_TICKS_PER_RETENT)
                         zyncoder
    else
      if Zyncoder.max_value zyncoder <? v
      then Zyncoder.set_value (Zyncoder.max_value zyncoder) zyncoder
      else Zyncoder.set_value v zyncoder in
  run store_zyncoder i zyncoder ;;
  send_zyncoder i.

(** *** The realtime callback *)

(** The [while (pos < nb)] loop of the MIDI output block: one iteration
    per queued three-byte record, [records] of them left. The result is
    the value [jack_process] returns from inside the loop, if it does.
    [jack_midi_event_reserve] returns NULL when the time [i] is not below
    [nframes] or when the port buffer, which takes [room] events a period,
    is full; the code hands the result to [memcpy] unchecked, so a refused
    reservation is a write through NULL. *)
Fixpoint jack_process_output_loop (nframes : Z) (room : nat) (records pos i : nat)
  : M (option Z) :=
  match records with
  | O => ret None
  | S records' =>
      s <- get_state ;;
      match jack_midi_data s !! pos with
      | None => fault
      | Some b =>
          let event_type := Z.shiftr b 4 in
          let event_size :=
            if (event_type =? 0xC) || (event_type =? 0xD) then 2%nat else 3%nat in
          let reserved :=
            (Z.of_nat i <? nframes)
            && (length (jack_midi_output_port s) <? room)%nat in
          if negb reserved then fault else
          if (pos + event_size <=? length (jack_midi_data s))%nat then
            run modify (set_output_port
                          (jack_midi_output_port s
                             ++ [take event_size (drop pos (jack_midi_data s))])) ;;
            if nframes <? Z.of_nat i then
              run print TooManyOutputEvents ;;
              ret (Some (-1))
            else jack_process_output_loop nframes room records' (pos + 3) (S i)
          else fault
      end
  end.

(** The MIDI output block of [jack_process]: the queued bytes are copied
    into [jack_midi_data] and handed to the output port record by record. *)
Definition jack_process_midi_output (nframes : Z) (room : nat) : M (option Z) :=
  run modify (set_output_port []) ;;
  s <- get_state ;;
  let nb := jack_ringbuffer_read_space (jack_ring_output_buffer s) in
  let '(bytes, rb) := jack_ringbuffer_read (jack_ring_output_buffer s) nb in
  if (length (jack_midi_data s) <? length bytes)%nat then fault else
  run modify (set_midi_data (bytes ++ drop (length bytes) (jack_midi_data s))) ;;
  run modify (set_ring_output rb) ;;
  if negb (length bytes =? nb)%nat then
    run print RingOutputReadError ;;
    ret (Some (-1))
  else jack_process_output_loop nframes room ((nb + 2) / 3) 0 0.

(** The [for] loop over the encoders for an inbound Control Change. *)
Fixpoint jack_process_cc_loop (ev : jack_midi_event) (indices : list nat) : M unit :=
  match indices with
  | [] => ret tt
  | j :: rest =>
      zyncoder <- load_zyncoder j ;;
      matches <-
        (if Zyncoder.enabled zyncoder =? 0 then ret false else
         b0 <- ev_byte ev 0 ;;
         if negb (Zyncoder.midi_chan zyncoder =? Z.land b0 0xF) then ret false else
         b1 <- ev_byte ev 1 ;;
         ret (Zyncoder.midi_ctrl zyncoder =? b1)) ;;
      run (if matches : bool then
             b2 <- ev_byte ev 2 ;;
             store_zyncoder j
               (Zyncoder.set_subvalue (u32 (b2 * ZYNCODER_TICKS_PER_RETENT))
                  (Zyncoder.set_value b2 zyncoder))
           else ret tt) ;;
      jack_process_cc_loop ev rest
  end.

(** The body of the input loop for one event; the result is the value
    [jack_process] returns from inside the body, if it does. *)
Definition jack_process_input_event (ev : jack_midi_event) : M (option Z) :=
  b0 <- ev_byte ev 0 ;;
  let event_type := Z.shiftr b0 4 in
  if (event_type =? 0xB) || (event_type =? 0xC) then
    run (if event_type =? 0xB
         then jack_process_cc_loop ev (seq 0 MAX_NUM_ZYNCODERS)
         else ret tt) ;;
    run (if event_type =? 0xC then
           b1 <- ev_byte ev 1 ;;
           b2 <- ev_byte ev 2 ;;
           run write_zynmidi (Z.lor (Z.lor b0 (Z.shiftl b1 8)) (Z.shiftl b2 16)) ;;
           ret tt
         else ret tt) ;;
    s <- get_state ;;
    if (ev_size ev <=? jack_ringbuffer_write_space (jack_ring_input_buffer s))%nat then
      let '(n, rb) :=
        jack_ringbuffer_write (jack_ring_input_buffer s) (ev_buffer ev) (ev_size ev) in
      run modify (set_ring_input rb) ;;
      if negb (n =? ev_size ev)%nat then
        run print RingInputIncomplete ;;
        ret (Some (-1))
      else ret None
    else ret None
  else ret None.

(** The [while (jack_midi_event_get(&ev, input_port_buffer, i)==0)] loop
    over the events the input port holds this period. *)
Fixpoint jack_process_input_loop (nframes : Z) (events : list jack_midi_event)
    (i : nat) : M Z :=
  match events with
  | [] => ret 0
  | ev :: rest =>
      r <- jack_process_input_event ev ;;
      match r with
      | Some code => ret code
      | None =>
          if nframes <? Z.of_nat i then
            run print TooManyInputEvents ;;
            ret (-1)
          else jack_process_input_loop nframes rest (S i)
      end
  end.

(** The MIDI input block of [jack_process]. *)
Definition jack_process_midi_input (nframes : Z) (events : list jack_midi_event)
  : M Z :=
  jack_process_input_loop nframes events 0.

(** [jack_process]; [room] is the number of events the output port buffer
    takes this period and [events] is what the input port holds. Both
    port buffers exist: [init_zyncoder_midi] installs the callback only
    once both ports are registered. *)
Definition jack_process (nframes : Z) (room : nat) (events : list jack_midi_event)
  : M Z :=
  r <- jack_process_midi_output nframes room ;;
  match r with
  | Some code => ret code
  | None => jack_process_midi_input nframes events
  end.

(** *** Library initialisation *)

(** The globals as the C runtime zero-initialises them; the two rings do
    not exist yet. *)
Definition zero_globals : state :=
  mk_state (replicate MAX_NUM_ZYNSWITCHES Zynswitch.zero)
           (replicate MAX_NUM_ZYNCODERS Zyncoder.zero)
           (replicate ZYNMIDI_BUFFER_SIZE 0) 0 0 None
           (mk_ringbuffer [] 0 0 0) (mk_ringbuffer [] 0 0 0)
           (replicate (3 * 256) 0) [] [] [].

(** [sprintf(osc_port_str, "%d", osc_port)] writes into [char [8]]. *)
Definition init_zyncoder_osc (osc_port : Z) : M Z :=
  if negb (osc_port =? 0) then
    if (sprintf_d_length osc_port + 1 <=? 8)%nat then
      run modify (set_osc_lo_addr (Some osc_port)) ;;
      ret 0
    else fault
  else ret (-1).

(** Each call that fails writes its line to [stderr] and ends the
    function with its code; the rings are created once both ports are
    registered, and [jack_set_process_callback] installs [jack_process]
    before [jack_activate]. *)
Definition init_zyncoder_midi (env : init_environment) : M Z :=
  if negb (jack_client_open_ok env) then
    run print JackConnectError ;;
    ret (-1)
  else if negb (output_port_register_ok env) then
    run print JackOutputPortError ;;
    ret (-2)
  else if negb (input_port_register_ok env) then
    run print JackInputPortError ;;
    ret (-2)
  else
    run modify (set_ring_output (jack_ringbuffer_create (3 * 256))) ;;
    run modify (set_ring_input (jack_ringbuffer_create (3 * 256))) ;;
    if negb (output_mlock_ok env) then
      run print RingOutputLockError ;;
      ret (-3)
    else if negb (input_mlock_ok env) then
      run print RingInputLockError ;;
      ret (-3)
    else if negb (jack_activate_ok env) then
      run print JackActivateError ;;
      ret (-4)
    else ret 0.

(** [init_poll_zynswitches]: the thread itself runs
    [update_expanded_zynswitches] every [poll_zynswitches_us]. *)
Definition init_poll_zynswitches (env : init_environment) : M unit :=
  if pthread_create_ok env then print PollThreadCreated
  else print PollThreadNotCreated.

(** The three loops clear every entry of a table. [wiringPiSetup] and
    [mcp23008Setup] leave the globals alone. *)
Definition init_zyncoder (env : init_environment) (osc_port : Z) : M Z :=
  run modify (fun s =>
        set_zynswitches (map (fun x => Zynswitch.mk 0 (Zynswitch.pin x)
                                         (Zynswitch.tsus x) (Zynswitch.dtus x)
                                         (Zynswitch.status x))
                             (zynswitches s)) s) ;;
  run modify (fun s =>
        set_zyncoders (map (fun e => Zyncoder.set_dtus [0; 0; 0; 0]
                                       (Zyncoder.set_enabled 0 e))
                           (zyncoders s)) s) ;;
  run modify (fun s =>
        set_zynmidi (replicate (length (zynmidi_buffer s)) 0) 0 0 s) ;;
  run init_poll_zynswitches env ;;
  run init_zyncoder_osc osc_port ;;
  init_zyncoder_midi env.

End Program.

(** ** Vocabulary of the properties *)

(** The sub-tick counter within its bound, both within [unsigned int]. In
    continuous mode the [max_value] field holds the bound in sub-ticks. *)
Definition zyncoder_bounded (e : Zyncoder.st) : Prop :=
  0 <= Zyncoder.subvalue e /\ Zyncoder.subvalue e <= Zyncoder.max_value e
  /\ Zyncoder.max_value e < 2 ^ 32.


(** What [send_zyncoder] hands to [lo_send] for an encoder. *)
Definition osc_payload (e : Zyncoder.st) : osc_args :=
  if 8 <=? Zyncoder.step e then
    if 64 <=? Zyncoder.value e then OscTrue else OscFalse
  else OscInt (s32 (Zyncoder.value e)).

(** A switch the polling loop passes over: disabled, not on the expander,
    or showing the level it already has. *)
Definition switch_skipped (hw : hardware) (x : Zynswitch.st) : bool :=
  (Zynswitch.enabled x =? 0) || (Zynswitch.pin x <? 100)
  || (u32 (digitalRead hw (Zynswitch.pin x)) =? Zynswitch.status x).

(** What one turn of the polling loop does at a switch: the struct it
    leaves and whether the pass ends there, through
    [if (dtus<1000) return;]. *)
Definition poll_switch (hw : hardware) (x : Zynswitch.st) : Zynswitch.st * bool :=
  if switch_skipped hw x then (x, false)
  else switch_edge (clock_tsus hw) (u32 (digitalRead hw (Zynswitch.pin x))) x.

(** The table once the pass has gone through the switches before [i]
    without ending. *)
Definition polled_before (hw : hardware) (i : nat) (l : list Zynswitch.st)
  : list Zynswitch.st :=
  imap (fun j y => if (j <? i)%nat then fst (poll_switch hw y) else y) l.





(** [update_zyncoder] called once for each hardware snapshot. *)
Fixpoint update_zyncoder_run (MAX_NUM_ZYNCODERS : nat) (i : nat)
    (hws : list hardware) : M unit :=
  match hws with
  | [] => ret tt
  | hw :: rest =>
      run update_zyncoder MAX_NUM_ZYNCODERS hw i ;;
      update_zyncoder_run MAX_NUM_ZYNCODERS i rest
  end.

(** [jack_write_midi_event] called for each message in turn; the result
    lists the return values. *)
Fixpoint jack_write_midi_events (msgs : list (list Z)) : M (list Z) :=
  match msgs with
  | [] => ret []
  | m :: rest =>
      r <- jack_write_midi_event m ;;
      rs <- jack_write_midi_events rest ;;
      ret (r :: rs)
  end.


(** ** Scenarios *)

(** Pins at the listed levels, every other pin low, and the clock at [t]. *)
Definition pins_at (levels : list (Z * Z)) (t : Z) : hardware :=
  mk_hardware
    (fun p => match find (fun '(q, _) => q =? p) levels with
              | Some (_, v) => v
              | None => 0
              end)
    t.

(** The state of an outcome, or the zero globals of an empty program when
    there is none. *)
Definition state_of {A} (o : outcome A) : state :=
  match o with
  | Done _ s => s
  | OutOfBounds => zero_globals 0 0 0
  end.

(** The thread is created and JACK answers every call. *)
Definition running : init_environment :=
  mk_init_environment true true true true true true true.

(** Eight switches, four encoders and 32 returned events, initialised
    without OSC on such a system. The [osc_path] array of the scenarios
    has 512 bytes and their output port takes 256 events a period. *)
Definition booted : state :=
  state_of (init_zyncoder running 0 (zero_globals 8 4 32)).

(** Encoder 0 on pins 25 and 27, continuous mode, controller 7 on channel
    0, values 0 to 127. *)
Definition one_encoder : state :=
  state_of (setup_zyncoder 4 512 0 25 27 0 7 None 0 127 0 booted).

(** Encoder 0 in continuous mode with values 0 to 10 only. *)
Definition narrow_encoder : state :=
  state_of (setup_zyncoder 4 512 0 25 27 0 7 None 0 10 0 booted).

(** Encoder 0 in continuous mode at value 200 of 255. *)
Definition wide_encoder : state :=
  state_of (setup_zyncoder 4 512 0 25 27 0 7 None 200 255 0 booted).

(** Encoder 0 set up with an OSC path and no MIDI controller, with OSC
    initialised on port 1370. *)
Definition osc_encoder : state :=
  state_of (setup_zyncoder 4 512 0 25 27 0 0 (Some "/volume"%string) 70 127 0
              (state_of (init_zyncoder running 1370 (zero_globals 8 4 32)))).

(** Switches 0 and 1 on the expander pins 100 and 101 and switch 2 on the
    native pin 23, set up with all pins low; then the pins of switches 0
    and 2 go high at 3000 us and low again at 5000 us, which leaves both
    with status 0 and the timestamp 5000 us. *)
Definition three_switches : state :=
  state_of
    ((run setup_zynswitch 8 (pins_at [] 0) 0 100 ;;
      run setup_zynswitch 8 (pins_at [] 0) 1 101 ;;
      run setup_zynswitch 8 (pins_at [] 0) 2 23 ;;
      run update_expanded_zynswitches 8 (pins_at [(100, 1); (23, 1)] 3000) ;;
      run update_zynswitch 8 (pins_at [(100, 1); (23, 1)] 3000) 2 ;;
      run update_expanded_zynswitches 8 (pins_at [] 5000) ;;
      update_zynswitch 8 (pins_at [] 5000) 2)
       booted).

(** All three pins high, 500 us after that timestamp. *)
Definition pressed_early : hardware :=
  pins_at [(100, 1); (101, 1); (23, 1)] 5500.

(** All three pins high, 2000 us after that timestamp. *)
Definition pressed_late : hardware :=
  pins_at [(100, 1); (101, 1); (23, 1)] 7000.

(** Switches 0 and 1 on the expander pins 100 and 101, both pressed at
    3000 us; switch 0 is released at 4000 us and switch 1 at 9000 us. *)
Definition two_released : state :=
  state_of
    ((run setup_zynswitch 8 (pins_at [] 0) 0 100 ;;
      run setup_zynswitch 8 (pins_at [] 0) 1 101 ;;
      run update_expanded_zynswitches 8 (pins_at [(100, 1); (101, 1)] 3000) ;;
      run update_expanded_zynswitches 8 (pins_at [(101, 1)] 4000) ;;
      update_expanded_zynswitches 8 (pins_at [] 9000))
       booted).

(** Both pins high again at 9500 us, 5500 us after the release of switch 0
    and 500 us after that of switch 1. *)
Definition both_pressed : hardware :=
  pins_at [(100, 1); (101, 1)] 9500.

(** Three "up" transitions of encoder 0, 40 ms apart. *)
Definition three_up_ticks : list hardware :=
  [ pins_at [(25, 1); (27, 0)] (2 ^ 32 + 40000);
    pins_at [(25, 1); (27, 1)] (2 ^ 32 + 80000);
    pins_at [(25, 0); (27, 1)] (2 ^ 32 + 120000) ].

(** Encoder 0 of [one_encoder] after those three ticks and a fourth, by
    which four intervals of 40 ms are on record, set back to value 0. *)
Definition settled_encoder : state :=
  state_of
    ((run update_zyncoder_run 4 0
            (three_up_ticks ++ [pins_at [(25, 0); (27, 0)] (2 ^ 32 + 160000)]) ;;
      set_value_zyncoder 4 0 0)
       one_encoder).


(** ** More of zyncoder.c *)

(** RPN message implementation. The parameters are [unsigned char],
    [unsigned int] and [unsigned int]. In [rpn&0x3FFF != 0x3FFF] the
    comparison binds tighter than [&], so the test is
    [rpn & (0x3FFF != 0x3FFF)]. *)
Definition zynmidi_set_rpn (chan rpn data : Z) : M Z :=
  let chan := u8 chan in
  result <- zynmidi_set_control chan 0x65 (Z.land (Z.shiftr rpn 7) 0x7F) ;;
  if negb (result =? 0) then ret result else
  result <- zynmidi_set_control chan 0x64 (Z.land rpn 0x7F) ;;
  if negb (result =? 0) then ret result else
  if negb (Z.land rpn (if negb (0x3FFF =? 0x3FFF) then 1 else 0) =? 0) then
    result <- zynmidi_set_control chan 0x06 (Z.land (Z.shiftr data 7) 0x7F) ;;
    if negb (result =? 0) then ret result else
    zynmidi_set_control chan 0x26 (Z.land data 0x7F)
  else ret result.

(** ** Vocabulary of the further properties *)

(** The returned-event ring: indices inside the array, which has
    [SIZE] entries. *)
Definition zynmidi_wf (SIZE : nat) (s : state) : Prop :=
  (length (zynmidi_buffer s) = SIZE
   /\ zynmidi_buffer_read s < SIZE
   /\ zynmidi_buffer_write s < SIZE)%nat.

(** The number of events between the read and the write index. *)
Definition zynmidi_count (SIZE : nat) (s : state) : nat :=
  if (zynmidi_buffer_read s <=? zynmidi_buffer_write s)%nat
  then (zynmidi_buffer_write s - zynmidi_buffer_read s)%nat
  else (zynmidi_buffer_write s + SIZE - zynmidi_buffer_read s)%nat.

(** The events waiting in the returned-event ring, oldest first. *)
Definition zynmidi_queue (SIZE : nat) (s : state) : list Z :=
  map (fun k => nth (rb_index SIZE (zynmidi_buffer_read s) k) (zynmidi_buffer s) 0)
      (seq 0 (zynmidi_count SIZE s)).

(** The event [jack_process] hands to the output port for a queued
    record: two bytes for the types 0xC and 0xD, three otherwise. *)
Definition output_event (m : Z * Z * Z) : list Z :=
  let '(b0, b1, b2) := m in
  if (Z.shiftr b0 4 =? 0xC) || (Z.shiftr b0 4 =? 0xD) then [b0; b1] else [b0; b1; b2].

(** [write_zynmidi] called for each event in turn; the result lists the
    return values. *)
Fixpoint write_zynmidi_each (SIZE : nat) (evs : list Z) : M (list Z) :=
  match evs with
  | [] => ret []
  | ev :: rest =>
      r <- write_zynmidi SIZE ev ;;
      rs <- write_zynmidi_each SIZE rest ;;
      ret (r :: rs)
  end.

(** What an inbound Control Change [b0, b1, b2] does to one encoder. *)
Definition cc_echo (b0 b1 b2 : Z) (e : Zyncoder.st) : Zyncoder.st :=
  if negb (Zyncoder.enabled e =? 0)
     && (Zyncoder.midi_chan e =? Z.land b0 0xF)
     && (Zyncoder.midi_ctrl e =? b1)
  then Zyncoder.set_subvalue (u32 (b2 * ZYNCODER_TICKS_PER_RETENT))
         (Zyncoder.set_value b2 e)
  else e.

(** The [strcpy] of [setup_zyncoder] stays inside the [osc_path] array:
    the characters and the closing zero fit. *)
Definition path_fits (OSC : nat) (path : option string) : Prop :=
  match path with
  | Some p => (String.length p + 1 <= OSC)%nat
  | None => True
  end.

(** Whether [setup_zyncoder] arms the encoder anew: it was disabled, or
    one of its pins differs from the one given. *)
Definition rearmed (e : Zyncoder.st) (pin_a pin_b : Z) : bool :=
  (Zyncoder.enabled e =? 0)
  || negb (Zyncoder.pin_a e =? pin_a)
  || negb (Zyncoder.pin_b e =? pin_b).

(** JACK answers every call of [init_zyncoder_midi]. *)
Definition jack_started (env : init_environment) : bool :=
  jack_client_open_ok env && output_port_register_ok env
  && input_port_register_ok env && output_mlock_ok env && input_mlock_ok env
  && jack_activate_ok env.

(** One call on the encoder table from outside the realtime callback. *)
Inductive encoder_call : Type :=
  | CallUpdate (hw : hardware) (i : nat)
  | CallSetValue (i : nat) (v : Z)
  | CallSend (i : nat).

(** The calls made in turn. *)
Fixpoint encoder_calls (MAXC : nat) (calls : list encoder_call) : M unit :=
  match calls with
  | [] => ret tt
  | CallUpdate hw i :: rest =>
      run update_zyncoder MAXC hw i ;; encoder_calls MAXC rest
  | CallSetValue i v :: rest =>
      run set_value_zyncoder MAXC i v ;; encoder_calls MAXC rest
  | CallSend i :: rest =>
      run send_zyncoder MAXC i ;; encoder_calls MAXC rest
  end.

(** The configuration of an encoder: what only [setup_zyncoder] writes. *)
Definition same_configuration (e e' : Zyncoder.st) : Prop :=
  Zyncoder.enabled e' = Zyncoder.enabled e
  /\ Zyncoder.pin_a e' = Zyncoder.pin_a e
  /\ Zyncoder.pin_b e' = Zyncoder.pin_b e
  /\ Zyncoder.midi_chan e' = Zyncoder.midi_chan e
  /\ Zyncoder.midi_ctrl e' = Zyncoder.midi_ctrl e
  /\ Zyncoder.osc_path e' = Zyncoder.osc_path e
  /\ Zyncoder.max_value e' = Zyncoder.max_value e
  /\ Zyncoder.step e' = Zyncoder.step e.

(** ** Further scenarios *)

(** The returned-event ring of [one_encoder] after 40 calls of
    [write_zynmidi], with the events 1 to 40. *)
Definition forty_events_written : state :=
  state_of (write_zynmidi_each 32 (map Z.of_nat (seq 1 40)) one_encoder).

(** ** Proof support *)

Lemma nat_leb_false (a b : nat) : (b < a)%nat -> (a <=? b)%nat = false.
Proof. intros H. apply Nat.leb_gt. exact H. Qed.

Lemma nat_ltb_true (a b : nat) : (a < b)%nat -> (a <? b)%nat = true.
Proof. intros H. apply Nat.ltb_lt. exact H. Qed.

Lemma z_eqb_false (a b : Z) : a <> b -> (a =? b) = false.
Proof. intros H. apply Z.eqb_neq. exact H. Qed.

Lemma z_ltb_true (a b : Z) : a < b -> (a <? b) = true.
Proof. intros H. apply Z.ltb_lt. exact H. Qed.

Lemma z_ltb_false (a b : Z) : b <= a -> (a <? b) = false.
Proof. intros H. apply Z.ltb_ge. exact H. Qed.

Lemma z_leb_true (a b : Z) : a <= b -> (a <=? b) = true.
Proof. intros H. apply Z.leb_le. exact H. Qed.

Lemma z_leb_false (a b : Z) : b < a -> (a <=? b) = false.
Proof. intros H. apply Z.leb_gt. exact H. Qed.

(** Unfold the monad and the accessors of the tables. *)
Ltac unfold_monad :=
  unfold bind, ret, get_state, modify, fault, print, lo_send,
    load_zynswitch, store_zynswitch, load_zyncoder, store_zyncoder, ev_byte.

(** ** Disabled encoders *)

(** C10: for an index whose encoder is disabled, [set_value_zyncoder] changes
    nothing: the state it returns, tables, rings, OSC messages and console
    included, is the state it was given, so no message leaves. *)
Theorem set_value_zyncoder_disabled_is_noop :
  forall (MAX_NUM_ZYNCODERS i : nat) (v : Z) (s : state) (e : Zyncoder.st),
    zyncoders s !! i = Some e ->
    Zyncoder.enabled e = 0 ->
    set_value_zyncoder MAX_NUM_ZYNCODERS i v s = Done tt s.
Proof.
  intros MAXC i v s e Hlook Hoff.
  unfold set_value_zyncoder.
  destruct (MAXC <=? i)%nat; [reflexivity |].
  unfold_monad. rewrite Hlook, Hoff. reflexivity.
Qed.

Lemma set_value_zyncoder_disabled_witness :
  set_value_zyncoder 4 2 99 one_encoder = Done tt one_encoder.
Proof.
  apply (set_value_zyncoder_disabled_is_noop 4 2 99 one_encoder
           (Zyncoder.set_dtus [0; 0; 0; 0] (Zyncoder.set_enabled 0 Zyncoder.zero))).
  - vm_compute. reflexivity.
  - reflexivity.
Defined.

(** ** Indices outside the tables *)

(** Every operation guarded with [i >= MAX_...] ignores an index at or past
    the bound of its table. *)
Lemma guarded_operations_ignore_out_of_range :
  forall (MAXS MAXC : nat) (hw : hardware) (i : nat) (v pin : Z) (s : state),
    ((MAXS <= i)%nat ->
       update_zynswitch MAXS hw i s = Done tt s
       /\ get_zynswitch_dtus MAXS i s = Done 0 s
       /\ setup_zynswitch MAXS hw i pin s
          = Done None (set_console (console s ++ [MaxSwitchesExceeded]) s))
    /\ ((MAXC <= i)%nat ->
       update_zyncoder MAXC hw i s = Done tt s
       /\ send_zyncoder MAXC i s = Done tt s
       /\ get_value_zyncoder MAXC i s = Done 0 s
       /\ set_value_zyncoder MAXC i v s = Done tt s).
Proof.
  intros MAXS MAXC hw i v pin s. split; intros Hi.
  - unfold update_zynswitch, get_zynswitch_dtus, setup_zynswitch.
    rewrite (proj2 (Nat.leb_le MAXS i) Hi). repeat split; reflexivity.
  - unfold update_zyncoder, send_zyncoder, get_value_zyncoder, set_value_zyncoder.
    rewrite (proj2 (Nat.leb_le MAXC i) Hi). repeat split; reflexivity.
Qed.

(** [setup_zyncoder] refuses an index only when it is past the bound by
    more than one. *)
Lemma setup_zyncoder_past_bound :
  forall (MAXC OSC i : nat) (pa pb chan ctrl : Z) (path : option string)
         (value max_value step : Z) (s : state),
    (MAXC < i)%nat ->
    setup_zyncoder MAXC OSC i pa pb chan ctrl path value max_value step s
    = Done None (set_console (console s ++ [MaxZyncodersExceeded]) s).
Proof.
  intros MAXC OSC i pa pb chan ctrl path value max_value step s Hi.
  unfold setup_zyncoder. rewrite (nat_ltb_true _ _ Hi). reflexivity.
Qed.

(** At the bound itself the guard [i > MAX_NUM_ZYNCODERS] lets the call
    through, and its first access falls outside the table. *)
Lemma setup_zyncoder_at_bound :
  forall (MAXC OSC : nat) (pa pb chan ctrl : Z) (path : option string)
         (value max_value step : Z) (s : state),
    length (zyncoders s) = MAXC ->
    setup_zyncoder MAXC OSC MAXC pa pb chan ctrl path value max_value step s
    = OutOfBounds.
Proof.
  intros MAXC OSC pa pb chan ctrl path value max_value step s Hlen.
  unfold setup_zyncoder. rewrite Nat.ltb_irrefl.
  unfold_monad.
  rewrite (proj2 (lookup_ge_None (zyncoders s) MAXC)) by lia.
  reflexivity.
Qed.

(** C6: [setup_zyncoder] called with index [MAX_NUM_ZYNCODERS] (4 here, on a
    table of four encoders) does not return NULL with the state unchanged:
    it passes the guard and accesses the slot one past the table, while
    the same index is ignored by [set_value_zyncoder] and index 5 is
    refused. *)
Theorem setup_zyncoder_at_max_num_zyncoders_not_refused :
  length (zyncoders booted) = 4%nat
  /\ setup_zyncoder 4 512 4 25 27 0 7 None 0 127 0 booted = OutOfBounds
  /\ setup_zyncoder 4 512 4 25 27 0 7 None 0 127 0 booted
     <> Done None (set_console (console booted ++ [MaxZyncodersExceeded]) booted)
  /\ set_value_zyncoder 4 4 0 booted = Done tt booted
  /\ setup_zyncoder 4 512 5 25 27 0 7 None 0 127 0 booted
     = Done None (set_console (console booted ++ [MaxZyncodersExceeded]) booted).
Proof.
  assert (Hlen : length (zyncoders booted) = 4%nat) by (vm_compute; reflexivity).
  split; [exact Hlen |].
  split; [apply setup_zyncoder_at_bound; exact Hlen |].
  split.
  - rewrite (setup_zyncoder_at_bound 4 512 25 27 0 7 None 0 127 0 booted Hlen).
    discriminate.
  - split.
    + apply (guarded_operations_ignore_out_of_range 4 4 pressed_early 4 0 0 booted).
      lia.
    + apply setup_zyncoder_past_bound. lia.
Qed.

(** ** Switch debouncing *)

(** The shared edge code on an edge to level 1 that comes less than
    1000 us after the stored timestamp: the level is stored and the code
    returns. *)
Lemma switch_edge_bounce :
  forall (tsus : Z) (x : Zynswitch.st),
    s32 (tsus - Zynswitch.tsus x) < 1000 ->
    switch_edge tsus 1 x = (Zynswitch.set_status 1 x, true).
Proof.
  intros tsus x Hd. unfold switch_edge. cbn.
  rewrite (z_ltb_true _ _ Hd). reflexivity.
Qed.

(** The polling loop passes over a run of skipped switches. *)
Lemma update_expanded_zynswitches_loop_skip :
  forall (hw : hardware) (tsus : Z) (s : state) (skipped rest : list nat),
    (forall j, In j skipped ->
       exists y, zynswitches s !! j = Some y /\ switch_skipped hw y = true) ->
    update_expanded_zynswitches_loop hw tsus (skipped ++ rest) s
    = update_expanded_zynswitches_loop hw tsus rest s.
Proof.
  intros hw tsus s skipped rest. induction skipped as [| j skipped IH]; intros Hall.
  - reflexivity.
  - destruct (Hall j (or_introl eq_refl)) as [y [Hy Hskip]].
    cbn [app update_expanded_zynswitches_loop]. unfold_monad. rewrite Hy.
    unfold switch_skipped in Hskip.
    destruct ((Zynswitch.enabled y =? 0) || (Zynswitch.pin y <? 100)) eqn:Hoff.
    + apply IH. intros k Hk. apply Hall. right. exact Hk.
    + cbn in Hskip. rewrite Hskip.
      apply IH. intros k Hk. apply Hall. right. exact Hk.
Qed.

(** One turn of the polling loop at a switch where the pass does not
    end. *)
Lemma update_expanded_zynswitches_loop_turn :
  forall (hw : hardware) (s : state) (k : nat) (rest : list nat) (y : Zynswitch.st),
    zynswitches s !! k = Some y ->
    snd (poll_switch hw y) = false ->
    update_expanded_zynswitches_loop hw (clock_tsus hw) (k :: rest) s
    = update_expanded_zynswitches_loop hw (clock_tsus hw) rest
        (set_zynswitches (<[k := fst (poll_switch hw y)]> (zynswitches s)) s).
Proof.
  intros hw s k rest y Hy Hgoes.
  assert (Hk : (k <? length (zynswitches s))%nat = true).
  { apply nat_ltb_true. eapply lookup_lt_Some. exact Hy. }
  assert (Hsame : set_zynswitches (<[k := y]> (zynswitches s)) s = s).
  { rewrite list_insert_id by exact Hy. destruct s. reflexivity. }
  cbn [update_expanded_zynswitches_loop]. unfold_monad. rewrite Hy.
  unfold poll_switch, switch_skipped in *.
  destruct ((Zynswitch.enabled y =? 0) || (Zynswitch.pin y <? 100));
    cbn [orb fst] in *; [rewrite Hsame; reflexivity |].
  destruct (u32 (digitalRead hw (Zynswitch.pin y)) =? Zynswitch.status y);
    cbn [fst] in *; [rewrite Hsame; reflexivity |].
  destruct (switch_edge (clock_tsus hw) (u32 (digitalRead hw (Zynswitch.pin y))) y)
    as [y' returned].
  cbn [fst snd] in *. subst returned. rewrite Hk. reflexivity.
Qed.

(** The polling loop over the switches [k], ..., [k + n - 1] when the pass
    ends at none of them. *)
Lemma update_expanded_zynswitches_loop_pass (hw : hardware) (rest : list nat) :
  forall (n k : nat) (s : state),
    (k + n <= length (zynswitches s))%nat ->
    (forall j y, (k <= j < k + n)%nat -> zynswitches s !! j = Some y ->
                 snd (poll_switch hw y) = false) ->
    update_expanded_zynswitches_loop hw (clock_tsus hw) (seq k n ++ rest) s
    = update_expanded_zynswitches_loop hw (clock_tsus hw) rest
        (set_zynswitches
           (imap (fun j y => if (k <=? j)%nat && (j <? k + n)%nat
                             then fst (poll_switch hw y) else y)
                 (zynswitches s)) s).
Proof.
  induction n as [| n IH]; intros k s Hlen Hgo.
  - cbn [seq app]. f_equal.
    replace (imap _ (zynswitches s)) with (zynswitches s); [destruct s; reflexivity |].
    apply list_eq. intros j. rewrite list_lookup_imap.
    destruct (zynswitches s !! j); [| reflexivity]. cbn [fmap option_fmap option_map].
    destruct (Nat.leb_spec k j); destruct (Nat.ltb_spec j (k + 0));
      try reflexivity; lia.
  - destruct (lookup_lt_is_Some_2 (zynswitches s) k) as [y Hy]; [lia |].
    cbn [seq app].
    rewrite (update_expanded_zynswitches_loop_turn hw s k _ y Hy)
      by (apply (Hgo k y); [lia | exact Hy]).
    rewrite IH.
    + cbn [set_zynswitches zynswitches]. f_equal.
      assert (Htable :
                imap (fun j y0 => if (S k <=? j)%nat && (j <? S k + n)%nat
                                  then fst (poll_switch hw y0) else y0)
                     (<[k := fst (poll_switch hw y)]> (zynswitches s))
                = imap (fun j y0 => if (k <=? j)%nat && (j <? k + S n)%nat
                                    then fst (poll_switch hw y0) else y0)
                       (zynswitches s)).
      { apply list_eq. intros j. rewrite !list_lookup_imap.
        destruct (Nat.eq_dec j k) as [-> | Hne].
        - rewrite list_lookup_insert_eq by lia. rewrite Hy. cbn [fmap option_fmap option_map].
          destruct (Nat.leb_spec (S k) k); [lia |].
          destruct (Nat.leb_spec k k); [| lia].
          destruct (Nat.ltb_spec k (k + S n)); [| lia]. reflexivity.
        - rewrite list_lookup_insert_ne by lia.
          destruct (zynswitches s !! j); [| reflexivity]. cbn [fmap option_fmap option_map].
          destruct (Nat.leb_spec (S k) j); destruct (Nat.leb_spec k j);
            destruct (Nat.ltb_spec j (S k + n)); destruct (Nat.ltb_spec j (k + S n));
            try reflexivity; lia. }
      rewrite Htable. destruct s. reflexivity.
    + cbn [set_zynswitches zynswitches]. rewrite length_insert. lia.
    + intros j y0 Hj. cbn [set_zynswitches zynswitches].
      rewrite list_lookup_insert_ne by lia. apply Hgo. lia.
Qed.

(** C2, as the code has it: a press edge (status 0, level read 1) less than
    1000 us after the stored timestamp does change [status], to 1; what it
    leaves alone are the timestamp [tsus] and the duration [dtus]. This
    holds in [update_zynswitch] and, for an expander switch reached by the
    pass, in [update_expanded_zynswitches]: the pass reaches switch [i]
    when it ends at no switch before it, whether those are passed over or
    change themselves, and it ends at switch [i]. *)
Theorem bounced_press_sets_status_only :
  forall (MAXS : nat) (hw : hardware) (i : nat) (s : state) (x : Zynswitch.st),
    length (zynswitches s) = MAXS ->
    zynswitches s !! i = Some x ->
    Zynswitch.enabled x <> 0 ->
    Zynswitch.status x = 0 ->
    u32 (digitalRead hw (Zynswitch.pin x)) = 1 ->
    s32 (clock_tsus hw - Zynswitch.tsus x) < 1000 ->
    update_zynswitch MAXS hw i s
    = Done tt (set_zynswitches (<[i := Zynswitch.set_status 1 x]> (zynswitches s)) s)
    /\ (100 <= Zynswitch.pin x ->
        (forall j y, (j < i)%nat -> zynswitches s !! j = Some y ->
                     snd (poll_switch hw y) = false) ->
        update_expanded_zynswitches MAXS hw s
        = Done tt (set_zynswitches
                     (<[i := Zynswitch.set_status 1 x]>
                        (polled_before hw i (zynswitches s))) s)).
Proof.
  intros MAXS hw i s x Hlen Hx Hon Hst Hlevel Hd.
  assert (Hi : (i < MAXS)%nat).
  { rewrite <- Hlen. apply (lookup_lt_Some _ _ _ Hx). }
  split.
  - unfold update_zynswitch. rewrite (nat_leb_false _ _ Hi).
    unfold_monad. rewrite Hx, (z_eqb_false _ _ Hon), Hlevel, Hst. cbn [Z.eqb].
    rewrite (switch_edge_bounce _ _ Hd). cbn [fst].
    rewrite Hlen, (nat_ltb_true _ _ Hi). reflexivity.
  - intros Hpin Hbefore.
    unfold update_expanded_zynswitches.
    replace (seq 0 MAXS) with (seq 0 i ++ i :: seq (S i) (MAXS - S i)).
    2:{ change (i :: seq (S i) (MAXS - S i)) with (seq i (S (MAXS - S i))).
        rewrite <- (Nat.add_0_l i) at 2. rewrite <- seq_app. f_equal. lia. }
    rewrite update_expanded_zynswitches_loop_pass.
    2:{ lia. }
    2:{ intros j y Hj. apply Hbefore. lia. }
    replace (imap _ (zynswitches s)) with (polled_before hw i (zynswitches s)).
    2:{ unfold polled_before. apply imap_ext. intros j y _.
        destruct (Nat.leb_spec 0 j); [| lia]. reflexivity. }
    assert (Hx' : polled_before hw i (zynswitches s) !! i = Some x).
    { unfold polled_before. rewrite list_lookup_imap, Hx. cbn [fmap option_fmap option_map].
      rewrite Nat.ltb_irrefl. reflexivity. }
    assert (Hlen' : length (polled_before hw i (zynswitches s)) = MAXS).
    { unfold polled_before. rewrite length_imap. exact Hlen. }
    cbn [update_expanded_zynswitches_loop]. unfold_monad.
    cbn [set_zynswitches zynswitches].
    rewrite Hx', (z_eqb_false _ _ Hon), (z_ltb_false _ _ Hpin), Hlevel, Hst.
    cbn [orb Z.eqb].
    rewrite (switch_edge_bounce _ _ Hd).
    cbn [set_zynswitches zynswitches].
    rewrite Hlen', (nat_ltb_true _ _ Hi). reflexivity.
Qed.

Lemma bounced_press_sets_status_only_witness :
  update_zynswitch 8 both_pressed 1 two_released
  = Done tt (set_zynswitches
               (<[1%nat := Zynswitch.mk 1 101 9000 0 1]> (zynswitches two_released))
               two_released)
  /\ update_expanded_zynswitches 8 both_pressed two_released
     = Done tt (set_zynswitches
                  (<[1%nat := Zynswitch.mk 1 101 9000 0 1]>
                     (<[0%nat := Zynswitch.mk 1 100 4000 5500 1]>
                        (zynswitches two_released)))
                  two_released).
Proof.
  destruct (bounced_press_sets_status_only 8 both_pressed 1 two_released
              (Zynswitch.mk 1 101 9000 0 0)) as [Hisr Hpoll].
  - vm_compute. reflexivity.
  - vm_compute. reflexivity.
  - discriminate.
  - reflexivity.
  - vm_compute. reflexivity.
  - vm_compute. reflexivity.
  - split; [exact Hisr |].
    rewrite Hpoll.
    + vm_compute. reflexivity.
    + cbn. lia.
    + intros j y Hj Hy.
      assert (Hj0 : j = 0%nat) by lia. subst j.
      assert (Hy0 : zynswitches two_released !! 0%nat
                    = Some (Zynswitch.mk 1 100 4000 0 0)) by (vm_compute; reflexivity).
      rewrite Hy0 in Hy. injection Hy as <-. vm_compute. reflexivity.
Defined.

(** C2 as stated fails: switch 2 (native pin 23, polled through
    [update_zynswitch]) and switch 0 (expander pin 100, polled through
    [update_expanded_zynswitches]) are enabled with status 0, their pins
    read 1 only 500 us after the stored timestamp, and both end with
    status 1. *)
Lemma bounced_press_changes_status :
  zynswitches three_switches !! 2%nat = Some (Zynswitch.mk 1 23 5000 0 0)
  /\ zynswitches three_switches !! 0%nat = Some (Zynswitch.mk 1 100 5000 0 0)
  /\ u32 (digitalRead pressed_early 23) = 1
  /\ u32 (digitalRead pressed_early 100) = 1
  /\ s32 (clock_tsus pressed_early - 5000) = 500
  /\ zynswitches (state_of (update_zynswitch 8 pressed_early 2 three_switches)) !! 2%nat
     = Some (Zynswitch.mk 1 23 5000 0 1)
  /\ zynswitches (state_of (update_expanded_zynswitches 8 pressed_early three_switches))
       !! 0%nat
     = Some (Zynswitch.mk 1 100 5000 0 1).
Proof. vm_compute. repeat split; reflexivity. Qed.

(** C9: one pass of [update_expanded_zynswitches] over [three_switches]
    with the pins of switches 0 and 1 both high. 500 us after the timestamp
    of switch 0 its press is a bounce, the pass returns there, and switch 1
    is left with status 0 although its pin reads 1; 2000 us after that
    timestamp the same pass goes on to switch 1 and sets its status. *)
Theorem expanded_poll_returns_at_first_bounce :
  u32 (digitalRead pressed_early 101) = 1
  /\ (exists s',
        update_expanded_zynswitches 8 pressed_early three_switches = Done tt s'
        /\ zynswitches s' !! 0%nat = Some (Zynswitch.mk 1 100 5000 0 1)
        /\ zynswitches s' !! 1%nat = Some (Zynswitch.mk 1 101 0 0 0))
  /\ (exists s',
        update_expanded_zynswitches 8 pressed_late three_switches = Done tt s'
        /\ zynswitches s' !! 0%nat = Some (Zynswitch.mk 1 100 5000 2000 1)
        /\ zynswitches s' !! 1%nat = Some (Zynswitch.mk 1 101 0 0 1)).
Proof.
  split; [vm_compute; reflexivity |].
  split; eexists; (split; [vm_compute; reflexivity |]);
    split; vm_compute; reflexivity.
Qed.

(** ** The outbound byte ring *)

(** Split every [<?] on [nat] in the goal and the hypotheses. *)
Ltac nat_cases :=
  repeat match goal with
    | |- context [(?a <? ?b)%nat] => destruct (Nat.ltb_spec a b)
    | H : context [(?a <? ?b)%nat] |- _ => destruct (Nat.ltb_spec a b)
    end.

Lemma rb_index_next (rb : jack_ringbuffer) (r k : nat) :
  (r < rb_size rb)%nat -> (S k <= rb_size rb)%nat ->
  rb_index (rb_size rb) (rb_next rb r) k = rb_index (rb_size rb) r (S k).
Proof. intros Hr Hk. unfold rb_index, rb_next. nat_cases; lia. Qed.

Lemma rb_next_lt (rb : jack_ringbuffer) (p : nat) :
  (p < rb_size rb)%nat -> (rb_next rb p < rb_size rb)%nat.
Proof. intros Hp. unfold rb_next. nat_cases; lia. Qed.

(** Reading [n] bytes visits the [n] places after the read index. *)
Lemma rb_get_n_bytes :
  forall (n : nat) (rb : jack_ringbuffer),
    (rb_read_ptr rb < rb_size rb)%nat ->
    (n <= rb_size rb)%nat ->
    fst (rb_get_n n rb)
    = map (fun k => nth (rb_index (rb_size rb) (rb_read_ptr rb) k) (rb_buf rb) 0)
          (seq 0 n).
Proof.
  induction n as [| n IH]; intros rb Hr Hn.
  - reflexivity.
  - cbn [rb_get_n]. unfold rb_get at 1.
    destruct (rb_get_n n _) as [bs rb2] eqn:Hrest. cbn [fst seq map].
    f_equal.
    + unfold rb_index. rewrite Nat.add_0_r. nat_cases; [reflexivity | lia].
    + change bs with (fst (bs, rb2)). rewrite <- Hrest.
      rewrite IH; cbn [rb_read_ptr rb_size rb_buf];
        [| apply rb_next_lt; exact Hr | lia].
      rewrite <- seq_shift, map_map.
      apply map_ext_in. intros k Hk. apply in_seq in Hk.
      rewrite rb_index_next by lia. reflexivity.
Qed.

Lemma rb_space_sum (rb : jack_ringbuffer) :
  rb_wf rb ->
  (jack_ringbuffer_read_space rb + jack_ringbuffer_write_space rb
   = rb_size rb - 1)%nat.
Proof.
  intros (Hlen & Hw & Hr).
  unfold jack_ringbuffer_read_space, jack_ringbuffer_write_space.
  nat_cases; lia.
Qed.

(** One byte stored: the ring stays well formed, loses one free place and
    holds the byte after those it held. *)
Lemma rb_put_spec (rb : jack_ringbuffer) (b : Z) :
  rb_wf rb ->
  (1 <= jack_ringbuffer_write_space rb)%nat ->
  rb_wf (rb_put rb b)
  /\ jack_ringbuffer_write_space (rb_put rb b)
     = (jack_ringbuffer_write_space rb - 1)%nat
  /\ rb_contents (rb_put rb b) = rb_contents rb ++ [b]
  /\ rb_read_ptr (rb_put rb b) = rb_read_ptr rb
  /\ rb_size (rb_put rb b) = rb_size rb.
Proof.
  intros Hwf Hfree.
  pose proof (rb_space_sum rb Hwf) as Hsum.
  destruct Hwf as (Hlen & Hw & Hr).
  assert (Hwf' : rb_wf (rb_put rb b)).
  { unfold rb_wf, rb_put. cbn [rb_buf rb_write_ptr rb_read_ptr rb_size].
    rewrite length_insert. repeat split; [exact Hlen | | exact Hr].
    apply rb_next_lt. exact Hw. }
  assert (Hread : jack_ringbuffer_read_space (rb_put rb b)
                  = S (jack_ringbuffer_read_space rb)).
  { revert Hfree. unfold jack_ringbuffer_read_space, jack_ringbuffer_write_space,
      rb_put, rb_next. cbn [rb_buf rb_write_ptr rb_read_ptr rb_size].
    nat_cases; lia. }
  split; [exact Hwf' |]. split.
  { pose proof (rb_space_sum _ Hwf') as Hsum'.
    replace (rb_size (rb_put rb b)) with (rb_size rb) in Hsum' by reflexivity.
    lia. }
  split; [| split; reflexivity].
  unfold rb_contents. rewrite Hread.
  rewrite !rb_get_n_bytes; try solve [cbn [rb_put rb_read_ptr rb_size]; lia].
  cbn [rb_put rb_read_ptr rb_size rb_buf].
  rewrite seq_S, map_app. cbn [map]. f_equal.
  - apply map_ext_in. intros k Hk. apply in_seq in Hk.
    rewrite !nth_lookup. rewrite list_lookup_insert_ne; [reflexivity |].
    revert Hk. unfold rb_index, jack_ringbuffer_read_space. nat_cases; lia.
  - f_equal. rewrite nth_lookup.
    replace (rb_index (rb_size rb) (rb_read_ptr rb) (0 + jack_ringbuffer_read_space rb))
      with (rb_write_ptr rb).
    + rewrite list_lookup_insert_eq by lia. reflexivity.
    + unfold rb_index, jack_ringbuffer_read_space. nat_cases; lia.
Qed.

(** Three bytes written where three places are free. *)
Lemma jack_ringbuffer_write_three (rb : jack_ringbuffer) (b0 b1 b2 : Z) :
  rb_wf rb ->
  (3 <= jack_ringbuffer_write_space rb)%nat ->
  exists rb',
    jack_ringbuffer_write rb [b0; b1; b2] 3 = (3%nat, rb')
    /\ rb_wf rb'
    /\ jack_ringbuffer_write_space rb' = (jack_ringbuffer_write_space rb - 3)%nat
    /\ rb_contents rb' = rb_contents rb ++ [b0; b1; b2]
    /\ rb_read_ptr rb' = rb_read_ptr rb
    /\ rb_size rb' = rb_size rb.
Proof.
  intros Hwf Hfree.
  exists (rb_put (rb_put (rb_put rb b0) b1) b2).
  destruct (rb_put_spec rb b0 Hwf) as (Hwf1 & Hs1 & Hc1 & Hr1 & Hz1); [lia |].
  destruct (rb_put_spec _ b1 Hwf1) as (Hwf2 & Hs2 & Hc2 & Hr2 & Hz2); [lia |].
  destruct (rb_put_spec _ b2 Hwf2) as (Hwf3 & Hs3 & Hc3 & Hr3 & Hz3); [lia |].
  split.
  { unfold jack_ringbuffer_write.
    destruct (Nat.eqb_spec (jack_ringbuffer_write_space rb) 0) as [H0 | _]; [lia |].
    destruct (Nat.ltb_spec (jack_ringbuffer_write_space rb) 3) as [H3 | _]; [lia |].
    reflexivity. }
  split; [exact Hwf3 |]. split; [lia |]. split.
  { rewrite Hc3, Hc2, Hc1, <- !app_assoc. reflexivity. }
  split; congruence.
Qed.

(** [jack_write_midi_event] where fewer than three places are free. *)
Lemma jack_write_midi_event_full (ctrl_event : list Z) (s : state) :
  (jack_ringbuffer_write_space (jack_ring_output_buffer s) < 3)%nat ->
  jack_write_midi_event ctrl_event s
  = Done (-1) (set_console (console s ++ [RingOutputFull]) s).
Proof.
  intros Hfree. unfold jack_write_midi_event. unfold_monad.
  rewrite (nat_leb_false _ _ Hfree). reflexivity.
Qed.

(** [jack_write_midi_event] where three places are free. *)
Lemma jack_write_midi_event_room (b0 b1 b2 : Z) (s : state) :
  rb_wf (jack_ring_output_buffer s) ->
  (3 <= jack_ringbuffer_write_space (jack_ring_output_buffer s))%nat ->
  exists rb',
    jack_write_midi_event [b0; b1; b2] s = Done 0 (set_ring_output rb' s)
    /\ rb_wf rb'
    /\ jack_ringbuffer_write_space rb'
       = (jack_ringbuffer_write_space (jack_ring_output_buffer s) - 3)%nat
    /\ rb_contents rb' = rb_contents (jack_ring_output_buffer s) ++ [b0; b1; b2]
    /\ rb_read_ptr rb' = rb_read_ptr (jack_ring_output_buffer s)
    /\ rb_size rb' = rb_size (jack_ring_output_buffer s).
Proof.
  intros Hwf Hfree.
  destruct (jack_ringbuffer_write_three _ b0 b1 b2 Hwf Hfree) as (rb' & Hw & Hrest).
  exists rb'. split; [| exact Hrest].
  unfold jack_write_midi_event. unfold_monad.
  rewrite (proj2 (Nat.leb_le _ _) Hfree), Hw. reflexivity.
Qed.

(** A run of messages that fits is queued whole, in order. *)
Lemma jack_write_midi_events_room :
  forall (msgs : list (Z * Z * Z)) (s : state),
    rb_wf (jack_ring_output_buffer s) ->
    (3 * length msgs <= jack_ringbuffer_write_space (jack_ring_output_buffer s))%nat ->
    exists rb',
      jack_write_midi_events (map message_bytes msgs) s
      = Done (replicate (length msgs) 0) (set_ring_output rb' s)
      /\ rb_wf rb'
      /\ jack_ringbuffer_write_space rb'
         = (jack_ringbuffer_write_space (jack_ring_output_buffer s)
            - 3 * length msgs)%nat
      /\ rb_contents rb'
         = rb_contents (jack_ring_output_buffer s) ++ concat (map message_bytes msgs).
Proof.
  induction msgs as [| [[b0 b1] b2] msgs IH]; intros s Hwf Hfree.
  - exists (jack_ring_output_buffer s). cbn.
    split; [destruct s; reflexivity |]. split; [exact Hwf |].
    split; [lia |]. rewrite app_nil_r. reflexivity.
  - cbn [length] in Hfree.
    destruct (jack_write_midi_event_room b0 b1 b2 s Hwf) as
      (rb1 & Hw & Hwf1 & Hs1 & Hc1 & _); [lia |].
    destruct (IH (set_ring_output rb1 s)) as (rb2 & Hws & Hwf2 & Hs2 & Hc2).
    { exact Hwf1. }
    { cbn [set_ring_output jack_ring_output_buffer]. lia. }
    exists rb2.
    cbn [map jack_write_midi_events message_bytes]. unfold bind at 1. rewrite Hw.
    unfold bind at 1. rewrite Hws. unfold ret.
    cbn [set_ring_output jack_ring_output_buffer] in *.
    split; [reflexivity |]. split; [exact Hwf2 |]. split.
    + cbn [length]. lia.
    + rewrite Hc2, Hc1. cbn [concat]. rewrite <- app_assoc. reflexivity.
Qed.

(** C7: with fewer than three bytes free in the outbound ring,
    [jack_write_midi_event] returns -1 and leaves the ring as it was (only
    the console gets the overflow line); otherwise it returns 0 and the ring
    holds the three bytes after its former contents, the read index
    untouched. So 341 messages fill the ring of [init_zyncoder_midi], each
    accepted, and one more is refused with the ring unchanged. *)
Theorem jack_write_midi_event_all_or_nothing :
  forall (s : state) (b0 b1 b2 : Z),
    rb_wf (jack_ring_output_buffer s) ->
    ((jack_ringbuffer_write_space (jack_ring_output_buffer s) < 3)%nat ->
       exists s',
         jack_write_midi_event [b0; b1; b2] s = Done (-1) s'
         /\ jack_ring_output_buffer s' = jack_ring_output_buffer s)
    /\ ((3 <= jack_ringbuffer_write_space (jack_ring_output_buffer s))%nat ->
       exists s',
         jack_write_midi_event [b0; b1; b2] s = Done 0 s'
         /\ rb_contents (jack_ring_output_buffer s')
            = rb_contents (jack_ring_output_buffer s) ++ [b0; b1; b2]
         /\ rb_read_ptr (jack_ring_output_buffer s')
            = rb_read_ptr (jack_ring_output_buffer s)
         /\ jack_ringbuffer_write_space (jack_ring_output_buffer s')
            = (jack_ringbuffer_write_space (jack_ring_output_buffer s) - 3)%nat)
    /\ (forall msgs : list (Z * Z * Z),
          jack_ring_output_buffer s = jack_ringbuffer_create (3 * 256) ->
          length msgs = 341%nat ->
          exists s1 s2,
            jack_write_midi_events (map message_bytes msgs) s
            = Done (replicate 341 0) s1
            /\ rb_contents (jack_ring_output_buffer s1)
               = concat (map message_bytes msgs)
            /\ jack_write_midi_event [b0; b1; b2] s1 = Done (-1) s2
            /\ jack_ring_output_buffer s2 = jack_ring_output_buffer s1).
Proof.
  intros s b0 b1 b2 Hwf. split; [| split].
  - intros Hfree. eexists. split.
    + apply jack_write_midi_event_full. exact Hfree.
    + reflexivity.
  - intros Hfree.
    destruct (jack_write_midi_event_room b0 b1 b2 s Hwf Hfree) as
      (rb' & Hw & _ & Hs & Hc & Hr & _).
    exists (set_ring_output rb' s). split; [exact Hw |].
    cbn [set_ring_output jack_ring_output_buffer]. repeat split; assumption.
  - intros msgs Hnew Hlen.
    assert (Hspace : jack_ringbuffer_write_space (jack_ring_output_buffer s) = 1023%nat).
    { rewrite Hnew. vm_compute. reflexivity. }
    assert (Hempty : rb_contents (jack_ring_output_buffer s) = []).
    { rewrite Hnew. vm_compute. reflexivity. }
    destruct (jack_write_midi_events_room msgs s Hwf) as (rb' & Hws & _ & Hs & Hc).
    { rewrite Hspace, Hlen. lia. }
    exists (set_ring_output rb' s). eexists.
    rewrite Hlen in Hws. split; [exact Hws |].
    cbn [set_ring_output jack_ring_output_buffer].
    split; [rewrite Hc, Hempty; reflexivity |]. split.
    + apply jack_write_midi_event_full.
      cbn [set_ring_output jack_ring_output_buffer]. rewrite Hs, Hspace, Hlen. lia.
    + reflexivity.
Qed.

Lemma jack_write_midi_event_all_or_nothing_witness :
  (exists s',
     jack_write_midi_event [176; 7; 64] one_encoder = Done 0 s'
     /\ rb_contents (jack_ring_output_buffer s') = [176; 7; 64])
  /\ (exists s1 s2,
        jack_write_midi_events (map message_bytes (replicate 341 (176, 7, 1))) one_encoder
        = Done (replicate 341 0) s1
        /\ jack_write_midi_event [176; 7; 64] s1 = Done (-1) s2
        /\ jack_ring_output_buffer s2 = jack_ring_output_buffer s1).
Proof.
  assert (Hwf : rb_wf (jack_ring_output_buffer one_encoder)).
  { vm_compute. repeat split; lia. }
  destruct (jack_write_midi_event_all_or_nothing one_encoder 176 7 64 Hwf)
    as (_ & Hroom & Hfill).
  split.
  - destruct Hroom as (s' & Hw & Hc & _).
    + vm_compute. lia.
    + exists s'. split; [exact Hw |]. rewrite Hc. vm_compute. reflexivity.
  - destruct (Hfill (replicate 341 (176, 7, 1))) as (s1 & s2 & H1 & _ & H2 & H3);
      [vm_compute; reflexivity | apply length_replicate |].
    exists s1, s2. repeat split; assumption.
Defined.

(** ** The dispatcher *)


(** C4, as the code has it: with [midi_ctrl > 0] an enabled encoder's
    [send_zyncoder] queues, when the outbound ring has three bytes free, the
    one message [0xB0 + midi_chan, midi_ctrl, value], each byte reduced
    modulo 256 (the value is not masked with 0x7F), and with less room queues
    nothing and logs the overflow; in both cases no OSC message is sent.
    With [midi_ctrl = 0] it sends one OSC message when OSC is initialised and
    the path is not empty, boolean (true iff [value >= 64]) for [step >= 8]
    and the integer value otherwise, and nothing at all if not. *)
Theorem send_zyncoder_midi_before_osc :
  forall (MAXC i : nat) (s : state) (e : Zyncoder.st),
    (i < MAXC)%nat ->
    zyncoders s !! i = Some e ->
    Zyncoder.enabled e <> 0 ->
    rb_wf (jack_ring_output_buffer s) ->
    (0 < Zyncoder.midi_ctrl e ->
       ((3 <= jack_ringbuffer_write_space (jack_ring_output_buffer s))%nat ->
          exists rb',
            send_zyncoder MAXC i s = Done tt (set_ring_output rb' s)
            /\ rb_contents rb'
               = rb_contents (jack_ring_output_buffer s)
                 ++ [u8 (0xB0 + u8 (Zyncoder.midi_chan e));
                     u8 (Zyncoder.midi_ctrl e);
                     u8 (Zyncoder.value e)])
       /\ ((jack_ringbuffer_write_space (jack_ring_output_buffer s) < 3)%nat ->
          send_zyncoder MAXC i s
          = Done tt (set_console (console s ++ [RingOutputFull]) s)))
    /\ (Zyncoder.midi_ctrl e <= 0 ->
       send_zyncoder MAXC i s
       = match osc_lo_addr s, Zyncoder.osc_path e with
         | Some _, String _ _ =>
             Done tt (set_lo_sent (lo_sent s ++ [(Zyncoder.osc_path e, osc_payload e)]) s)
         | _, _ => Done tt s
         end).
Proof.
  intros MAXC i s e Hi He Hon Hwf.
  assert (Hsend :
             send_zyncoder MAXC i s
             = (if 0 <? Zyncoder.midi_ctrl e
                then bind (zynmidi_set_control (Zyncoder.midi_chan e)
                             (Zyncoder.midi_ctrl e) (Zyncoder.value e))
                          (fun _ => ret tt) s
                else match osc_lo_addr s, Zyncoder.osc_path e with
                     | Some _, String _ _ =>
                         lo_send (Zyncoder.osc_path e) (osc_payload e) s
                     | _, _ => Done tt s
                     end)).
  { unfold send_zyncoder. rewrite (nat_leb_false _ _ Hi).
    unfold load_zyncoder, get_state, ret. unfold bind at 1.
    rewrite He, (z_eqb_false _ _ Hon).
    destruct (0 <? Zyncoder.midi_ctrl e); [reflexivity |].
    unfold bind. unfold osc_payload.
    destruct (osc_lo_addr s); [| reflexivity].
    destruct (Zyncoder.osc_path e); [reflexivity |].
    destruct (8 <=? Zyncoder.step e); [destruct (64 <=? Zyncoder.value e) |];
      reflexivity. }
  split.
  - intros Hctrl. rewrite (z_ltb_true _ _ Hctrl) in Hsend. split.
    + intros Hfree.
      destruct (jack_write_midi_event_room
                  (u8 (0xB0 + u8 (Zyncoder.midi_chan e)))
                  (u8 (Zyncoder.midi_ctrl e)) (u8 (Zyncoder.value e)) s Hwf Hfree)
        as (rb' & Hw & _ & _ & Hc & _).
      exists rb'. split; [| exact Hc].
      rewrite Hsend. unfold bind, zynmidi_set_control. rewrite Hw. reflexivity.
    + intros Hfull. rewrite Hsend. unfold bind, zynmidi_set_control.
      rewrite (jack_write_midi_event_full _ s Hfull). reflexivity.
  - intros Hctrl. rewrite (z_ltb_false _ _ Hctrl) in Hsend. rewrite Hsend.
    destruct (osc_lo_addr s); [| reflexivity].
    destruct (Zyncoder.osc_path e); reflexivity.
Qed.

Lemma send_zyncoder_midi_before_osc_witness :
  (exists rb',
     send_zyncoder 4 0 wide_encoder = Done tt (set_ring_output rb' wide_encoder)
     /\ rb_contents rb' = [176; 7; 200])
  /\ send_zyncoder 4 0 osc_encoder
     = Done tt (set_lo_sent [("/volume"%string, OscInt 70)] osc_encoder).
Proof.
  split.
  - destruct (send_zyncoder_midi_before_osc 4 0 wide_encoder
                (Zyncoder.mk 1 25 27 0 7 EmptyString 1020 0 800 200 0 0 [0; 0; 0; 0]))
      as [Hmidi _].
    + lia.
    + vm_compute. reflexivity.
    + discriminate.
    + vm_compute. repeat split; lia.
    + destruct Hmidi as [Hroom _]; [reflexivity |].
      destruct Hroom as (rb' & Hs & Hc); [vm_compute; lia |].
      exists rb'. split; [exact Hs |]. rewrite Hc. vm_compute. reflexivity.
  - destruct (send_zyncoder_midi_before_osc 4 0 osc_encoder
                (Zyncoder.mk 1 25 27 0 0 "/volume"%string 508 0 280 70 0 0 [0; 0; 0; 0]))
      as [_ Hosc].
    + lia.
    + vm_compute. reflexivity.
    + discriminate.
    + vm_compute. repeat split; lia.
    + rewrite Hosc; [| cbn; lia]. vm_compute. reflexivity.
Defined.

(** C4 as stated fails: encoder 0 of [wide_encoder] is enabled with
    controller 7 on channel 0 and value 200; [send_zyncoder] queues the
    bytes 0xB0, 7, 200, and 200 is not [200 & 0x7F], which is 72. *)
Lemma send_zyncoder_value_not_masked :
  zyncoders wide_encoder !! 0%nat
  = Some (Zyncoder.mk 1 25 27 0 7 EmptyString 1020 0 800 200 0 0 [0; 0; 0; 0])
  /\ rb_contents (jack_ring_output_buffer (state_of (send_zyncoder 4 0 wide_encoder)))
     = [176; 7; 200]
  /\ Z.land 200 0x7F = 72.
Proof. vm_compute. repeat split; reflexivity. Qed.

(** ** Setting and reading an encoder's value *)




(** ** Program Change events returned to the application *)

(** The input scan on a Program Change event of three bytes: the packed
    event goes to [write_zynmidi], then the bytes go to the input ring if
    it has room. *)
Lemma jack_process_input_event_program_change
    (MAXC SIZE : nat) (b0 b1 b2 r : Z) (s s0 : state) :
  Z.shiftr b0 4 = 0xC ->
  write_zynmidi SIZE (Z.lor (Z.lor b0 (Z.shiftl b1 8)) (Z.shiftl b2 16)) s = Done r s0 ->
  jack_process_input_event MAXC SIZE (mk_event 3 [b0; b1; b2]) s
  = if (3 <=? jack_ringbuffer_write_space (jack_ring_input_buffer s0))%nat
    then Done None (set_ring_input
                      (snd (jack_ringbuffer_write (jack_ring_input_buffer s0)
                              [b0; b1; b2] 3)) s0)
    else Done None s0.
Proof.
  intros Htype Hwrite.
  unfold jack_process_input_event, ev_byte, bind, ret, get_state, modify, print.
  cbn [ev_buffer ev_size].
  change ([b0; b1; b2] !! 0%nat) with (Some b0).
  change ([b0; b1; b2] !! 1%nat) with (Some b1).
  change ([b0; b1; b2] !! 2%nat) with (Some b2).
  cbv beta iota. rewrite Htype. cbn [Z.eqb Pos.eqb orb]. rewrite Hwrite.
  destruct (Nat.leb_spec 3 (jack_ringbuffer_write_space (jack_ring_input_buffer s0)))
    as [Hroom | Hfull]; [| reflexivity].
  unfold jack_ringbuffer_write.
  destruct (Nat.eqb_spec (jack_ringbuffer_write_space (jack_ring_input_buffer s0)) 0);
    [lia |].
  destruct (Nat.ltb_spec (jack_ringbuffer_write_space (jack_ring_input_buffer s0)) 3);
    [lia |].
  reflexivity.
Qed.

(** Writing into an empty returned-event ring of at least two slots. *)
Lemma write_zynmidi_empty (SIZE : nat) (ev : Z) (s : state) :
  (2 <= SIZE)%nat ->
  length (zynmidi_buffer s) = SIZE ->
  zynmidi_buffer_read s = zynmidi_buffer_write s ->
  (zynmidi_buffer_write s < SIZE)%nat ->
  write_zynmidi SIZE ev s
  = Done 1 (set_zynmidi (<[zynmidi_buffer_write s := u32 ev]> (zynmidi_buffer s))
              (zynmidi_buffer_read s)
              (if (SIZE <=? S (zynmidi_buffer_write s))%nat
               then 0%nat else S (zynmidi_buffer_write s))
              s).
Proof.
  intros Hsize Hlen Hempty Hw. unfold write_zynmidi. unfold_monad.
  rewrite Hlen, (nat_ltb_true _ _ Hw).
  destruct (Nat.leb_spec SIZE (S (zynmidi_buffer_write s))).
  - destruct (Nat.eqb_spec 0 (zynmidi_buffer_read s)); [lia | reflexivity].
  - destruct (Nat.eqb_spec (S (zynmidi_buffer_write s)) (zynmidi_buffer_read s));
      [lia | reflexivity].
Qed.

(** The input block given the one event [0xC3, 0x05, 0x00] while the
    returned-event ring is empty. *)
Lemma program_change_input_scan :
  forall (MAXC SIZE : nat) (nframes : Z) (s : state),
    (2 <= SIZE)%nat ->
    length (zynmidi_buffer s) = SIZE ->
    zynmidi_buffer_read s = zynmidi_buffer_write s ->
    (zynmidi_buffer_write s < SIZE)%nat ->
    0 <= nframes ->
    exists s1 s2,
      jack_process_midi_input MAXC SIZE nframes [mk_event 3 [0xC3; 0x05; 0x00]] s
      = Done 0 s1
      /\ zynmidi_buffer s1 !! zynmidi_buffer_read s
         = Some (Z.lor (Z.lor 0xC3 (Z.shiftl 0x05 8)) (Z.shiftl 0x00 16))
      /\ zynmidi_buffer_read s1 = zynmidi_buffer_read s
      /\ read_zynmidi SIZE s1 = Done 0x0005C3 s2
      /\ zynmidi_buffer_read s2 = zynmidi_buffer_write s1
      /\ zynmidi_buffer_read s2 <> zynmidi_buffer_read s.
Proof.
  intros MAXC SIZE nframes s Hsize Hlen Hempty Hw Hframes.
  pose proof (write_zynmidi_empty SIZE 1475 s Hsize Hlen Hempty Hw) as Hwrite.
  set (nptr := if (SIZE <=? S (zynmidi_buffer_write s))%nat
               then 0%nat else S (zynmidi_buffer_write s)) in *.
  set (s0 := set_zynmidi (<[zynmidi_buffer_write s := u32 1475]> (zynmidi_buffer s))
               (zynmidi_buffer_read s) nptr s) in *.
  assert (Hnptr : nptr <> zynmidi_buffer_read s).
  { subst nptr. destruct (Nat.leb_spec SIZE (S (zynmidi_buffer_write s))); lia. }
  assert (Hscan : exists s1,
             jack_process_midi_input MAXC SIZE nframes
               [mk_event 3 [0xC3; 0x05; 0x00]] s = Done 0 s1
             /\ zynmidi_buffer s1 = zynmidi_buffer s0
             /\ zynmidi_buffer_read s1 = zynmidi_buffer_read s0
             /\ zynmidi_buffer_write s1 = zynmidi_buffer_write s0).
  { unfold jack_process_midi_input. cbn [jack_process_input_loop].
    unfold bind at 1.
    rewrite (jack_process_input_event_program_change MAXC SIZE 0xC3 0x05 0x00 1 s s0
               eq_refl Hwrite).
    change (Z.of_nat 0) with 0. rewrite (z_ltb_false _ _ Hframes).
    destruct (3 <=? jack_ringbuffer_write_space (jack_ring_input_buffer s0))%nat;
      eexists; (split; [reflexivity |]); repeat split; reflexivity. }
  destruct Hscan as (s1 & Hrun & Hbuf & Hread & Hwr).
  assert (Hstored : zynmidi_buffer s1 !! zynmidi_buffer_read s = Some 1475).
  { rewrite Hbuf. subst s0. cbn [set_zynmidi zynmidi_buffer].
    rewrite Hempty. apply list_lookup_insert_eq. lia. }
  exists s1.
  exists (set_zynmidi (zynmidi_buffer s1)
            (if (SIZE <=? S (zynmidi_buffer_read s1))%nat
             then 0%nat else S (zynmidi_buffer_read s1))
            (zynmidi_buffer_write s1) s1).
  split; [exact Hrun |]. split; [exact Hstored |].
  split; [rewrite Hread; reflexivity |].
  assert (Hr1 : zynmidi_buffer_read s1 = zynmidi_buffer_read s)
    by (rewrite Hread; reflexivity).
  assert (Hw1 : zynmidi_buffer_write s1 = nptr) by (rewrite Hwr; reflexivity).
  split.
  - unfold read_zynmidi. unfold_monad. rewrite Hr1, Hw1.
    destruct (Nat.eqb_spec (zynmidi_buffer_read s) nptr); [congruence |].
    rewrite Hstored. reflexivity.
  - cbn [set_zynmidi zynmidi_buffer_read]. rewrite Hr1, Hw1. split.
    + subst nptr. rewrite Hempty. reflexivity.
    + destruct (Nat.leb_spec SIZE (S (zynmidi_buffer_read s))); lia.
Qed.

(** With nothing queued outbound, the output block of [jack_process] only
    clears the output port. *)
Lemma jack_process_idle_output
    (MAXC SIZE : nat) (nframes : Z) (room : nat) (events : list jack_midi_event)
    (s : state) :
  jack_ringbuffer_read_space (jack_ring_output_buffer s) = 0%nat ->
  jack_process MAXC SIZE nframes room events s
  = jack_process_midi_input MAXC SIZE nframes events (set_output_port [] s).
Proof.
  intros Hidle. unfold jack_process, jack_process_midi_output.
  unfold bind, modify, get_state.
  cbn [set_output_port jack_ring_output_buffer jack_midi_data].
  unfold jack_ringbuffer_read. rewrite Hidle. cbn [Nat.eqb length Nat.ltb Nat.leb].
  cbn [negb app drop Nat.add Nat.div Nat.divmod fst jack_process_output_loop].
  unfold ret. destruct s. reflexivity.
Qed.

(** C8: the input scan of [jack_process], given the one event
    [0xC3, 0x05, 0x00] while the returned-event ring is empty, stores
    [0xC3 | (0x05<<8) | (0x00<<16)] in the ring, and [read_zynmidi] then
    returns 0x0005C3 and moves the read index on to the write index. The
    same holds of the whole callback when nothing is queued outbound. *)
Theorem program_change_reaches_read_zynmidi :
  forall (MAXC SIZE : nat) (nframes : Z) (room : nat) (s : state),
    (2 <= SIZE)%nat ->
    length (zynmidi_buffer s) = SIZE ->
    zynmidi_buffer_read s = zynmidi_buffer_write s ->
    (zynmidi_buffer_write s < SIZE)%nat ->
    0 <= nframes ->
    (exists s1 s2,
       jack_process_midi_input MAXC SIZE nframes [mk_event 3 [0xC3; 0x05; 0x00]] s
       = Done 0 s1
       /\ zynmidi_buffer s1 !! zynmidi_buffer_read s
          = Some (Z.lor (Z.lor 0xC3 (Z.shiftl 0x05 8)) (Z.shiftl 0x00 16))
       /\ zynmidi_buffer_read s1 = zynmidi_buffer_read s
       /\ read_zynmidi SIZE s1 = Done 0x0005C3 s2
       /\ zynmidi_buffer_read s2 = zynmidi_buffer_write s1
       /\ zynmidi_buffer_read s2 <> zynmidi_buffer_read s)
    /\ (jack_ringbuffer_read_space (jack_ring_output_buffer s) = 0%nat ->
        exists s1 s2,
          jack_process MAXC SIZE nframes room [mk_event 3 [0xC3; 0x05; 0x00]] s = Done 0 s1
          /\ read_zynmidi SIZE s1 = Done 0x0005C3 s2
          /\ zynmidi_buffer_read s2 = zynmidi_buffer_write s1).
Proof.
  intros MAXC SIZE nframes room s Hsize Hlen Hempty Hw Hframes. split.
  - apply program_change_input_scan; assumption.
  - intros Hidle. rewrite (jack_process_idle_output _ _ _ _ _ _ Hidle).
    destruct (program_change_input_scan MAXC SIZE nframes (set_output_port [] s))
      as (s1 & s2 & Hscan & _ & _ & Hread & Hindex & _); try assumption.
    exists s1, s2. repeat split; assumption.
Qed.

Lemma program_change_reaches_read_zynmidi_witness :
  (exists s1 s2,
     jack_process_midi_input 4 32 256 [mk_event 3 [0xC3; 0x05; 0x00]] one_encoder
     = Done 0 s1
     /\ read_zynmidi 32 s1 = Done 0x0005C3 s2)
  /\ (exists s1 s2,
        jack_process 4 32 256 256 [mk_event 3 [0xC3; 0x05; 0x00]] one_encoder = Done 0 s1
        /\ read_zynmidi 32 s1 = Done 0x0005C3 s2).
Proof.
  destruct (program_change_reaches_read_zynmidi 4 32 256 256 one_encoder)
    as [Hscan Hcallback].
  - lia.
  - vm_compute. reflexivity.
  - vm_compute. reflexivity.
  - vm_compute. lia.
  - lia.
  - split.
    + destruct Hscan as (s1 & s2 & H1 & _ & _ & H2 & _). exists s1, s2. auto.
    + destruct Hcallback as (s1 & s2 & H1 & H2 & _); [vm_compute; reflexivity |].
      exists s1, s2. auto.
Defined.

(** ** Slow rotation in continuous mode *)

Lemma u32_small (x : Z) : 0 <= x < 2 ^ 32 -> u32 x = x.
Proof. intros H. unfold u32. apply Z.mod_small. exact H. Qed.

Lemma s32_small (x : Z) : 0 <= x < 2 ^ 31 -> s32 x = x.
Proof.
  intros H. unfold s32. rewrite Z.mod_small by lia.
  rewrite (z_ltb_true _ _ (proj2 H)). reflexivity.
Qed.










(** ** The bound on the sub-tick counter *)






(** [setup_zyncoder] where it returns: the index is inside the table, the
    path fits its array and, if interrupt handlers are registered, the
    index is inside the table of handlers. Every field of the struct it
    leaves. *)
Lemma setup_zyncoder_fields
    (MAXC OSC i : nat) (pa pb chan ctrl : Z) (path : option string)
    (value max_value step : Z) (s : state) (e : Zyncoder.st) :
  (i < MAXC)%nat ->
  zyncoders s !! i = Some e ->
  path_fits OSC path ->
  (rearmed e pa pb = true -> pa <> pb -> (i < 8)%nat) ->
  exists e',
    setup_zyncoder MAXC OSC i pa pb chan ctrl path value max_value step s
    = Done (Some i) (set_zyncoders (<[i := e']> (zyncoders s)) s)
    /\ Zyncoder.midi_chan e' = (if 15 <? chan then 0 else chan)
    /\ Zyncoder.midi_ctrl e' = (if 127 <? ctrl then 1 else ctrl)
    /\ Zyncoder.osc_path e' = match path with Some p => p | None => EmptyString end
    /\ Zyncoder.step e' = step
    /\ Zyncoder.value e' = (if max_value <? value then max_value else value)
    /\ Zyncoder.subvalue e'
       = (if 0 <? step then 0
          else u32 (ZYNCODER_TICKS_PER_RETENT
                    * (if max_value <? value then max_value else value)))
    /\ Zyncoder.max_value e'
       = (if 0 <? step then max_value
          else u32 (ZYNCODER_TICKS_PER_RETENT * max_value))
    /\ Zyncoder.dtus e' = Zyncoder.dtus e
    /\ Zyncoder.enabled e' = (if rearmed e pa pb then 1 else Zyncoder.enabled e)
    /\ Zyncoder.pin_a e' = (if rearmed e pa pb then pa else Zyncoder.pin_a e)
    /\ Zyncoder.pin_b e' = (if rearmed e pa pb then pb else Zyncoder.pin_b e)
    /\ Zyncoder.last_encoded e'
       = (if rearmed e pa pb then 0 else Zyncoder.last_encoded e)
    /\ Zyncoder.tsus e' = (if rearmed e pa pb then 0 else Zyncoder.tsus e).
Proof.
  intros Hi He Hpath Hisr.
  pose proof (lookup_lt_Some _ _ _ He) as Hlen.
  assert (Hstore : (i <? length (zyncoders s))%nat = true)
    by (apply nat_ltb_true; exact Hlen).
  unfold setup_zyncoder, isr_func. rewrite (proj2 (Nat.ltb_ge MAXC i)) by lia.
  unfold load_zyncoder, store_zyncoder, bind, ret, fault. rewrite He.
  assert (Hcopy : match path with
                  | Some p => (String.length p + 1 <=? OSC)%nat = true
                  | None => True
                  end).
  { destruct path; [apply Nat.leb_le; exact Hpath | exact I]. }
  destruct e as [en pa0 pb0 ch0 ct0 op0 mx0 st0 sv0 v0 le0 ts0 dt0].
  unfold rearmed in *.
  cbn [Zyncoder.enabled Zyncoder.pin_a Zyncoder.pin_b] in Hisr.
  destruct path as [p |]; [rewrite Hcopy |];
    destruct (0 <? step);
    cbn [Zyncoder.enabled Zyncoder.pin_a Zyncoder.pin_b Zyncoder.set_enabled
         Zyncoder.set_pins Zyncoder.set_midi Zyncoder.set_osc_path
         Zyncoder.set_max_value Zyncoder.set_step Zyncoder.set_subvalue
         Zyncoder.set_value Zyncoder.set_last_encoded Zyncoder.set_tsus];
    destruct (en =? 0); destruct (pa0 =? pa); destruct (pb0 =? pb);
    cbn [orb negb] in *; rewrite Hstore;
    destruct (Z.eqb_spec pa pb) as [Hsame | Hdiff]; cbn [negb];
    try (rewrite (nat_ltb_true i 8) by (apply Hisr; [reflexivity | exact Hdiff]));
    eexists; (split; [reflexivity |]); cbn; repeat split; reflexivity.
Qed.

(** [setup_zyncoder] on an index inside both tables, with a path that fits
    and a maximum whose sub-tick bound fits [unsigned int], returns and
    keeps every counter within its bound. *)
Lemma setup_zyncoder_keeps_bound
    (MAXC OSC i : nat) (pa pb chan ctrl : Z) (path : option string)
    (value max_value step : Z) (s : state) :
  length (zyncoders s) = MAXC ->
  (i < MAXC)%nat ->
  (i < 8)%nat ->
  path_fits OSC path ->
  0 <= value -> 0 <= max_value ->
  ZYNCODER_TICKS_PER_RETENT * max_value < 2 ^ 32 ->
  Forall zyncoder_bounded (zyncoders s) ->
  exists s',
    setup_zyncoder MAXC OSC i pa pb chan ctrl path value max_value step s
    = Done (Some i) s'
    /\ length (zyncoders s') = MAXC
    /\ Forall zyncoder_bounded (zyncoders s').
Proof.
  intros Hlen Hi Hfunc Hpath Hv Hm Hfit Hall.
  destruct (lookup_lt_is_Some_2 (zyncoders s) i) as [e He]; [lia |].
  destruct (setup_zyncoder_fields MAXC OSC i pa pb chan ctrl path value max_value
              step s e Hi He Hpath)
    as (e' & Hrun & _ & _ & _ & _ & _ & Hsub & Hmax & _); [intros _ _; exact Hfunc |].
  eexists. split; [exact Hrun |].
  cbn [set_zyncoders zyncoders]. rewrite length_insert. split; [exact Hlen |].
  apply Forall_insert; [exact Hall |].
  unfold zyncoder_bounded. rewrite Hsub, Hmax.
  unfold ZYNCODER_TICKS_PER_RETENT in *.
  destruct (0 <? step); destruct (Z.ltb_spec max_value value);
    rewrite ?u32_small by lia; lia.
Qed.

(** C1: on [narrow_encoder] every counter is within its bound; the
    Control Change [0xB0, 7, 127] arriving in [jack_process] matches encoder
    0, whose bound is 40 sub-ticks, and leaves it with [subvalue = 508], so
    the bound no longer holds. *)
Theorem control_change_echo_exceeds_bound :
  Forall zyncoder_bounded (zyncoders narrow_encoder)
  /\ (exists s',
        jack_process 4 32 256 256 [mk_event 3 [0xB0; 7; 127]] narrow_encoder = Done 0 s'
        /\ zyncoders s' !! 0%nat
           = Some (Zyncoder.mk 1 25 27 0 7 EmptyString 40 0 508 127 0 0 [0; 0; 0; 0])
        /\ ~ Forall zyncoder_bounded (zyncoders s')).
Proof.
  split.
  - assert (Hboot : zyncoders booted
                    = replicate 4 (Zyncoder.mk 0 0 0 0 0 EmptyString 0 0 0 0 0 0
                                               [0; 0; 0; 0]))
      by (vm_compute; reflexivity).
    destruct (setup_zyncoder_keeps_bound 4 512 0 25 27 0 7 None 0 10 0 booted)
      as (s' & Hs & _ & Hall).
    + rewrite Hboot. reflexivity.
    + lia.
    + lia.
    + exact I.
    + lia.
    + lia.
    + unfold ZYNCODER_TICKS_PER_RETENT. lia.
    + rewrite Hboot. cbn [replicate].
      repeat constructor; unfold zyncoder_bounded; cbn; lia.
    + unfold narrow_encoder. rewrite Hs. exact Hall.
  - eexists. split; [vm_compute; reflexivity |].
    split; [vm_compute; reflexivity |].
    intros Hall.
    pose proof (Forall_lookup_1 _ _ 0%nat _ Hall eq_refl) as (_ & Hhi & _).
    vm_compute in Hhi. congruence.
Qed.

(** ** The returned-event ring as a queue *)

Lemma zynmidi_count_bound (SIZE : nat) (s : state) :
  zynmidi_wf SIZE s -> (zynmidi_count SIZE s < SIZE)%nat.
Proof.
  intros (Hlen & Hr & Hw). unfold zynmidi_count.
  destruct (Nat.leb_spec (zynmidi_buffer_read s) (zynmidi_buffer_write s)); lia.
Qed.

(** [write_zynmidi] on the queue: an event is appended while fewer than
    [SIZE - 1] wait. *)
Lemma write_zynmidi_appends (SIZE : nat) (ev : Z) (s : state) :
  zynmidi_wf SIZE s ->
  (zynmidi_count SIZE s + 1 < SIZE)%nat ->
  exists s',
    write_zynmidi SIZE ev s = Done 1 s'
    /\ zynmidi_wf SIZE s'
    /\ zynmidi_queue SIZE s' = zynmidi_queue SIZE s ++ [u32 ev]
    /\ zynmidi_buffer_read s' = zynmidi_buffer_read s.
Proof.
  intros (Hlen & Hr & Hw) Hroom.
  set (nptr := if (SIZE <=? S (zynmidi_buffer_write s))%nat
               then 0%nat else S (zynmidi_buffer_write s)).
  exists (set_zynmidi (<[zynmidi_buffer_write s := u32 ev]> (zynmidi_buffer s))
            (zynmidi_buffer_read s) nptr s).
  assert (Hn : (nptr < SIZE)%nat /\ nptr <> zynmidi_buffer_read s).
  { subst nptr. revert Hroom. unfold zynmidi_count.
    destruct (Nat.leb_spec SIZE (S (zynmidi_buffer_write s)));
      destruct (Nat.leb_spec (zynmidi_buffer_read s) (zynmidi_buffer_write s)); lia. }
  destruct Hn as [Hn Hne].
  split.
  { unfold write_zynmidi. unfold_monad. fold nptr.
    destruct (Nat.eqb_spec nptr (zynmidi_buffer_read s)); [contradiction |].
    rewrite Hlen, (nat_ltb_true _ _ Hw). reflexivity. }
  split.
  { unfold zynmidi_wf. cbn [set_zynmidi zynmidi_buffer zynmidi_buffer_read
                              zynmidi_buffer_write].
    rewrite length_insert. auto. }
  split; [| reflexivity].
  assert (Hcount : zynmidi_count SIZE
                     (set_zynmidi (<[zynmidi_buffer_write s := u32 ev]> (zynmidi_buffer s))
                        (zynmidi_buffer_read s) nptr s)
                   = S (zynmidi_count SIZE s)).
  { revert Hroom. unfold zynmidi_count.
    cbn [set_zynmidi zynmidi_buffer_read zynmidi_buffer_write]. subst nptr.
    destruct (Nat.leb_spec SIZE (S (zynmidi_buffer_write s)));
      destruct (Nat.leb_spec (zynmidi_buffer_read s) (zynmidi_buffer_write s));
      repeat match goal with
             | |- context [(?a <=? ?b)%nat] => destruct (Nat.leb_spec a b)
             end; lia. }
  unfold zynmidi_queue. rewrite Hcount.
  cbn [set_zynmidi zynmidi_buffer zynmidi_buffer_read].
  rewrite seq_S, map_app. cbn [map]. f_equal.
  - apply map_ext_in. intros k Hk. apply in_seq in Hk.
    rewrite !nth_lookup. rewrite list_lookup_insert_ne; [reflexivity |].
    revert Hk Hroom. unfold rb_index, zynmidi_count.
    destruct (Nat.leb_spec (zynmidi_buffer_read s) (zynmidi_buffer_write s));
      nat_cases; lia.
  - f_equal. rewrite nth_lookup.
    replace (rb_index SIZE (zynmidi_buffer_read s) (0 + zynmidi_count SIZE s))
      with (zynmidi_buffer_write s).
    + rewrite list_lookup_insert_eq by lia. reflexivity.
    + revert Hroom. unfold rb_index, zynmidi_count.
      destruct (Nat.leb_spec (zynmidi_buffer_read s) (zynmidi_buffer_write s));
        nat_cases; lia.
Qed.

(** [write_zynmidi] on a ring in which [SIZE - 1] events wait. *)
Lemma write_zynmidi_full (SIZE : nat) (ev : Z) (s : state) :
  zynmidi_wf SIZE s ->
  (zynmidi_count SIZE s + 1 = SIZE)%nat ->
  write_zynmidi SIZE ev s = Done 0 s.
Proof.
  intros (Hlen & Hr & Hw) Hfull. unfold write_zynmidi. unfold_monad.
  revert Hfull. unfold zynmidi_count.
  destruct (Nat.leb_spec (zynmidi_buffer_read s) (zynmidi_buffer_write s));
    destruct (Nat.leb_spec SIZE (S (zynmidi_buffer_write s))); intros Hfull;
    match goal with
    | |- context [(?a =? ?b)%nat] => destruct (Nat.eqb_spec a b)
    end; try reflexivity; lia.
Qed.

(** A run of [write_zynmidi]: the events that still fit are appended, the
    others refused. *)
Lemma write_zynmidi_each_fills (SIZE : nat) :
  forall (evs : list Z) (s : state),
    zynmidi_wf SIZE s ->
    exists s',
      write_zynmidi_each SIZE evs s
      = Done (replicate (Nat.min (length evs) (SIZE - 1 - zynmidi_count SIZE s)) 1
              ++ replicate (length evs - (SIZE - 1 - zynmidi_count SIZE s)) 0) s'
      /\ zynmidi_wf SIZE s'
      /\ zynmidi_queue SIZE s'
         = zynmidi_queue SIZE s
           ++ map u32 (take (SIZE - 1 - zynmidi_count SIZE s) evs).
Proof.
  induction evs as [| ev evs IH]; intros s Hwf.
  - exists s. cbn. rewrite take_nil, app_nil_r. auto.
  - pose proof (zynmidi_count_bound SIZE s Hwf) as Hbound.
    cbn [write_zynmidi_each length]. unfold bind.
    destruct (Nat.eq_dec (zynmidi_count SIZE s + 1)%nat SIZE) as [Hfull | Hroom].
    + rewrite (write_zynmidi_full SIZE ev s Hwf Hfull).
      destruct (IH s Hwf) as (s' & Hrun & Hwf' & Hq).
      exists s'. rewrite Hrun. unfold ret.
      replace (SIZE - 1 - zynmidi_count SIZE s)%nat with 0%nat in * by lia.
      rewrite Nat.min_0_r in *. rewrite Nat.sub_0_r in *. cbn [replicate app take] in *.
      auto.
    + destruct (write_zynmidi_appends SIZE ev s Hwf) as (s1 & Hw & Hwf1 & Hq1 & _);
        [lia |].
      rewrite Hw.
      assert (Hc1 : zynmidi_count SIZE s1 = S (zynmidi_count SIZE s)).
      { apply (f_equal (@length Z)) in Hq1. unfold zynmidi_queue in Hq1.
        rewrite length_app, !length_map, !length_seq in Hq1. cbn in Hq1. lia. }
      destruct (IH s1 Hwf1) as (s' & Hrun & Hwf' & Hq).
      exists s'. rewrite Hrun. unfold ret. rewrite Hc1 in *.
      destruct (SIZE - 1 - zynmidi_count SIZE s)%nat as [| m] eqn:Hm; [lia |].
      replace (SIZE - 1 - S (zynmidi_count SIZE s))%nat with m in * by lia.
      cbn [Nat.min replicate app take map Nat.sub]. split; [reflexivity |].
      split; [exact Hwf' |]. rewrite Hq, Hq1, <- app_assoc. reflexivity.
Qed.

(** X1: the returned-event ring behaves as a queue of at most [SIZE - 1]
    events under [write_zynmidi]: with fewer waiting the event (reduced
    to 32 bits) is appended behind them and 1 is returned; with
    [SIZE - 1] waiting the call returns 0 and changes nothing, so of a run
    of events the newest are the ones lost. *)
Theorem write_zynmidi_queue :
  forall (SIZE : nat) (ev : Z) (evs : list Z) (s : state),
    zynmidi_wf SIZE s ->
    ((zynmidi_count SIZE s + 1 < SIZE)%nat ->
       exists s',
         write_zynmidi SIZE ev s = Done 1 s'
         /\ zynmidi_wf SIZE s'
         /\ zynmidi_queue SIZE s' = zynmidi_queue SIZE s ++ [u32 ev])
    /\ ((zynmidi_count SIZE s + 1 = SIZE)%nat ->
        write_zynmidi SIZE ev s = Done 0 s)
    /\ (exists s',
          write_zynmidi_each SIZE evs s
          = Done (replicate (Nat.min (length evs) (SIZE - 1 - zynmidi_count SIZE s)) 1
                  ++ replicate (length evs - (SIZE - 1 - zynmidi_count SIZE s)) 0) s'
          /\ zynmidi_queue SIZE s'
             = zynmidi_queue SIZE s
               ++ map u32 (take (SIZE - 1 - zynmidi_count SIZE s) evs))
    /\ length (zynmidi_queue SIZE s) = zynmidi_count SIZE s
    /\ (zynmidi_count SIZE s + 1 <= SIZE)%nat.
Proof.
  intros SIZE ev evs s Hwf. split; [| split; [| split; [| split]]].
  - intros Hroom.
    destruct (write_zynmidi_appends SIZE ev s Hwf Hroom) as (s' & H1 & H2 & H3 & _).
    exists s'. auto.
  - apply write_zynmidi_full. exact Hwf.
  - destruct (write_zynmidi_each_fills SIZE evs s Hwf) as (s' & H1 & _ & H2).
    exists s'. auto.
  - unfold zynmidi_queue. rewrite length_map, length_seq. reflexivity.
  - pose proof (zynmidi_count_bound SIZE s Hwf). lia.
Qed.

Lemma write_zynmidi_queue_witness :
  (exists s',
     write_zynmidi 32 0x5C3 one_encoder = Done 1 s'
     /\ zynmidi_queue 32 s' = [0x5C3])
  /\ write_zynmidi 32 0x5C3 forty_events_written = Done 0 forty_events_written
  /\ zynmidi_queue 32 forty_events_written = map Z.of_nat (seq 1 31).
Proof.
  assert (Hwf : zynmidi_wf 32 one_encoder) by (vm_compute; repeat split; lia).
  destruct (write_zynmidi_queue 32 0x5C3 (map Z.of_nat (seq 1 40)) one_encoder Hwf)
    as (Hroom & _ & Hrun & _).
  split.
  - destruct Hroom as (s' & H1 & _ & H2); [vm_compute; lia |].
    exists s'. split; [exact H1 |]. rewrite H2. vm_compute. reflexivity.
  - assert (Hwf' : zynmidi_wf 32 forty_events_written)
      by (vm_compute; repeat split; lia).
    destruct (write_zynmidi_queue 32 0x5C3 [] forty_events_written Hwf')
      as (_ & Hfull & _).
    split; [apply Hfull; vm_compute; reflexivity |].
    destruct Hrun as (s' & H1 & H2).
    unfold forty_events_written. rewrite H1. cbn [state_of]. rewrite H2.
    vm_compute. reflexivity.
Defined.

(** [read_zynmidi] on the queue. *)
Lemma read_zynmidi_pops (SIZE : nat) (s : state) :
  zynmidi_wf SIZE s ->
  match zynmidi_queue SIZE s with
  | [] => read_zynmidi SIZE s = Done 0 s
  | ev :: rest =>
      exists s',
        read_zynmidi SIZE s = Done ev s'
        /\ zynmidi_wf SIZE s'
        /\ zynmidi_queue SIZE s' = rest
        /\ zynmidi_buffer_write s' = zynmidi_buffer_write s
        /\ zynmidi_buffer s' = zynmidi_buffer s
  end.
Proof.
  intros (Hlen & Hr & Hw).
  unfold zynmidi_queue.
  destruct (zynmidi_count SIZE s) as [| n] eqn:Hcount.
  - cbn [seq map]. unfold read_zynmidi. unfold_monad.
    revert Hcount. unfold zynmidi_count.
    destruct (Nat.leb_spec (zynmidi_buffer_read s) (zynmidi_buffer_write s));
      intros Hcount;
      destruct (Nat.eqb_spec (zynmidi_buffer_read s) (zynmidi_buffer_write s));
      try reflexivity; lia.
  - cbn [seq map].
    set (r' := if (SIZE <=? S (zynmidi_buffer_read s))%nat
               then 0%nat else S (zynmidi_buffer_read s)).
    exists (set_zynmidi (zynmidi_buffer s) r' (zynmidi_buffer_write s) s).
    assert (Hne : zynmidi_buffer_read s <> zynmidi_buffer_write s).
    { revert Hcount. unfold zynmidi_count.
      destruct (Nat.leb_spec (zynmidi_buffer_read s) (zynmidi_buffer_write s)); lia. }
    assert (Hr' : (r' < SIZE)%nat).
    { subst r'. destruct (Nat.leb_spec SIZE (S (zynmidi_buffer_read s))); lia. }
    split.
    { unfold read_zynmidi. unfold_monad.
      destruct (Nat.eqb_spec (zynmidi_buffer_read s) (zynmidi_buffer_write s));
        [contradiction |].
      destruct (lookup_lt_is_Some_2 (zynmidi_buffer s) (zynmidi_buffer_read s))
        as [x Hx]; [lia |].
      rewrite Hx. fold r'. unfold rb_index. rewrite Nat.add_0_r.
      rewrite (nat_ltb_true _ _ Hr). rewrite nth_lookup, Hx. reflexivity. }
    split.
    { unfold zynmidi_wf. cbn [set_zynmidi zynmidi_buffer zynmidi_buffer_read
                                zynmidi_buffer_write]. auto. }
    split; [| split; reflexivity].
    assert (Hcount' : zynmidi_count SIZE
                        (set_zynmidi (zynmidi_buffer s) r' (zynmidi_buffer_write s) s)
                      = n).
    { revert Hcount. unfold zynmidi_count.
      cbn [set_zynmidi zynmidi_buffer_read zynmidi_buffer_write]. subst r'.
      destruct (Nat.leb_spec SIZE (S (zynmidi_buffer_read s)));
        repeat match goal with
               | |- context [(?a <=? ?b)%nat] => destruct (Nat.leb_spec a b)
               end; lia. }
    rewrite Hcount'. cbn [set_zynmidi zynmidi_buffer zynmidi_buffer_read].
    rewrite <- seq_shift, map_map. apply map_ext_in. intros k Hk. apply in_seq in Hk.
    f_equal.
    assert (Hn : (S n < SIZE)%nat).
    { rewrite <- Hcount. apply zynmidi_count_bound. repeat split; assumption. }
    subst r'. unfold rb_index.
    destruct (Nat.leb_spec SIZE (S (zynmidi_buffer_read s))); nat_cases; lia.
Qed.

(** X2: [read_zynmidi] takes the oldest waiting event off the queue and
    returns it; on an empty queue it returns 0 and changes nothing (so an
    event 0 cannot be told from "no event"). Events come out in the order
    [write_zynmidi] accepted them. *)
Theorem read_zynmidi_queue :
  forall (SIZE : nat) (s : state),
    zynmidi_wf SIZE s ->
    (zynmidi_queue SIZE s = [] -> read_zynmidi SIZE s = Done 0 s)
    /\ (forall ev rest,
          zynmidi_queue SIZE s = ev :: rest ->
          exists s',
            read_zynmidi SIZE s = Done ev s'
            /\ zynmidi_wf SIZE s'
            /\ zynmidi_queue SIZE s' = rest)
    /\ (forall ev1 ev2,
          zynmidi_queue SIZE s = [] ->
          (3 <= SIZE)%nat ->
          exists s',
            (r1 <- write_zynmidi SIZE ev1 ;;
             r2 <- write_zynmidi SIZE ev2 ;;
             a <- read_zynmidi SIZE ;;
             b <- read_zynmidi SIZE ;;
             c <- read_zynmidi SIZE ;;
             ret (r1, r2, a, b, c)) s
            = Done (1, 1, u32 ev1, u32 ev2, 0) s'
            /\ zynmidi_queue SIZE s' = []).
Proof.
  intros SIZE s Hwf. split; [| split].
  - intros Hq. pose proof (read_zynmidi_pops SIZE s Hwf) as H.
    rewrite Hq in H. exact H.
  - intros ev rest Hq. pose proof (read_zynmidi_pops SIZE s Hwf) as H.
    rewrite Hq in H. destruct H as (s' & H1 & H2 & H3 & _). exists s'. auto.
  - intros ev1 ev2 Hq Hsize.
    assert (Hc : zynmidi_count SIZE s = 0%nat).
    { apply (f_equal (@length Z)) in Hq. unfold zynmidi_queue in Hq.
      rewrite length_map, length_seq in Hq. exact Hq. }
    destruct (write_zynmidi_appends SIZE ev1 s Hwf) as (s1 & Hw1 & Hwf1 & Hq1 & _);
      [lia |].
    rewrite Hq in Hq1. cbn [app] in Hq1.
    assert (Hc1 : zynmidi_count SIZE s1 = 1%nat).
    { apply (f_equal (@length Z)) in Hq1. unfold zynmidi_queue in Hq1.
      rewrite length_map, length_seq in Hq1. exact Hq1. }
    destruct (write_zynmidi_appends SIZE ev2 s1 Hwf1) as (s2 & Hw2 & Hwf2 & Hq2 & _);
      [lia |].
    rewrite Hq1 in Hq2. cbn [app] in Hq2.
    pose proof (read_zynmidi_pops SIZE s2 Hwf2) as Hr1. rewrite Hq2 in Hr1.
    destruct Hr1 as (s3 & Hr1 & Hwf3 & Hq3 & _).
    pose proof (read_zynmidi_pops SIZE s3 Hwf3) as Hr2. rewrite Hq3 in Hr2.
    destruct Hr2 as (s4 & Hr2 & Hwf4 & Hq4 & _).
    pose proof (read_zynmidi_pops SIZE s4 Hwf4) as Hr3. rewrite Hq4 in Hr3.
    exists s4. split; [| exact Hq4].
    unfold bind. rewrite Hw1, Hw2, Hr1, Hr2, Hr3. reflexivity.
Qed.

Lemma read_zynmidi_queue_witness :
  read_zynmidi 32 one_encoder = Done 0 one_encoder
  /\ (exists s',
        read_zynmidi 32 forty_events_written = Done 1 s'
        /\ zynmidi_queue 32 s' = map Z.of_nat (seq 2 30)).
Proof.
  split.
  - destruct (read_zynmidi_queue 32 one_encoder) as (Hempty & _).
    + vm_compute. repeat split; lia.
    + apply Hempty. vm_compute. reflexivity.
  - destruct (read_zynmidi_queue 32 forty_events_written) as (_ & Hpop & _).
    + vm_compute. repeat split; lia.
    + destruct (Hpop 1 (map Z.of_nat (seq 2 30))) as (s' & H1 & _ & H2);
        [vm_compute; reflexivity |].
      exists s'. auto.
Defined.

(** ** Registered parameter numbers *)

Lemma u8_land_7f (a : Z) : u8 (Z.land a 0x7F) = Z.land a 0x7F.
Proof.
  unfold u8. change 0x7F with (Z.ones 7). rewrite Z.land_ones by lia.
  apply Z.mod_small.
  pose proof (Z.mod_pos_bound a (2 ^ 7) ltac:(lia)). lia.
Qed.

Lemma u8_u8 (a : Z) : u8 (u8 a) = u8 a.
Proof. unfold u8. apply Z.mod_mod. lia. Qed.

(** X3: [zynmidi_set_rpn] never sends the data bytes. With room for two
    messages it queues the controllers 0x65 (RPN MSB) and 0x64 (RPN LSB)
    and returns 0 whatever [rpn] and [data] are, because its test
    [rpn&0x3FFF != 0x3FFF] is always 0; with less than three bytes free it
    queues nothing and returns -1, and with room for one message only it
    queues the MSB alone and returns -1. *)
Theorem zynmidi_set_rpn_sends_no_data :
  forall (chan rpn data : Z) (s : state),
    rb_wf (jack_ring_output_buffer s) ->
    let free := jack_ringbuffer_write_space (jack_ring_output_buffer s) in
    let status := u8 (0xB0 + u8 chan) in
    ((6 <= free)%nat ->
       exists rb',
         zynmidi_set_rpn chan rpn data s = Done 0 (set_ring_output rb' s)
         /\ rb_contents rb'
            = rb_contents (jack_ring_output_buffer s)
              ++ [status; 0x65; Z.land (Z.shiftr rpn 7) 0x7F;
                  status; 0x64; Z.land rpn 0x7F])
    /\ ((3 <= free < 6)%nat ->
        exists s',
          zynmidi_set_rpn chan rpn data s = Done (-1) s'
          /\ rb_contents (jack_ring_output_buffer s')
             = rb_contents (jack_ring_output_buffer s)
               ++ [status; 0x65; Z.land (Z.shiftr rpn 7) 0x7F])
    /\ ((free < 3)%nat ->
        exists s',
          zynmidi_set_rpn chan rpn data s = Done (-1) s'
          /\ jack_ring_output_buffer s' = jack_ring_output_buffer s).
Proof.
  intros chan rpn data s Hwf free status.
  assert (Htest : Z.land rpn (if negb (0x3FFF =? 0x3FFF) then 1 else 0) = 0).
  { cbn [Z.eqb Pos.eqb negb]. apply Z.land_0_r. }
  split; [| split].
  - intros Hfree.
    destruct (jack_write_midi_event_room status 0x65 (Z.land (Z.shiftr rpn 7) 0x7F)
                s Hwf) as (rb1 & Hw1 & Hwf1 & Hs1 & Hc1 & _); [fold free; lia |].
    destruct (jack_write_midi_event_room status 0x64 (Z.land rpn 0x7F)
                (set_ring_output rb1 s)) as (rb2 & Hw2 & _ & _ & Hc2 & _).
    { exact Hwf1. }
    { cbn [set_ring_output jack_ring_output_buffer]. fold free in Hs1. lia. }
    exists rb2. unfold zynmidi_set_rpn, zynmidi_set_control. rewrite Htest.
    rewrite !u8_u8, !u8_land_7f. change (u8 0x65) with 0x65. change (u8 0x64) with 0x64.
    fold status. unfold bind at 1. rewrite Hw1. cbn [Z.eqb negb].
    unfold bind at 1. rewrite Hw2. cbn [Z.eqb negb].
    unfold ret.
    split; [destruct s; reflexivity |].
    rewrite Hc2. cbn [set_ring_output jack_ring_output_buffer].
    rewrite Hc1, <- app_assoc. reflexivity.
  - intros Hfree.
    destruct (jack_write_midi_event_room status 0x65 (Z.land (Z.shiftr rpn 7) 0x7F)
                s Hwf) as (rb1 & Hw1 & Hwf1 & Hs1 & Hc1 & _); [fold free; lia |].
    eexists. unfold zynmidi_set_rpn, zynmidi_set_control.
    rewrite !u8_u8, !u8_land_7f. change (u8 0x65) with 0x65. change (u8 0x64) with 0x64.
    fold status. unfold bind at 1. rewrite Hw1. cbn [Z.eqb negb].
    unfold bind at 1. rewrite jack_write_midi_event_full.
    2:{ cbn [set_ring_output jack_ring_output_buffer]. fold free in Hs1. lia. }
    cbn [Z.eqb negb]. unfold ret. split; [reflexivity |]. exact Hc1.
  - intros Hfree.
    eexists. unfold zynmidi_set_rpn, zynmidi_set_control.
    unfold bind at 1. rewrite jack_write_midi_event_full by (fold free; lia).
    cbn [Z.eqb negb]. unfold ret. split; reflexivity.
Qed.

Lemma zynmidi_set_rpn_sends_no_data_witness :
  exists rb',
    zynmidi_set_rpn 0 0 8192 one_encoder = Done 0 (set_ring_output rb' one_encoder)
    /\ rb_contents rb' = [0xB0; 0x65; 0; 0xB0; 0x64; 0].
Proof.
  assert (Hwf : rb_wf (jack_ring_output_buffer one_encoder)).
  { vm_compute. repeat split; lia. }
  destruct (zynmidi_set_rpn_sends_no_data 0 0 8192 one_encoder Hwf) as (Hroom & _).
  destruct Hroom as (rb' & H1 & H2); [vm_compute; lia |].
  exists rb'. split; [exact H1 |]. rewrite H2. vm_compute. reflexivity.
Defined.

(** ** Switches: quiet passes, measured intervals, setup *)

Lemma seq_lookup_skipped (MAXS : nat) (hw : hardware) (s : state) :
  length (zynswitches s) = MAXS ->
  Forall (fun x => switch_skipped hw x = true) (zynswitches s) ->
  forall j, In j (seq 0 MAXS) ->
    exists y, zynswitches s !! j = Some y /\ switch_skipped hw y = true.
Proof.
  intros Hlen Hall j Hj. apply in_seq in Hj.
  destruct (lookup_lt_is_Some_2 (zynswitches s) j) as [y Hy]; [lia |].
  exists y. split; [exact Hy |]. apply (Forall_lookup_1 _ _ _ _ Hall Hy).
Qed.

(** X4: a notification that brings no new level changes nothing.
    [update_zynswitch] on a switch whose pin reads the level it already has
    returns the state it was given, and so does a whole pass of
    [update_expanded_zynswitches] in which every switch is disabled, on a
    native pin, or at its stored level: no timestamp or duration is
    touched. *)
Theorem unchanged_levels_change_nothing :
  forall (MAXS : nat) (hw : hardware) (s : state),
    length (zynswitches s) = MAXS ->
    (forall i x,
       zynswitches s !! i = Some x ->
       u32 (digitalRead hw (Zynswitch.pin x)) = Zynswitch.status x ->
       update_zynswitch MAXS hw i s = Done tt s)
    /\ (Forall (fun x => switch_skipped hw x = true) (zynswitches s) ->
        update_expanded_zynswitches MAXS hw s = Done tt s).
Proof.
  intros MAXS hw s Hlen. split.
  - intros i x Hx Hsame. unfold update_zynswitch.
    destruct (MAXS <=? i)%nat; [reflexivity |].
    unfold_monad. rewrite Hx.
    destruct (Zynswitch.enabled x =? 0); [reflexivity |].
    rewrite Hsame, Z.eqb_refl. reflexivity.
  - intros Hall. unfold update_expanded_zynswitches.
    rewrite <- (app_nil_r (seq 0 MAXS)).
    rewrite update_expanded_zynswitches_loop_skip; [reflexivity |].
    apply seq_lookup_skipped; assumption.
Qed.

Lemma unchanged_levels_change_nothing_witness :
  update_zynswitch 8 (pins_at [] 9000) 2 three_switches = Done tt three_switches
  /\ update_expanded_zynswitches 8 (pins_at [] 9000) three_switches
     = Done tt three_switches.
Proof.
  destruct (unchanged_levels_change_nothing 8 (pins_at [] 9000) three_switches)
    as [Hisr Hpoll].
  - vm_compute. reflexivity.
  - split.
    + apply (Hisr 2%nat (Zynswitch.mk 1 23 5000 0 0)); vm_compute; reflexivity.
    + apply Hpoll. vm_compute. repeat constructor.
Defined.

(** X5: the interval between an edge to level 0 and the following edge to
    level 1 is measured once and read once. For an enabled switch at
    status 1, [update_zynswitch] seeing level 0 at a time [t0 > 0] and then
    level 1 at [t1], with [1000 <= t1 - t0 < 2^31], leaves [t1 - t0] in
    [dtus]; the first [get_zynswitch_dtus] returns it and clears it, the
    second returns 0. *)
Theorem switch_interval_read_once :
  forall (MAXS i : nat) (hw0 hw1 : hardware) (s : state) (x : Zynswitch.st),
    length (zynswitches s) = MAXS ->
    zynswitches s !! i = Some x ->
    Zynswitch.enabled x <> 0 ->
    Zynswitch.status x = 1 ->
    u32 (digitalRead hw0 (Zynswitch.pin x)) = 0 ->
    u32 (digitalRead hw1 (Zynswitch.pin x)) = 1 ->
    0 < clock_tsus hw0 ->
    1000 <= clock_tsus hw1 - clock_tsus hw0 < 2 ^ 31 ->
    (run update_zynswitch MAXS hw0 i ;;
     run update_zynswitch MAXS hw1 i ;;
     first <- get_zynswitch_dtus MAXS i ;;
     second <- get_zynswitch_dtus MAXS i ;;
     ret (first, second)) s
    = Done (clock_tsus hw1 - clock_tsus hw0, 0)
        (set_zynswitches
           (<[i := Zynswitch.mk (Zynswitch.enabled x) (Zynswitch.pin x)
                                (clock_tsus hw0) 0 1]> (zynswitches s)) s).
Proof.
  intros MAXS i hw0 hw1 s x Hlen Hx Hon Hst H0 H1 Ht0 Hd.
  assert (Hi : (i < MAXS)%nat) by (rewrite <- Hlen; apply (lookup_lt_Some _ _ _ Hx)).
  assert (Hstep : forall (hw : hardware) (y y' : Zynswitch.st) (l : list Zynswitch.st),
             length l = MAXS ->
             l !! i = Some y ->
             Zynswitch.enabled y <> 0 ->
             u32 (digitalRead hw (Zynswitch.pin y)) <> Zynswitch.status y ->
             fst (switch_edge (clock_tsus hw) (u32 (digitalRead hw (Zynswitch.pin y))) y)
             = y' ->
             update_zynswitch MAXS hw i (set_zynswitches l s)
             = Done tt (set_zynswitches (<[i := y']> l) s)).
  { intros hw y y' l Hl Hy Hyon Hne Hedge. unfold update_zynswitch.
    rewrite (nat_leb_false _ _ Hi). unfold_monad.
    cbn [set_zynswitches zynswitches]. rewrite Hy, (z_eqb_false _ _ Hyon).
    rewrite (z_eqb_false _ _ Hne), Hedge. cbn [set_zynswitches zynswitches].
    rewrite Hl, (nat_ltb_true _ _ Hi). reflexivity. }
  assert (Hs : s = set_zynswitches (zynswitches s) s) by (destruct s; reflexivity).
  set (x0 := Zynswitch.mk (Zynswitch.enabled x) (Zynswitch.pin x) (clock_tsus hw0)
                          (Zynswitch.dtus x) 0).
  set (x1 := Zynswitch.mk (Zynswitch.enabled x) (Zynswitch.pin x) (clock_tsus hw0)
                          (clock_tsus hw1 - clock_tsus hw0) 1).
  assert (Hrun0 : update_zynswitch MAXS hw0 i s
                  = Done tt (set_zynswitches (<[i := x0]> (zynswitches s)) s)).
  { pose proof (Hstep hw0 x x0 (zynswitches s) Hlen Hx Hon) as Hrun.
    rewrite <- Hs in Hrun. apply Hrun.
    - rewrite H0, Hst. discriminate.
    - rewrite H0. unfold switch_edge. cbn. reflexivity. }
  assert (Hrun1 : update_zynswitch MAXS hw1 i
                    (set_zynswitches (<[i := x0]> (zynswitches s)) s)
                  = Done tt (set_zynswitches (<[i := x1]> (zynswitches s)) s)).
  { replace (<[i := x1]> (zynswitches s))
      with (<[i := x1]> (<[i := x0]> (zynswitches s)))
      by apply list_insert_insert_eq.
    apply (Hstep hw1 x0).
    - rewrite length_insert. exact Hlen.
    - apply list_lookup_insert_eq. lia.
    - exact Hon.
    - cbn [x0 Zynswitch.pin Zynswitch.status]. rewrite H1. discriminate.
    - cbn [x0 Zynswitch.pin]. rewrite H1. unfold switch_edge. cbn.
      rewrite s32_small by lia. rewrite (z_ltb_false _ 1000) by lia.
      rewrite (z_ltb_true 0) by lia. cbn. rewrite u32_small by lia. reflexivity. }
  assert (Hget : forall (y : Zynswitch.st) (l : list Zynswitch.st),
             length l = MAXS ->
             l !! i = Some y ->
             get_zynswitch_dtus MAXS i (set_zynswitches l s)
             = Done (Zynswitch.dtus y)
                 (set_zynswitches (<[i := Zynswitch.set_dtus 0 y]> l) s)).
  { intros y l Hl Hy. unfold get_zynswitch_dtus.
    rewrite (nat_leb_false _ _ Hi). unfold_monad.
    cbn [set_zynswitches zynswitches]. rewrite Hy.
    cbn [set_zynswitches zynswitches]. rewrite Hl, (nat_ltb_true _ _ Hi).
    reflexivity. }
  unfold bind at 1. rewrite Hrun0. unfold bind at 1. rewrite Hrun1.
  unfold bind at 1.
  rewrite (Hget x1) by (rewrite ?length_insert; try apply list_lookup_insert_eq; lia).
  unfold bind at 1.
  rewrite (Hget (Zynswitch.set_dtus 0 x1))
    by (rewrite ?length_insert; try apply list_lookup_insert_eq;
        rewrite ?length_insert; lia).
  unfold ret. rewrite !list_insert_insert_eq. reflexivity.
Qed.

Lemma switch_interval_read_once_witness :
  (run update_zynswitch 8 (pins_at [] 6000) 1 ;;
   run update_zynswitch 8 (pins_at [(101, 1)] 2506000) 1 ;;
   first <- get_zynswitch_dtus 8 1 ;;
   second <- get_zynswitch_dtus 8 1 ;;
   ret (first, second))
    (state_of (update_zynswitch 8 pressed_late 1 three_switches))
  = Done (2500000, 0)
      (set_zynswitches
         (<[1%nat := Zynswitch.mk 1 101 6000 0 1]>
            (zynswitches (state_of (update_zynswitch 8 pressed_late 1 three_switches))))
         (state_of (update_zynswitch 8 pressed_late 1 three_switches))).
Proof.
  apply (switch_interval_read_once 8 1 (pins_at [] 6000)
           (pins_at [(101, 1)] 2506000)
           (state_of (update_zynswitch 8 pressed_late 1 three_switches))
           (Zynswitch.mk 1 101 0 0 1)).
  - vm_compute. reflexivity.
  - vm_compute. reflexivity.
  - discriminate.
  - reflexivity.
  - vm_compute. reflexivity.
  - vm_compute. reflexivity.
  - reflexivity.
  - cbn. lia.
Defined.

(** X6: [setup_zynswitch] on an index inside the table returns the
    pointer to its slot and leaves the switch enabled on [pin] with
    timestamp and duration 0. A native pin (0 < pin < 100) is sampled at
    once and [status] holds the level read, with nothing measured; any
    other pin is left at status 0. No other switch is touched. The
    interrupt handler of a native pin is read from the table of eight
    handlers: there the index has to be below 8, and with a longer switch
    table an index from 8 on is an access outside the table of handlers. *)
Theorem setup_zynswitch_fresh_switch :
  forall (MAXS i : nat) (hw : hardware) (pin : Z) (s : state),
    length (zynswitches s) = MAXS ->
    (i < MAXS)%nat ->
    0 <= u32 (digitalRead hw pin) <= 1 ->
    ((0 < pin < 100 -> (i < 8)%nat) ->
     setup_zynswitch MAXS hw i pin s
     = Done (Some i)
         (set_zynswitches
            (<[i := Zynswitch.mk 1 pin 0 0
                     (if (0 <? pin) && (pin <? 100)
                      then u32 (digitalRead hw pin) else 0)]>
               (zynswitches s)) s))
    /\ (0 < pin < 100 -> (8 <= i)%nat ->
        setup_zynswitch MAXS hw i pin s = OutOfBounds).
Proof.
  intros MAXS i hw pin s Hlen Hi Hlevel.
  assert (Hnative : (0 <? pin) && (pin <? 100) = true <-> 0 < pin < 100).
  { rewrite andb_true_iff, !Z.ltb_lt. reflexivity. }
  split.
  - intros Hfunc.
    unfold setup_zynswitch. rewrite (nat_leb_false _ _ Hi).
    unfold store_zynswitch at 1. unfold bind at 1.
    rewrite Hlen, (nat_ltb_true _ _ Hi).
    destruct ((0 <? pin) && (pin <? 100)).
    + unfold isr_func. rewrite (nat_ltb_true i 8) by (apply Hfunc, Hnative; reflexivity).
      unfold update_zynswitch. rewrite (nat_leb_false _ _ Hi).
      unfold_monad. cbn [set_zynswitches zynswitches].
      rewrite list_lookup_insert_eq by lia.
      cbn [Zynswitch.enabled Zynswitch.pin Zynswitch.status Z.eqb].
      destruct (Z.eqb_spec (u32 (digitalRead hw pin)) 0) as [Hlow | Hhigh].
      * rewrite Hlow. reflexivity.
      * assert (Hone : u32 (digitalRead hw pin) = 1) by lia.
        rewrite Hone. cbn [Z.eqb Pos.eqb set_zynswitches zynswitches].
        rewrite length_insert, Hlen, (nat_ltb_true _ _ Hi).
        unfold switch_edge.
        cbn [Zynswitch.set_status Zynswitch.status Zynswitch.tsus Z.eqb Pos.eqb].
        destruct (s32 (clock_tsus hw - 0) <? 1000); cbn [Z.ltb Z.compare fst];
          rewrite list_insert_insert_eq; reflexivity.
    + unfold ret. reflexivity.
  - intros Hpin Hpast.
    unfold setup_zynswitch. rewrite (nat_leb_false _ _ Hi).
    unfold store_zynswitch at 1. unfold bind at 1.
    rewrite Hlen, (nat_ltb_true _ _ Hi).
    rewrite (proj2 Hnative Hpin).
    unfold isr_func, bind, fault. rewrite (proj2 (Nat.ltb_ge i 8)) by lia.
    reflexivity.
Qed.

Lemma setup_zynswitch_fresh_switch_witness :
  setup_zynswitch 8 (pins_at [(23, 1)] 7000) 5 23 three_switches
  = Done (Some 5%nat)
      (set_zynswitches
         (<[5%nat := Zynswitch.mk 1 23 0 0 1]> (zynswitches three_switches))
         three_switches)
  /\ setup_zynswitch 12 (pins_at [(23, 1)] 7000) 9 23 (zero_globals 12 4 32)
     = OutOfBounds.
Proof.
  split.
  - apply (setup_zynswitch_fresh_switch 8 5 (pins_at [(23, 1)] 7000) 23 three_switches).
    + vm_compute. reflexivity.
    + lia.
    + vm_compute. split; discriminate.
    + intros _. lia.
  - apply (setup_zynswitch_fresh_switch 12 9 (pins_at [(23, 1)] 7000) 23
             (zero_globals 12 4 32)).
    + vm_compute. reflexivity.
    + lia.
    + vm_compute. split; discriminate.
    + lia.
    + lia.
Defined.

(** ** Encoders: what an edge changes and when it sends *)

Lemma zyncoder_tick_configuration (tsus dtus : Z) (up down : bool) (e : Zyncoder.st) :
  same_configuration e (fst (zyncoder_tick tsus dtus up down e))
  /\ Zyncoder.value (fst (zyncoder_tick tsus dtus up down e)) = Zyncoder.value e.
Proof.
  unfold zyncoder_tick, same_configuration.
  repeat match goal with
         | |- context [if ?c then _ else _] => destruct c
         end; cbn; repeat split; reflexivity.
Qed.

Lemma zyncoder_step_configuration (up down : bool) (e : Zyncoder.st) :
  same_configuration e (zyncoder_step up down e)
  /\ Zyncoder.subvalue (zyncoder_step up down e) = Zyncoder.subvalue e.
Proof.
  unfold zyncoder_step, same_configuration.
  repeat match goal with
         | |- context [if ?c then _ else _] => destruct c
         end; cbn; repeat split; reflexivity.
Qed.

(** X7: an edge never alters the configuration of an encoder and sends
    only when the stored value changed. For an enabled encoder
    [update_zyncoder] writes back a struct with the same [enabled], pins,
    MIDI channel and controller, OSC path, [max_value] and [step]; if its
    [value] equals the old one nothing else in the state changes (no
    message is queued or sent), and otherwise the call ends in exactly one
    [send_zyncoder] on the updated table. *)
Theorem update_zyncoder_sends_on_change :
  forall (MAXC i : nat) (hw : hardware) (s : state) (e : Zyncoder.st),
    (i < MAXC)%nat ->
    zyncoders s !! i = Some e ->
    Zyncoder.enabled e <> 0 ->
    exists e',
      same_configuration e e'
      /\ update_zyncoder MAXC hw i s
         = if Zyncoder.value e' =? Zyncoder.value e
           then Done tt (set_zyncoders (<[i := e']> (zyncoders s)) s)
           else send_zyncoder MAXC i (set_zyncoders (<[i := e']> (zyncoders s)) s).
Proof.
  intros MAXC i hw s e Hi He Hon.
  pose proof (lookup_lt_Some _ _ _ He) as Hlen.
  unfold update_zyncoder. rewrite (nat_leb_false _ _ Hi).
  unfold load_zyncoder. unfold bind at 1. rewrite He, (z_eqb_false _ _ Hon).
  cbv zeta.
  match goal with
  | |- context [Zyncoder.set_last_encoded ?enc e] =>
      set (e1 := Zyncoder.set_last_encoded enc e)
  end.
  assert (Hc1 : same_configuration e e1) by (repeat split; reflexivity).
  assert (Hv1 : Zyncoder.value e1 = Zyncoder.value e) by reflexivity.
  assert (Hi' : (i <? length (zyncoders s))%nat = true) by (apply nat_ltb_true; lia).
  destruct (Zyncoder.step e1 =? 0).
  - destruct (u32 (clock_tsus hw - Zyncoder.tsus e1) <? 1000).
    + exists e1. split; [exact Hc1 |]. rewrite Hv1, Z.eqb_refl.
      unfold store_zyncoder. rewrite Hi'. reflexivity.
    + match goal with
      | |- context [zyncoder_tick ?a ?b ?c ?d e1] =>
          pose proof (zyncoder_tick_configuration a b c d e1) as [Hc2 Hv2];
          destruct (zyncoder_tick a b c d e1) as [e2 v]
      end.
      cbn [fst] in Hc2, Hv2.
      assert (Hc : same_configuration e e2).
      { unfold same_configuration in *. intuition congruence. }
      destruct (0 <=? v); cbn [andb].
      * destruct (Z.eqb_spec (Zyncoder.value e2) (u32 v)) as [Hsame | Hdiff];
          cbn [negb].
        -- exists e2. split; [exact Hc |].
           rewrite Hv2, Hv1, Z.eqb_refl.
           unfold store_zyncoder. rewrite Hi'. reflexivity.
        -- exists (Zyncoder.set_value (u32 v) e2). split.
           ++ unfold same_configuration in *. cbn. intuition congruence.
           ++ cbn [Zyncoder.value Zyncoder.set_value].
              rewrite (z_eqb_false (u32 v) (Zyncoder.value e)) by congruence.
              unfold store_zyncoder, bind. rewrite Hi'. reflexivity.
      * exists e2. split; [exact Hc |].
        rewrite Hv2, Hv1, Z.eqb_refl.
        unfold store_zyncoder. rewrite Hi'. reflexivity.
  - match goal with
    | |- context [zyncoder_step ?u ?d e1] =>
        pose proof (zyncoder_step_configuration u d e1) as [Hc2 _];
        set (e2 := zyncoder_step u d e1) in *
    end.
    exists e2. split.
    + unfold same_configuration in *. intuition congruence.
    + rewrite Hv1, (Z.eqb_sym (Zyncoder.value e2)).
      unfold store_zyncoder, bind. rewrite Hi'.
      destruct (Zyncoder.value e =? Zyncoder.value e2); reflexivity.
Qed.

Lemma update_zyncoder_sends_on_change_witness :
  exists e',
    same_configuration
      (Zyncoder.mk 1 25 27 0 7 EmptyString 508 0 0 0 0 0 [0; 0; 0; 0]) e'
    /\ update_zyncoder 4 (pins_at [(25, 1)] (2 ^ 32 + 40000)) 0 one_encoder
       = if Zyncoder.value e' =? 0
         then Done tt (set_zyncoders (<[0%nat := e']> (zyncoders one_encoder))
                                     one_encoder)
         else send_zyncoder 4 0
                (set_zyncoders (<[0%nat := e']> (zyncoders one_encoder)) one_encoder).
Proof.
  apply (update_zyncoder_sends_on_change 4 0 (pins_at [(25, 1)] (2 ^ 32 + 40000))
           one_encoder
           (Zyncoder.mk 1 25 27 0 7 EmptyString 508 0 0 0 0 0 [0; 0; 0; 0])).
  - lia.
  - vm_compute. reflexivity.
  - discriminate.
Defined.









(** ** Encoder setup *)

(** [rearmed] against its three tests. *)
Lemma rearmed_false (e : Zyncoder.st) (pa pb : Z) :
  rearmed e pa pb = false
  <-> Zyncoder.enabled e <> 0 /\ Zyncoder.pin_a e = pa /\ Zyncoder.pin_b e = pb.
Proof.
  unfold rearmed. rewrite !orb_false_iff, !negb_false_iff, !Z.eqb_eq, Z.eqb_neq.
  tauto.
Qed.



(** ** Inbound events in the realtime callback *)

(** One pass of the loop over the encoders for a three-byte event. *)
Lemma jack_process_cc_loop_cons
    (ev : jack_midi_event) (b0 b1 b2 : Z) (j : nat) (rest : list nat)
    (e : Zyncoder.st) (s : state) :
  ev_buffer ev = [b0; b1; b2] ->
  zyncoders s !! j = Some e ->
  jack_process_cc_loop ev (j :: rest) s
  = jack_process_cc_loop ev rest
      (set_zyncoders (<[j := cc_echo b0 b1 b2 e]> (zyncoders s)) s).
Proof.
  intros Hbuf He.
  assert (Hj : (j <? length (zyncoders s))%nat = true).
  { apply nat_ltb_true. eapply lookup_lt_Some. exact He. }
  assert (Hsame : set_zyncoders (<[j := e]> (zyncoders s)) s = s).
  { rewrite list_insert_id by exact He. destruct s. reflexivity. }
  cbn [jack_process_cc_loop].
  unfold load_zyncoder, store_zyncoder, ev_byte, bind, ret. rewrite He, Hbuf.
  change ([b0; b1; b2] !! 0%nat) with (Some b0).
  change ([b0; b1; b2] !! 1%nat) with (Some b1).
  change ([b0; b1; b2] !! 2%nat) with (Some b2).
  unfold cc_echo.
  destruct (Zyncoder.enabled e =? 0); cbn [negb andb]; [rewrite Hsame; reflexivity |].
  destruct (Zyncoder.midi_chan e =? Z.land b0 15); cbn [negb andb];
    [| rewrite Hsame; reflexivity].
  destruct (Zyncoder.midi_ctrl e =? b1); [| rewrite Hsame; reflexivity].
  rewrite Hj. reflexivity.
Qed.

(** The loop over the encoders [k], ..., [k + n - 1]. *)
Lemma jack_process_cc_loop_range
    (ev : jack_midi_event) (b0 b1 b2 : Z) :
  ev_buffer ev = [b0; b1; b2] ->
  forall (n k : nat) (s : state),
    (k + n <= length (zyncoders s))%nat ->
    exists l',
      jack_process_cc_loop ev (seq k n) s = Done tt (set_zyncoders l' s)
      /\ forall j,
           l' !! j = if (k <=? j)%nat && (j <? k + n)%nat
                     then cc_echo b0 b1 b2 <$> zyncoders s !! j
                     else zyncoders s !! j.
Proof.
  intros Hbuf. induction n as [| n IH]; intros k s Hlen.
  - exists (zyncoders s). split; [destruct s; reflexivity |].
    intros j. destruct (Nat.leb_spec k j); destruct (Nat.ltb_spec j (k + 0));
      try reflexivity; lia.
  - destruct (lookup_lt_is_Some_2 (zyncoders s) k) as [e He]; [lia |].
    cbn [seq]. rewrite (jack_process_cc_loop_cons ev b0 b1 b2 k _ e s Hbuf He).
    destruct (IH (S k) (set_zyncoders (<[k := cc_echo b0 b1 b2 e]> (zyncoders s)) s))
      as (l' & Hrun & Hl').
    { cbn [set_zyncoders zyncoders]. rewrite length_insert. lia. }
    exists l'. split; [rewrite Hrun; reflexivity |].
    intros j. rewrite Hl'. cbn [set_zyncoders zyncoders].
    destruct (Nat.eq_dec j k) as [-> | Hne].
    + rewrite list_lookup_insert_eq by lia. rewrite He.
      destruct (Nat.leb_spec (S k) k); [lia |].
      destruct (Nat.leb_spec k k); [| lia].
      destruct (Nat.ltb_spec k (k + S n)); [| lia]. reflexivity.
    + rewrite list_lookup_insert_ne by lia.
      destruct (Nat.leb_spec (S k) j); destruct (Nat.leb_spec k j);
        destruct (Nat.ltb_spec j (S k + n)); destruct (Nat.ltb_spec j (k + S n));
        try reflexivity; lia.
Qed.

(** X12: an inbound three-byte Control Change is echoed into every enabled
    encoder whose channel equals the low nibble of the status byte and
    whose controller equals the second byte: each of them, not only the
    first, gets the third byte as value and four times it as sub-tick
    counter, and no other encoder changes. The event is then copied to the
    input ring if three places are free there and dropped silently if not;
    nothing is sent, printed or returned to the application. *)
Theorem control_change_echo_every_match :
  forall (MAXC SIZE : nat) (b0 b1 b2 : Z) (s : state),
    length (zyncoders s) = MAXC ->
    Z.shiftr b0 4 = 0xB ->
    jack_process_input_event MAXC SIZE (mk_event 3 [b0; b1; b2]) s
    = Done None
        (let s1 := set_zyncoders (map (cc_echo b0 b1 b2) (zyncoders s)) s in
         if (3 <=? jack_ringbuffer_write_space (jack_ring_input_buffer s))%nat
         then set_ring_input
                (snd (jack_ringbuffer_write (jack_ring_input_buffer s) [b0; b1; b2] 3))
                s1
         else s1).
Proof.
  intros MAXC SIZE b0 b1 b2 s Hlen Htype.
  destruct (jack_process_cc_loop_range (mk_event 3 [b0; b1; b2]) b0 b1 b2 eq_refl
              MAXC 0 s) as (l' & Hrun & Hl'); [lia |].
  assert (Hmap : l' = map (cc_echo b0 b1 b2) (zyncoders s)).
  { apply list_eq. intros j. rewrite Hl', list_lookup_fmap.
    destruct (Nat.leb_spec 0 j); [| lia].
    destruct (Nat.ltb_spec j (0 + MAXC)); cbn [andb]; [reflexivity |].
    rewrite lookup_ge_None_2 by lia. reflexivity. }
  subst l'.
  unfold jack_process_input_event, ev_byte. unfold bind at 1. cbn [ev_buffer ev_size].
  change ([b0; b1; b2] !! 0%nat) with (Some b0). cbv beta iota.
  rewrite Htype. cbn [Z.eqb Pos.eqb orb].
  unfold bind at 1. rewrite Hrun.
  unfold bind, ret, get_state, modify, print.
  cbn [set_zyncoders jack_ring_input_buffer].
  destruct (Nat.leb_spec 3 (jack_ringbuffer_write_space (jack_ring_input_buffer s)))
    as [Hroom | Hfull]; [| reflexivity].
  unfold jack_ringbuffer_write.
  destruct (Nat.eqb_spec (jack_ringbuffer_write_space (jack_ring_input_buffer s)) 0);
    [lia |].
  destruct (Nat.ltb_spec (jack_ringbuffer_write_space (jack_ring_input_buffer s)) 3);
    [lia |].
  reflexivity.
Qed.

Lemma control_change_echo_every_match_witness :
  jack_process_input_event 4 32 (mk_event 3 [0xB0; 7; 100]) one_encoder
  = Done None
      (let s1 := set_zyncoders (map (cc_echo 0xB0 7 100) (zyncoders one_encoder))
                               one_encoder in
       if (3 <=? jack_ringbuffer_write_space (jack_ring_input_buffer one_encoder))%nat
       then set_ring_input
              (snd (jack_ringbuffer_write (jack_ring_input_buffer one_encoder)
                      [0xB0; 7; 100] 3))
              s1
       else s1).
Proof.
  apply control_change_echo_every_match.
  - vm_compute. reflexivity.
  - reflexivity.
Defined.

(** The input loop from event number [i] on, over events of other types
    than Control Change and Program Change. *)
Lemma jack_process_input_loop_ignored (MAXC SIZE : nat) (nframes : Z) :
  forall (events : list jack_midi_event) (i : nat) (s : state),
    Forall (fun ev => exists b0, ev_buffer ev !! 0%nat = Some b0
                                 /\ Z.shiftr b0 4 <> 0xB /\ Z.shiftr b0 4 <> 0xC)
           events ->
    Z.of_nat i <= nframes + 1 ->
    jack_process_input_loop MAXC SIZE nframes events i s
    = if Z.of_nat i + Z.of_nat (length events) <=? nframes + 1
      then Done 0 s
      else Done (-1) (set_console (console s ++ [TooManyInputEvents]) s).
Proof.
  induction events as [| ev events IH]; intros i s Hall Hi.
  - cbn [jack_process_input_loop length]. rewrite z_leb_true by lia. reflexivity.
  - inversion Hall as [| ? ? (b0 & Hb0 & HB & HC) Hrest]; subst.
    cbn [jack_process_input_loop length]. unfold bind at 1.
    unfold jack_process_input_event, ev_byte. unfold bind at 1. rewrite Hb0.
    cbv beta iota. rewrite (z_eqb_false _ _ HB), (z_eqb_false _ _ HC).
    cbn [orb]. unfold ret at 1. cbv beta iota.
    destruct (Z.ltb_spec nframes (Z.of_nat i)) as [Hover | Hin].
    + rewrite z_leb_false by lia. reflexivity.
    + rewrite IH by (try assumption; lia).
      destruct (Z.leb_spec (Z.of_nat (S i) + Z.of_nat (length events)) (nframes + 1));
        [rewrite z_leb_true by lia | rewrite z_leb_false by lia]; reflexivity.
Qed.

(** X13: events that are neither Control Change nor Program Change change
    nothing, and the input scan of a period of [nframes] frames takes
    [nframes + 1] of them: it returns 0 with the state as it was. With
    more events it prints the too-many-events line and returns -1. *)
Theorem other_input_events_ignored :
  forall (MAXC SIZE : nat) (nframes : Z) (events : list jack_midi_event) (s : state),
    0 <= nframes ->
    Forall (fun ev => exists b0, ev_buffer ev !! 0%nat = Some b0
                                 /\ Z.shiftr b0 4 <> 0xB /\ Z.shiftr b0 4 <> 0xC)
           events ->
    jack_process_midi_input MAXC SIZE nframes events s
    = if Z.of_nat (length events) <=? nframes + 1
      then Done 0 s
      else Done (-1) (set_console (console s ++ [TooManyInputEvents]) s).
Proof.
  intros MAXC SIZE nframes events s Hframes Hall.
  unfold jack_process_midi_input.
  rewrite (jack_process_input_loop_ignored MAXC SIZE nframes events 0 s Hall)
    by (cbn; lia).
  reflexivity.
Qed.

Lemma other_input_events_ignored_witness :
  jack_process_midi_input 4 32 2
    [mk_event 3 [0x90; 60; 100]; mk_event 3 [0x80; 60; 0]; mk_event 3 [0xE0; 0; 64]]
    one_encoder = Done 0 one_encoder
  /\ jack_process_midi_input 4 32 2
       [mk_event 3 [0x90; 60; 100]; mk_event 3 [0x80; 60; 0]; mk_event 3 [0xE0; 0; 64];
        mk_event 1 [0xF8]]
       one_encoder
     = Done (-1) (set_console (console one_encoder ++ [TooManyInputEvents]) one_encoder).
Proof.
  split.
  - apply (other_input_events_ignored 4 32 2
             [mk_event 3 [0x90; 60; 100]; mk_event 3 [0x80; 60; 0];
              mk_event 3 [0xE0; 0; 64]] one_encoder); [lia |].
    repeat constructor; eexists; (split; [reflexivity |]); split; discriminate.
  - apply (other_input_events_ignored 4 32 2
             [mk_event 3 [0x90; 60; 100]; mk_event 3 [0x80; 60; 0];
              mk_event 3 [0xE0; 0; 64]; mk_event 1 [0xF8]] one_encoder); [lia |].
    repeat constructor; eexists; (split; [reflexivity |]); split; discriminate.
Defined.

(** ** The outbound ring drained by the realtime callback *)

Lemma rb_get_n_rest :
  forall (n : nat) (rb : jack_ringbuffer),
    (rb_read_ptr rb < rb_size rb)%nat ->
    (n <= rb_size rb)%nat ->
    snd (rb_get_n n rb)
    = mk_ringbuffer (rb_buf rb) (rb_write_ptr rb)
        (rb_index (rb_size rb) (rb_read_ptr rb) n) (rb_size rb).
Proof.
  induction n as [| n IH]; intros rb Hr Hn.
  - cbn [rb_get_n snd]. unfold rb_index. rewrite Nat.add_0_r.
    rewrite (nat_ltb_true _ _ Hr). destruct rb. reflexivity.
  - cbn [rb_get_n]. unfold rb_get at 1.
    destruct (rb_get_n n _) as [bs rb2] eqn:Hrest. cbn [snd].
    change rb2 with (snd (bs, rb2)). rewrite <- Hrest.
    rewrite IH; cbn [rb_read_ptr rb_size rb_buf rb_write_ptr];
      [| apply rb_next_lt; exact Hr | lia].
    rewrite rb_index_next by lia. reflexivity.
Qed.

Lemma rb_contents_length (rb : jack_ringbuffer) :
  rb_wf rb -> length (rb_contents rb) = jack_ringbuffer_read_space rb.
Proof.
  intros Hwf. pose proof (rb_space_sum rb Hwf) as Hsum.
  destruct Hwf as (Hlen & Hw & Hr).
  unfold rb_contents. rewrite rb_get_n_bytes by lia.
  rewrite length_map, length_seq. reflexivity.
Qed.

(** Reading all that is queued: the bytes in order, and the read index
    moved up to the write index. *)
Lemma jack_ringbuffer_read_all (rb : jack_ringbuffer) :
  rb_wf rb ->
  jack_ringbuffer_read rb (jack_ringbuffer_read_space rb)
  = (rb_contents rb,
     mk_ringbuffer (rb_buf rb) (rb_write_ptr rb) (rb_write_ptr rb) (rb_size rb)).
Proof.
  intros Hwf. pose proof (rb_space_sum rb Hwf) as Hsum.
  destruct Hwf as (Hlen & Hw & Hr).
  unfold jack_ringbuffer_read, rb_contents.
  destruct (Nat.eqb_spec (jack_ringbuffer_read_space rb) 0) as [H0 | Hpos].
  - rewrite H0. cbn [rb_get_n fst]. f_equal.
    assert (Heq : rb_read_ptr rb = rb_write_ptr rb).
    { revert H0. unfold jack_ringbuffer_read_space. nat_cases; lia. }
    destruct rb. cbn in Heq. subst. reflexivity.
  - rewrite Nat.ltb_irrefl.
    rewrite (surjective_pairing (rb_get_n (jack_ringbuffer_read_space rb) rb)) at 1.
    f_equal. rewrite rb_get_n_rest by lia. f_equal.
    unfold rb_index, jack_ringbuffer_read_space. nat_cases; lia.
Qed.

Lemma message_bytes_length (msgs : list (Z * Z * Z)) :
  length (concat (map message_bytes msgs)) = (3 * length msgs)%nat.
Proof.
  induction msgs as [| [[b0 b1] b2] msgs IH]; [reflexivity |].
  cbn [map concat message_bytes]. rewrite length_app, IH. cbn [length]. lia.
Qed.

(** The loop over the queued records, from event number [i] on: every
    reservation is granted, or the loop ends in the write through NULL. *)
Lemma jack_process_output_loop_records (nframes : Z) (room : nat) :
  forall (msgs : list (Z * Z * Z)) (front rest : list Z) (i : nat) (s : state),
    jack_midi_data s = front ++ concat (map message_bytes msgs) ++ rest ->
    jack_process_output_loop nframes room (length msgs) (length front) i s
    = if (length msgs =? 0)%nat
         || ((Z.of_nat i + Z.of_nat (length msgs) <=? nframes)
             && (length (jack_midi_output_port s) + length msgs <=? room)%nat)
      then Done None
             (set_output_port (jack_midi_output_port s ++ map output_event msgs) s)
      else OutOfBounds.
Proof.
  induction msgs as [| [[b0 b1] b2] msgs IH]; intros front rest i s Hdata.
  - cbn [length jack_process_output_loop map Nat.eqb orb]. unfold ret.
    rewrite app_nil_r. destruct s. reflexivity.
  - cbn [length jack_process_output_loop Nat.eqb orb].
    unfold bind at 1. unfold get_state at 1. cbv beta iota.
    assert (Hb0 : jack_midi_data s !! length front = Some b0).
    { rewrite Hdata. rewrite lookup_app_r by lia. rewrite Nat.sub_diag. reflexivity. }
    rewrite Hb0.
    assert (Hdrop : drop (length front) (jack_midi_data s)
                    = b0 :: b1 :: b2 :: concat (map message_bytes msgs) ++ rest).
    { rewrite Hdata, drop_app_length. reflexivity. }
    assert (Hlen : (length front + 3 <= length (jack_midi_data s))%nat).
    { rewrite Hdata, !length_app. cbn [map concat message_bytes length app]. lia. }
    assert (Hevent :
              take (if (Z.shiftr b0 4 =? 12) || (Z.shiftr b0 4 =? 13)
                    then 2%nat else 3%nat)
                   (drop (length front) (jack_midi_data s))
              = output_event (b0, b1, b2)).
    { rewrite Hdrop. unfold output_event.
      destruct ((Z.shiftr b0 4 =? 12) || (Z.shiftr b0 4 =? 13)); reflexivity. }
    assert (Hfit : (length front
                    + (if (Z.shiftr b0 4 =? 12)%Z || (Z.shiftr b0 4 =? 13)%Z
                       then 2 else 3)
                    <=? length (jack_midi_data s))%nat = true).
    { apply Nat.leb_le.
      destruct ((Z.shiftr b0 4 =? 12) || (Z.shiftr b0 4 =? 13)); lia. }
    destruct (Z.ltb_spec (Z.of_nat i) nframes) as [Htime | Htime];
      destruct (Nat.ltb_spec (length (jack_midi_output_port s)) room)
        as [Hroom | Hroom];
      cbn [andb negb].
    2, 3, 4:
      unfold fault;
      destruct (Z.leb_spec (Z.of_nat i + Z.of_nat (S (length msgs))) nframes);
      destruct (Nat.leb_spec (length (jack_midi_output_port s) + S (length msgs)) room);
      cbn [andb]; try reflexivity; lia.
    rewrite Hfit, Hevent.
    unfold bind at 1. unfold modify at 1. cbv beta iota.
    rewrite (proj2 (Z.ltb_ge nframes (Z.of_nat i))) by lia.
    replace (length front + 3)%nat with (length (front ++ [b0; b1; b2]))
      by (rewrite length_app; reflexivity).
    rewrite (IH (front ++ [b0; b1; b2]) rest (S i)).
    2:{ cbn [set_output_port jack_midi_data]. rewrite Hdata, <- app_assoc.
        reflexivity. }
    cbn [set_output_port jack_midi_output_port]. rewrite length_app.
    cbn [length map].
    destruct (Nat.eqb_spec (length msgs) 0);
      destruct (Z.leb_spec (Z.of_nat (S i) + Z.of_nat (length msgs)) nframes);
      destruct (Nat.leb_spec (length (jack_midi_output_port s) + 1 + length msgs) room);
      destruct (Z.leb_spec (Z.of_nat i + Z.of_nat (S (length msgs))) nframes);
      destruct (Nat.leb_spec (length (jack_midi_output_port s) + S (length msgs)) room);
      cbn [orb andb]; try lia; try reflexivity;
      rewrite <- app_assoc; reflexivity.
Qed.

(** The output block on a ring that holds whole messages, at most 256 of
    them. *)
Lemma jack_process_midi_output_records :
  forall (nframes : Z) (room : nat) (msgs : list (Z * Z * Z)) (s : state),
    rb_wf (jack_ring_output_buffer s) ->
    rb_contents (jack_ring_output_buffer s) = concat (map message_bytes msgs) ->
    length (jack_midi_data s) = (3 * 256)%nat ->
    (length msgs <= 256)%nat ->
    0 <= nframes ->
    exists s',
      jack_process_midi_output nframes room s
      = (if (Z.of_nat (length msgs) <=? nframes) && (length msgs <=? room)%nat
         then Done None s' else OutOfBounds)
      /\ jack_midi_output_port s' = map output_event msgs
      /\ jack_ringbuffer_read_space (jack_ring_output_buffer s') = 0%nat
      /\ rb_contents (jack_ring_output_buffer s') = []
      /\ console s' = console s
      /\ zyncoders s' = zyncoders s
      /\ zynswitches s' = zynswitches s.
Proof.
  intros nframes room msgs s Hwf Hcontents Hdata Hcount Hframes.
  pose proof (rb_contents_length _ Hwf) as Hspace.
  rewrite Hcontents, message_bytes_length in Hspace.
  pose proof (jack_ringbuffer_read_all _ Hwf) as Hread.
  rewrite Hcontents in Hread.
  set (rb' := mk_ringbuffer (rb_buf (jack_ring_output_buffer s))
                (rb_write_ptr (jack_ring_output_buffer s))
                (rb_write_ptr (jack_ring_output_buffer s))
                (rb_size (jack_ring_output_buffer s))) in *.
  assert (Hempty : jack_ringbuffer_read_space rb' = 0%nat).
  { unfold jack_ringbuffer_read_space, rb'. cbn [rb_write_ptr rb_read_ptr].
    rewrite Nat.ltb_irrefl. reflexivity. }
  set (s2 := set_ring_output rb'
               (set_midi_data
                  (concat (map message_bytes msgs)
                   ++ drop (length (concat (map message_bytes msgs)))
                        (jack_midi_data s))
                  (set_output_port [] s))).
  assert (Hout : jack_process_midi_output nframes room s
                 = jack_process_output_loop nframes room (length msgs) 0 0 s2).
  { unfold jack_process_midi_output.
    unfold bind, modify, get_state.
    cbn [set_output_port jack_ring_output_buffer jack_midi_data].
    rewrite Hread. rewrite message_bytes_length, Hdata.
    destruct (Nat.ltb_spec (3 * 256) (3 * length msgs)) as [Hbig | _]; [lia |].
    rewrite <- Hspace, Nat.eqb_refl. cbn [negb].
    replace ((3 * length msgs + 2) / 3)%nat with (length msgs).
    - subst s2. rewrite message_bytes_length. reflexivity.
    - rewrite (Nat.mul_comm 3), Nat.div_add_l by lia.
      change (2 / 3)%nat with 0%nat. lia. }
  pose proof (jack_process_output_loop_records nframes room msgs []
                (drop (length (concat (map message_bytes msgs))) (jack_midi_data s))
                0 s2 eq_refl) as Hloop.
  cbn [length] in Hloop. rewrite Hloop in Hout. clear Hloop.
  exists (set_output_port (map output_event msgs) s2).
  split.
  { rewrite Hout.
    cbn [s2 set_ring_output set_midi_data set_output_port jack_midi_output_port
         length app Nat.add].
    change (Z.of_nat 0 + Z.of_nat (length msgs)) with (Z.of_nat (length msgs)).
    destruct (Nat.eqb_spec (length msgs) 0) as [Hnone | Hsome]; [| reflexivity].
    cbn [orb]. rewrite Hnone.
    destruct (Z.leb_spec (Z.of_nat 0) nframes); destruct (Nat.leb_spec 0 room);
      cbn [andb]; try reflexivity; lia. }
  split; [reflexivity |]. split; [exact Hempty |].
  split; [unfold rb_contents; cbn [s2 set_output_port set_ring_output
                                   jack_ring_output_buffer];
          rewrite Hempty; reflexivity |].
  split; [reflexivity |]. split; reflexivity.
Qed.

(** X14: the output block of [jack_process] on a ring that holds whole
    messages, at most 256 of them. If the period has at least as many
    frames as there are messages and the output port takes that many
    events, the ring is emptied and each message becomes one event on the
    port, in the order queued: the first two bytes for a Program Change
    or Channel Pressure status, all three bytes otherwise; nothing is
    printed and 0 is returned when no input event comes. With more
    messages than frames, or than the port takes, libjack refuses a
    reservation and the callback writes through the NULL it got: it never
    reaches its own too-many-events return. *)
Theorem jack_process_drains_output_ring :
  forall (MAXC SIZE : nat) (nframes : Z) (room : nat) (msgs : list (Z * Z * Z))
         (s : state),
    rb_wf (jack_ring_output_buffer s) ->
    rb_contents (jack_ring_output_buffer s) = concat (map message_bytes msgs) ->
    length (jack_midi_data s) = (3 * 256)%nat ->
    (length msgs <= 256)%nat ->
    0 <= nframes ->
    (Z.of_nat (length msgs) <= nframes -> (length msgs <= room)%nat ->
     exists s',
       jack_process MAXC SIZE nframes room [] s = Done 0 s'
       /\ jack_midi_output_port s' = map output_event msgs
       /\ jack_ringbuffer_read_space (jack_ring_output_buffer s') = 0%nat
       /\ rb_contents (jack_ring_output_buffer s') = []
       /\ console s' = console s
       /\ zyncoders s' = zyncoders s
       /\ zynswitches s' = zynswitches s)
    /\ (nframes < Z.of_nat (length msgs) \/ (room < length msgs)%nat ->
        forall events, jack_process MAXC SIZE nframes room events s = OutOfBounds).
Proof.
  intros MAXC SIZE nframes room msgs s Hwf Hcontents Hdata Hcount Hframes.
  destruct (jack_process_midi_output_records nframes room msgs s Hwf Hcontents
              Hdata Hcount Hframes) as (s' & Hout & Hrest).
  split.
  - intros Htime Hroom. exists s'.
    rewrite (z_leb_true _ _ Htime), (proj2 (Nat.leb_le _ _) Hroom) in Hout.
    split; [| exact Hrest].
    unfold jack_process. unfold bind. rewrite Hout. reflexivity.
  - intros Hmany events.
    unfold jack_process. unfold bind. rewrite Hout.
    destruct (Z.leb_spec (Z.of_nat (length msgs)) nframes);
      destruct (Nat.leb_spec (length msgs) room); cbn [andb]; try reflexivity; lia.
Qed.

Lemma jack_process_drains_output_ring_witness :
  (exists s',
     jack_process 4 32 64 256 []
       (state_of (jack_write_midi_events
                    (map message_bytes [(0xB0, 7, 100); (0xC3, 5, 0); (0x90, 60, 1)])
                    one_encoder))
     = Done 0 s'
     /\ jack_midi_output_port s' = [[0xB0; 7; 100]; [0xC3; 5]; [0x90; 60; 1]]
     /\ jack_ringbuffer_read_space (jack_ring_output_buffer s') = 0%nat)
  /\ jack_process 4 32 2 256 []
       (state_of (jack_write_midi_events
                    (map message_bytes [(0xB0, 7, 100); (0xC3, 5, 0); (0x90, 60, 1)])
                    one_encoder))
     = OutOfBounds.
Proof.
  split.
  - destruct (jack_process_drains_output_ring 4 32 64 256
                [(0xB0, 7, 100); (0xC3, 5, 0); (0x90, 60, 1)]
                (state_of (jack_write_midi_events
                             (map message_bytes
                                  [(0xB0, 7, 100); (0xC3, 5, 0); (0x90, 60, 1)])
                             one_encoder)))
      as [Hdrain _].
    + vm_compute. repeat split; lia.
    + vm_compute. reflexivity.
    + vm_compute. reflexivity.
    + cbn. lia.
    + lia.
    + destruct Hdrain as (s' & Hrun & Hport & Hempty & _); [cbn; lia | cbn; lia |].
      exists s'. split; [exact Hrun |]. split; [exact Hport | exact Hempty].
  - destruct (jack_process_drains_output_ring 4 32 2 256
                [(0xB0, 7, 100); (0xC3, 5, 0); (0x90, 60, 1)]
                (state_of (jack_write_midi_events
                             (map message_bytes
                                  [(0xB0, 7, 100); (0xC3, 5, 0); (0x90, 60, 1)])
                             one_encoder)))
      as [_ Hfault].
    + vm_compute. repeat split; lia.
    + vm_compute. reflexivity.
    + vm_compute. reflexivity.
    + cbn. lia.
    + lia.
    + apply Hfault. left. cbn. lia.
Defined.

(** ** The staging array of the realtime callback *)

(** X15: the outbound ring takes more messages than [jack_process] can
    stage. From the empty ring of [init_zyncoder_midi], which holds 1023
    bytes, 257 to 341 messages are all accepted with 0; the next
    [jack_process] then copies more than the [3*256] bytes of
    [jack_midi_data] into it, an access outside the array. *)
Theorem jack_process_overruns_jack_midi_data :
  forall (MAXC SIZE : nat) (nframes : Z) (room : nat) (events : list jack_midi_event)
         (msgs : list (Z * Z * Z)) (s : state),
    jack_ring_output_buffer s = jack_ringbuffer_create (3 * 256) ->
    length (jack_midi_data s) = (3 * 256)%nat ->
    (256 < length msgs <= 341)%nat ->
    exists s1,
      jack_write_midi_events (map message_bytes msgs) s
      = Done (replicate (length msgs) 0) s1
      /\ jack_process MAXC SIZE nframes room events s1 = OutOfBounds.
Proof.
  intros MAXC SIZE nframes room events msgs s Hring Hdata Hcount.
  assert (Hwf : rb_wf (jack_ring_output_buffer s)).
  { rewrite Hring. vm_compute. repeat split; lia. }
  assert (Hfree : jack_ringbuffer_write_space (jack_ring_output_buffer s) = 1023%nat).
  { rewrite Hring. vm_compute. reflexivity. }
  assert (Hnone : rb_contents (jack_ring_output_buffer s) = []).
  { rewrite Hring. vm_compute. reflexivity. }
  destruct (jack_write_midi_events_room msgs s Hwf) as (rb' & Hrun & Hwf' & _ & Hcont);
    [lia |].
  rewrite Hnone in Hcont. cbn [app] in Hcont.
  exists (set_ring_output rb' s). split; [exact Hrun |].
  pose proof (rb_contents_length _ Hwf') as Hspace.
  rewrite Hcont, message_bytes_length in Hspace.
  unfold jack_process, jack_process_midi_output.
  unfold bind, modify, get_state.
  cbn [set_output_port set_ring_output jack_ring_output_buffer jack_midi_data].
  rewrite (jack_ringbuffer_read_all _ Hwf'), Hcont, message_bytes_length, Hdata.
  destruct (Nat.ltb_spec (3 * 256) (3 * length msgs)) as [_ | Hfits]; [| lia].
  reflexivity.
Qed.

Lemma jack_process_overruns_jack_midi_data_witness :
  exists s1,
    jack_write_midi_events (map message_bytes (replicate 257 (0xB0, 7, 1))) one_encoder
    = Done (replicate 257 0) s1
    /\ jack_process 4 32 64 256 [] s1 = OutOfBounds.
Proof.
  apply (jack_process_overruns_jack_midi_data 4 32 64 256 []
           (replicate 257 (0xB0, 7, 1)) one_encoder).
  - vm_compute. reflexivity.
  - vm_compute. reflexivity.
  - rewrite length_replicate. lia.
Defined.

(** ** From the sending functions to the output port *)

Lemma u8_small (x : Z) : 0 <= x < 2 ^ 8 -> u8 x = x.
Proof. intros H. unfold u8. apply Z.mod_small. exact H. Qed.

(** X16: a Control Change and a Program Change queued with
    [zynmidi_set_control] and [zynmidi_set_program] on an empty outbound
    ring leave with the next [jack_process], in a period of at least two
    frames whose output port takes two events, as two events in that
    order: [0xB0 + chan, ctrl, val] and the two bytes [0xC0 + chan, prgm];
    the zero that [zynmidi_set_program] queues as third byte is not
    sent. *)
Theorem queued_messages_reach_output_port :
  forall (MAXC SIZE : nat) (nframes : Z) (room : nat) (chan ctrl val prgm : Z)
         (s : state),
    rb_wf (jack_ring_output_buffer s) ->
    jack_ringbuffer_read_space (jack_ring_output_buffer s) = 0%nat ->
    (6 <= jack_ringbuffer_write_space (jack_ring_output_buffer s))%nat ->
    length (jack_midi_data s) = (3 * 256)%nat ->
    0 <= chan <= 15 -> 0 <= ctrl < 256 -> 0 <= val < 256 -> 0 <= prgm < 256 ->
    2 <= nframes ->
    (2 <= room)%nat ->
    exists s1 s2 s3,
      zynmidi_set_control chan ctrl val s = Done 0 s1
      /\ zynmidi_set_program chan prgm s1 = Done 0 s2
      /\ jack_process MAXC SIZE nframes room [] s2 = Done 0 s3
      /\ jack_midi_output_port s3 = [[0xB0 + chan; ctrl; val]; [0xC0 + chan; prgm]]
      /\ jack_ringbuffer_read_space (jack_ring_output_buffer s3) = 0%nat.
Proof.
  intros MAXC SIZE nframes room chan ctrl val prgm s Hwf Hidle Hfree Hdata
         Hchan Hctrl Hval Hprgm Hframes Hroom.
  assert (Hnone : rb_contents (jack_ring_output_buffer s) = []).
  { unfold rb_contents. rewrite Hidle. reflexivity. }
  destruct (jack_write_midi_event_room (0xB0 + chan) ctrl val s Hwf) as
    (rb1 & Hrun1 & Hwf1 & Hfree1 & Hcont1 & _); [lia |].
  destruct (jack_write_midi_event_room (0xC0 + chan) prgm 0 (set_ring_output rb1 s))
    as (rb2 & Hrun2 & Hwf2 & _ & Hcont2 & _).
  { exact Hwf1. }
  { cbn [set_ring_output jack_ring_output_buffer]. lia. }
  cbn [set_ring_output jack_ring_output_buffer] in Hrun2, Hcont2.
  rewrite Hcont1, Hnone in Hcont2. cbn [app] in Hcont2.
  destruct (jack_process_midi_output_records nframes room
              [(0xB0 + chan, ctrl, val); (0xC0 + chan, prgm, 0)]
              (set_ring_output rb2 s))
    as (s3 & Hrun3 & Hport & Hempty & _).
  { exact Hwf2. }
  { exact Hcont2. }
  { exact Hdata. }
  { cbn [length]. lia. }
  { lia. }
  cbn [length] in Hrun3.
  rewrite z_leb_true, (proj2 (Nat.leb_le 2 room) Hroom) in Hrun3 by lia.
  exists (set_ring_output rb1 s), (set_ring_output rb2 s), s3.
  split.
  { unfold zynmidi_set_control.
    rewrite (u8_small chan), (u8_small ctrl), (u8_small val), (u8_small (0xB0 + chan))
      by lia.
    exact Hrun1. }
  split.
  { unfold zynmidi_set_program.
    rewrite (u8_small chan), (u8_small prgm), (u8_small (0xC0 + chan)) by lia.
    exact Hrun2. }
  split.
  { unfold jack_process. unfold bind. rewrite Hrun3. reflexivity. }
  split; [| exact Hempty].
  rewrite Hport.
  assert (HB : Z.shiftr (0xB0 + chan) 4 = 0xB).
  { rewrite Z.shiftr_div_pow2 by lia. change (2 ^ 4) with 16.
    symmetry. apply (Z.div_unique (176 + chan) 16 11 chan); lia. }
  assert (HC : Z.shiftr (0xC0 + chan) 4 = 0xC).
  { rewrite Z.shiftr_div_pow2 by lia. change (2 ^ 4) with 16.
    symmetry. apply (Z.div_unique (192 + chan) 16 12 chan); lia. }
  cbn [map output_event]. rewrite HB, HC. reflexivity.
Qed.

Lemma queued_messages_reach_output_port_witness :
  exists s1 s2 s3,
    zynmidi_set_control 2 7 100 one_encoder = Done 0 s1
    /\ zynmidi_set_program 2 5 s1 = Done 0 s2
    /\ jack_process 4 32 64 256 [] s2 = Done 0 s3
    /\ jack_midi_output_port s3 = [[0xB0 + 2; 7; 100]; [0xC0 + 2; 5]]
    /\ jack_ringbuffer_read_space (jack_ring_output_buffer s3) = 0%nat.
Proof.
  apply (queued_messages_reach_output_port 4 32 64 256 2 7 100 5 one_encoder).
  - vm_compute. repeat split; lia.
  - vm_compute. reflexivity.
  - vm_compute. lia.
  - vm_compute. reflexivity.
  - lia.
  - lia.
  - lia.
  - lia.
  - lia.
  - lia.
Defined.

(** ** Initialisation *)

Lemma update_zynswitch_disabled
    (MAXS : nat) (hw : hardware) (i : nat) (s : state) :
  length (zynswitches s) = MAXS ->
  Forall (fun x => Zynswitch.enabled x = 0) (zynswitches s) ->
  update_zynswitch MAXS hw i s = Done tt s.
Proof.
  intros Hlen Hoff. unfold update_zynswitch.
  destruct (Nat.leb_spec MAXS i) as [Hout | Hin]; [reflexivity |].
  destruct (lookup_lt_is_Some_2 (zynswitches s) i) as [x Hx]; [lia |].
  unfold load_zynswitch, bind, ret. rewrite Hx.
  rewrite (Forall_lookup_1 _ _ _ _ Hoff Hx). reflexivity.
Qed.

Lemma encoder_calls_disabled (MAXC : nat) (calls : list encoder_call) (s : state) :
  length (zyncoders s) = MAXC ->
  Forall (fun e => Zyncoder.enabled e = 0) (zyncoders s) ->
  encoder_calls MAXC calls s = Done tt s.
Proof.
  intros Hlen Hoff. induction calls as [| call calls IH]; [reflexivity |].
  assert (Hcall : (match call with
                   | CallUpdate hw i => update_zyncoder MAXC hw i
                   | CallSetValue i v => set_value_zyncoder MAXC i v
                   | CallSend i => send_zyncoder MAXC i
                   end) s = Done tt s).
  { destruct call as [hw i | i v | i];
      [unfold update_zyncoder | unfold set_value_zyncoder | unfold send_zyncoder];
      (destruct (Nat.leb_spec MAXC i) as [Hout | Hin]; [reflexivity |]);
      (destruct (lookup_lt_is_Some_2 (zyncoders s) i) as [e He]; [lia |]);
      unfold load_zyncoder, bind, ret; rewrite He;
      rewrite (Forall_lookup_1 _ _ _ _ Hoff He); reflexivity. }
  destruct call; cbn [encoder_calls]; unfold bind; rewrite Hcall; exact IH.
Qed.

(** X17: [init_zyncoder], given a port that [sprintf] prints in at most
    seven characters, returns whatever the tables held, and returns 0
    exactly when JACK answers every call of [init_zyncoder_midi]; that
    [init_zyncoder_osc] returns -1 for port 0 is not reported, and the OSC
    address is then left as it was. Whatever the result, every switch and
    encoder is left disabled, so that until the next setup every switch
    notification, polling pass, encoder notification,
    [set_value_zyncoder] and [send_zyncoder] changes nothing, and the
    returned-event ring is empty; the values of the encoders and the pins
    of the switches are not cleared. When the result is 0 both JACK rings
    are fresh, with 1023 bytes free. A port of eight or more characters
    is printed past the end of [osc_port_str]. *)
Theorem init_zyncoder_disables_everything :
  forall (MAXS MAXC SIZE : nat) (env : init_environment) (osc_port : Z) (s : state),
    length (zynswitches s) = MAXS ->
    length (zyncoders s) = MAXC ->
    length (zynmidi_buffer s) = SIZE ->
    ((sprintf_d_length osc_port < 8)%nat ->
     exists code s',
       init_zyncoder env osc_port s = Done code s'
       /\ (code = 0 <-> jack_started env = true)
       /\ (forall hw i, update_zynswitch MAXS hw i s' = Done tt s')
       /\ (forall hw, update_expanded_zynswitches MAXS hw s' = Done tt s')
       /\ (forall calls, encoder_calls MAXC calls s' = Done tt s')
       /\ read_zynmidi SIZE s' = Done 0 s'
       /\ (code = 0 ->
           jack_ring_output_buffer s' = jack_ringbuffer_create (3 * 256)
           /\ jack_ring_input_buffer s' = jack_ringbuffer_create (3 * 256)
           /\ jack_ringbuffer_write_space (jack_ring_output_buffer s') = 1023%nat)
       /\ osc_lo_addr s' = (if osc_port =? 0 then osc_lo_addr s else Some osc_port)
       /\ map Zyncoder.value (zyncoders s') = map Zyncoder.value (zyncoders s)
       /\ map Zynswitch.pin (zynswitches s') = map Zynswitch.pin (zynswitches s))
    /\ (osc_port <> 0 -> (8 <= sprintf_d_length osc_port)%nat ->
        init_zyncoder env osc_port s = OutOfBounds).
Proof.
  intros MAXS MAXC SIZE env osc_port s HlenS HlenC HlenM. split.
  2:{ intros Hport Hlong.
      unfold init_zyncoder, init_poll_zynswitches, init_zyncoder_osc,
        bind, modify, print, fault.
      rewrite (z_eqb_false _ _ Hport). cbn [negb].
      rewrite (proj2 (Nat.leb_gt (sprintf_d_length osc_port + 1) 8)) by lia.
      destruct (pthread_create_ok env); reflexivity. }
  intros Hshort.
  assert (Hprint : (sprintf_d_length osc_port + 1 <=? 8)%nat = true)
    by (apply Nat.leb_le; lia).
  assert (Hrun : exists code s',
             init_zyncoder env osc_port s = Done code s'
             /\ (code = 0 <-> jack_started env = true)
             /\ zynswitches s'
                = map (fun x => Zynswitch.mk 0 (Zynswitch.pin x) (Zynswitch.tsus x)
                                  (Zynswitch.dtus x) (Zynswitch.status x))
                      (zynswitches s)
             /\ zyncoders s'
                = map (fun e => Zyncoder.set_dtus [0; 0; 0; 0]
                                  (Zyncoder.set_enabled 0 e)) (zyncoders s)
             /\ zynmidi_buffer_read s' = 0%nat
             /\ zynmidi_buffer_write s' = 0%nat
             /\ (code = 0 ->
                 jack_ring_output_buffer s' = jack_ringbuffer_create (3 * 256)
                 /\ jack_ring_input_buffer s' = jack_ringbuffer_create (3 * 256))
             /\ osc_lo_addr s' = (if osc_port =? 0 then osc_lo_addr s else Some osc_port)).
  { unfold init_zyncoder, init_poll_zynswitches, init_zyncoder_osc,
      init_zyncoder_midi, jack_started, bind, modify, print, ret.
    rewrite Hprint.
    destruct env as [thread client outp inp outl inl act].
    cbn [pthread_create_ok jack_client_open_ok output_port_register_ok
         input_port_register_ok output_mlock_ok input_mlock_ok jack_activate_ok].
    destruct (osc_port =? 0); destruct thread; destruct client; destruct outp;
      destruct inp; destruct outl; destruct inl; destruct act; cbn [negb andb];
      eexists; eexists; (split; [reflexivity |]);
      (split; [split; intros Hcode; (reflexivity || discriminate Hcode) |]);
      (split; [reflexivity |]); (split; [reflexivity |]);
      (split; [reflexivity |]); (split; [reflexivity |]);
      (split; [| reflexivity]); intros Hcode;
      try discriminate Hcode; split; reflexivity. }
  destruct Hrun as (code & s' & Hrun & Hcode & Hsw & Hen & Hr & Hw & Hrings & Hosc).
  assert (HoffS : Forall (fun x => Zynswitch.enabled x = 0) (zynswitches s')).
  { rewrite Hsw. apply Forall_map. apply Forall_forall. intros x _. reflexivity. }
  assert (HoffC : Forall (fun e => Zyncoder.enabled e = 0) (zyncoders s')).
  { rewrite Hen. apply Forall_map. apply Forall_forall. intros e _. reflexivity. }
  assert (HlenS' : length (zynswitches s') = MAXS)
    by (rewrite Hsw, length_map; exact HlenS).
  assert (HlenC' : length (zyncoders s') = MAXC)
    by (rewrite Hen, length_map; exact HlenC).
  exists code, s'. split; [exact Hrun |]. split; [exact Hcode |].
  split; [intros hw i; apply update_zynswitch_disabled; assumption |].
  split.
  { intros hw. unfold update_expanded_zynswitches.
    rewrite <- (app_nil_r (seq 0 MAXS)).
    rewrite update_expanded_zynswitches_loop_skip; [reflexivity |].
    apply seq_lookup_skipped; [exact HlenS' |].
    eapply Forall_impl; [exact HoffS |].
    intros x Hx. unfold switch_skipped. cbv beta in Hx. rewrite Hx. reflexivity. }
  split; [intros calls; apply encoder_calls_disabled; assumption |].
  split.
  { unfold read_zynmidi, bind, get_state. rewrite Hr, Hw. reflexivity. }
  split.
  { intros H0. destruct (Hrings H0) as [Hout Hin].
    split; [exact Hout |]. split; [exact Hin |].
    rewrite Hout. vm_compute. reflexivity. }
  split; [exact Hosc |].
  split.
  - rewrite Hen, map_map. apply map_ext. intros e. destruct e. reflexivity.
  - rewrite Hsw, map_map. apply map_ext. intros x. reflexivity.
Qed.

Lemma init_zyncoder_disables_everything_witness :
  (exists s',
     init_zyncoder (mk_init_environment true true true false true true true) 1370
       three_switches = Done (-2) s'
     /\ update_zynswitch 8 (pins_at [(23, 1)] 9000) 2 s' = Done tt s'
     /\ update_expanded_zynswitches 8 (pins_at [(100, 1)] 9000) s' = Done tt s'
     /\ encoder_calls 4 [CallSetValue 0 5; CallSend 0] s' = Done tt s')
  /\ init_zyncoder running 12345678 three_switches = OutOfBounds.
Proof.
  split.
  - destruct (init_zyncoder_disables_everything 8 4 32
                (mk_init_environment true true true false true true true) 1370
                three_switches) as [Hinit _].
    + vm_compute. reflexivity.
    + vm_compute. reflexivity.
    + vm_compute. reflexivity.
    + destruct Hinit as (code & s' & Hrun & _ & Hswitch & Hpoll & Hcalls & _).
      { vm_compute. lia. }
      exists s'. split.
      { rewrite Hrun. f_equal.
        assert (Hsame : Done code s'
                        = init_zyncoder
                            (mk_init_environment true true true false true true true)
                            1370 three_switches) by (symmetry; exact Hrun).
        vm_compute in Hsame. injection Hsame as Hc _. exact Hc. }
      split; [apply Hswitch |]. split; [apply Hpoll | apply Hcalls].
  - destruct (init_zyncoder_disables_everything 8 4 32 running 12345678
                three_switches) as [_ Hfault].
    + vm_compute. reflexivity.
    + vm_compute. reflexivity.
    + vm_compute. reflexivity.
    + apply Hfault; [discriminate | vm_compute; lia].
Defined.

(** ** Setting an encoder up again *)

(** X18: where [setup_zyncoder] returns (the path fits the [osc_path]
    array and, if handlers are registered, the index is inside the table
    of eight handlers), it never clears the recorded intervals [dtus]. On
    an enabled encoder that already has the given pins it keeps the decoder
    state as well ([enabled], [last_encoded] and the timestamp [tsus]), so
    only the MIDI and OSC assignment, the mode and the value change. On a
    disabled slot, or with another pin, it enables the encoder on the given
    pins with [last_encoded] and [tsus] zeroed. *)
Theorem setup_zyncoder_keeps_decoder_state :
  forall (MAXC OSC i : nat) (pa pb chan ctrl : Z) (path : option string)
         (value max_value step : Z) (s : state) (e : Zyncoder.st),
    (i < MAXC)%nat ->
    zyncoders s !! i = Some e ->
    path_fits OSC path ->
    (rearmed e pa pb = true -> pa <> pb -> (i < 8)%nat) ->
    exists e',
      setup_zyncoder MAXC OSC i pa pb chan ctrl path value max_value step s
      = Done (Some i) (set_zyncoders (<[i := e']> (zyncoders s)) s)
      /\ Zyncoder.dtus e' = Zyncoder.dtus e
      /\ (Zyncoder.enabled e <> 0 -> Zyncoder.pin_a e = pa -> Zyncoder.pin_b e = pb ->
          Zyncoder.enabled e' = Zyncoder.enabled e
          /\ Zyncoder.pin_a e' = pa /\ Zyncoder.pin_b e' = pb
          /\ Zyncoder.last_encoded e' = Zyncoder.last_encoded e
          /\ Zyncoder.tsus e' = Zyncoder.tsus e)
      /\ (Zyncoder.enabled e = 0 \/ Zyncoder.pin_a e <> pa \/ Zyncoder.pin_b e <> pb ->
          Zyncoder.enabled e' = 1
          /\ Zyncoder.pin_a e' = pa /\ Zyncoder.pin_b e' = pb
          /\ Zyncoder.last_encoded e' = 0
          /\ Zyncoder.tsus e' = 0).
Proof.
  intros MAXC OSC i pa pb chan ctrl path value max_value step s e Hi He Hpath Hfunc.
  destruct (setup_zyncoder_fields MAXC OSC i pa pb chan ctrl path value max_value
              step s e Hi He Hpath Hfunc)
    as (e' & Hrun & _ & _ & _ & _ & _ & _ & _ & Hdt & Hen & Hpa & Hpb & Hle & Hts).
  exists e'. split; [exact Hrun |]. split; [exact Hdt |].
  split.
  - intros Hon Hsa Hsb.
    assert (Harm : rearmed e pa pb = false) by (apply rearmed_false; tauto).
    rewrite Harm in Hen, Hpa, Hpb, Hle, Hts. repeat split; congruence.
  - intros Hnew.
    assert (Harm : rearmed e pa pb = true).
    { destruct (rearmed e pa pb) eqn:Hr; [reflexivity |].
      apply rearmed_false in Hr. tauto. }
    rewrite Harm in Hen, Hpa, Hpb, Hle, Hts. repeat split; assumption.
Qed.

Lemma setup_zyncoder_keeps_decoder_state_witness :
  exists e',
    setup_zyncoder 4 512 0 25 27 3 10 None 5 100 0 settled_encoder
    = Done (Some 0%nat)
        (set_zyncoders (<[0%nat := e']> (zyncoders settled_encoder)) settled_encoder)
    /\ Zyncoder.dtus e' = [40000; 40000; 40000; 40000]
    /\ Zyncoder.tsus e' = 2 ^ 32 + 160000.
Proof.
  destruct (setup_zyncoder_keeps_decoder_state 4 512 0 25 27 3 10 None 5 100 0
              settled_encoder
              (Zyncoder.mk 1 25 27 0 7 EmptyString 508 0 0 0 0 (2 ^ 32 + 160000)
                 [40000; 40000; 40000; 40000]))
    as (e' & Hrun & Hdtus & Hsame & _).
  - lia.
  - vm_compute. reflexivity.
  - exact I.
  - intros _ _. lia.
  - exists e'. split; [exact Hrun |]. split; [exact Hdtus |].
    destruct Hsame as (_ & _ & _ & _ & Htsus); [discriminate | reflexivity .. |].
    exact Htsus.
Defined.

(** X19: the two places where [setup_zyncoder] leaves its objects, for an
    index inside the encoder table. A path of as many characters as the
    [osc_path] array has, or more, is copied past the end of the array
    (the closing zero included). An index from 8 on, possible when the
    encoder table is longer than the table of eight handlers, reads past
    the handlers when the encoder is armed anew on two different pins. *)
Theorem setup_zyncoder_leaves_its_arrays :
  forall (MAXC OSC i : nat) (pa pb chan ctrl : Z) (path : option string)
         (value max_value step : Z) (s : state) (e : Zyncoder.st),
    (i < MAXC)%nat ->
    zyncoders s !! i = Some e ->
    (forall p, path = Some p -> (OSC <= String.length p)%nat ->
       setup_zyncoder MAXC OSC i pa pb chan ctrl path value max_value step s
       = OutOfBounds)
    /\ (path_fits OSC path -> rearmed e pa pb = true -> pa <> pb -> (8 <= i)%nat ->
        setup_zyncoder MAXC OSC i pa pb chan ctrl path value max_value step s
        = OutOfBounds).
Proof.
  intros MAXC OSC i pa pb chan ctrl path value max_value step s e Hi He.
  pose proof (lookup_lt_Some _ _ _ He) as Hlen.
  assert (Hstore : (i <? length (zyncoders s))%nat = true)
    by (apply nat_ltb_true; exact Hlen).
  split.
  - intros p -> Hlong.
    unfold setup_zyncoder. rewrite (proj2 (Nat.ltb_ge MAXC i)) by lia.
    unfold load_zyncoder, bind, fault. rewrite He.
    rewrite (proj2 (Nat.leb_gt (String.length p + 1) OSC)) by lia.
    reflexivity.
  - intros Hpath Harm Hdiff Hpast.
    assert (Hcopy : match path with
                    | Some p => (String.length p + 1 <=? OSC)%nat = true
                    | None => True
                    end).
    { destruct path; [apply Nat.leb_le; exact Hpath | exact I]. }
    unfold setup_zyncoder, isr_func. rewrite (proj2 (Nat.ltb_ge MAXC i)) by lia.
    unfold load_zyncoder, store_zyncoder, bind, ret, fault. rewrite He.
    rewrite (proj2 (Nat.ltb_ge i 8)) by lia.
    destruct e as [en pa0 pb0 ch0 ct0 op0 mx0 st0 sv0 v0 le0 ts0 dt0].
    unfold rearmed in Harm.
    cbn [Zyncoder.enabled Zyncoder.pin_a Zyncoder.pin_b] in Harm.
    destruct path as [p |]; [rewrite Hcopy |];
      destruct (0 <? step);
      cbn [Zyncoder.enabled Zyncoder.pin_a Zyncoder.pin_b Zyncoder.set_enabled
           Zyncoder.set_pins Zyncoder.set_midi Zyncoder.set_osc_path
           Zyncoder.set_max_value Zyncoder.set_step Zyncoder.set_subvalue
           Zyncoder.set_value Zyncoder.set_last_encoded Zyncoder.set_tsus];
      rewrite Harm, Hstore, (z_eqb_false _ _ Hdiff); reflexivity.
Qed.

Lemma setup_zyncoder_leaves_its_arrays_witness :
  setup_zyncoder 4 8 1 5 6 0 7 (Some "/synth/cutoff"%string) 0 127 0 one_encoder
  = OutOfBounds
  /\ setup_zyncoder 12 512 9 5 6 0 7 None 0 127 0 (zero_globals 8 12 32)
     = OutOfBounds.
Proof.
  split.
  - apply (setup_zyncoder_leaves_its_arrays 4 8 1 5 6 0 7
             (Some "/synth/cutoff"%string) 0 127 0 one_encoder
             (Zyncoder.set_dtus [0; 0; 0; 0] (Zyncoder.set_enabled 0 Zyncoder.zero)))
      with (p := "/synth/cutoff"%string).
    + lia.
    + vm_compute. reflexivity.
    + reflexivity.
    + cbn. lia.
  - apply (setup_zyncoder_leaves_its_arrays 12 512 9 5 6 0 7 None 0 127 0
             (zero_globals 8 12 32) Zyncoder.zero).
    + lia.
    + vm_compute. reflexivity.
    + exact I.
    + reflexivity.
    + discriminate.
    + lia.
Defined.
